(** * STM32 FreeRTOS Wi-Fi LED controller: the communication core

    A shallow embedding of the firmware's real-time core
    ([esp8266_comm_task.c], [print_task.c], [watchdog.c]) and the proofs of
    the properties its specification states.

    Conventions.
    - [uint32_t] and [TickType_t] values are integers in [Z]; every C
      operation that can leave the 32-bit range is written with its
      wrap-around ([u32]).
    - A byte ([uint8_t], [char]) is an [ascii]; a C string is the [string] of
      the characters before its terminating NUL.
    - A task body is a function from its static variables (a record) and the
      answers of the environment (clock readings, HAL statuses, received
      bytes) to the new statics and the list of calls it makes, in order. *)

From Stdlib Require Import ZArith List String Ascii Lia Bool DecimalString.
From stdpp Require Import base list strings.

Local Open Scope Z_scope.

(** ** Machine integers, ticks and C strings *)

Definition u32 (x : Z) : Z := x mod 2 ^ 32.
Definition u16 (x : Z) : Z := x mod 2 ^ 16.
Definition u8 (x : Z) : Z := x mod 2 ^ 8.

(** [configTICK_RATE_HZ] of FreeRTOSConfig.h: 1000, a tick is a millisecond. *)
Definition configTICK_RATE_HZ : Z := 1000.

(** FreeRTOS [pdMS_TO_TICKS] and [pdTICKS_TO_MS] on [TickType_t]. *)
Definition pdMS_TO_TICKS (xTimeInMs : Z) : Z :=
  u32 (xTimeInMs * configTICK_RATE_HZ / 1000).
Definition pdTICKS_TO_MS (xTimeInTicks : Z) : Z :=
  u32 (xTimeInTicks * 1000 / configTICK_RATE_HZ).

(** The HAL's and the kernel's "wait for ever" values. *)
Definition HAL_MAX_DELAY : Z := 0xFFFFFFFF.
Definition portMAX_DELAY : Z := 0xFFFFFFFF.

Definition NUL : ascii := "000"%char.
Definition LF : ascii := "010"%char.
Definition CR : ascii := "013"%char.

(** The two characters written [\r\n] in the C literals. *)
Definition CRLF : string := String CR (String LF EmptyString).

Definition code (c : ascii) : Z := Z.of_N (N_of_ascii c).

(** [strncmp s1 s2 n]: compares at most [n] characters, the end of a string
    counting as the character 0. *)
Fixpoint strncmp (s1 s2 : string) (n : nat) {struct n} : Z :=
  match n with
  | O => 0
  | S n' =>
      match s1, s2 with
      | EmptyString, EmptyString => 0
      | EmptyString, String c2 _ => 0 - code c2
      | String c1 _, EmptyString => code c1
      | String c1 r1, String c2 r2 =>
          if Ascii.eqb c1 c2 then strncmp r1 r2 n' else code c1 - code c2
      end
  end.

(** [s[i]] for [i] up to [strlen s]: the terminator is read at [strlen s]. *)
Definition char_at (s : string) (i : nat) : ascii :=
  match String.get i s with
  | Some c => c
  | None => NUL
  end.

(** [strlen]. *)
Definition strlen (s : string) : Z := Z.of_nat (String.length s).

(** [snprintf buf size "%s..."]: the formatted text cut to [size - 1]
    characters. *)
Definition snprintf (size : nat) (text : string) : string :=
  String.substring 0 (size - 1) text.

(** The C string that starts at the beginning of a character array. *)
Fixpoint c_str (buf : list ascii) : string :=
  match buf with
  | [] => EmptyString
  | c :: rest => if Ascii.eqb c NUL then EmptyString else String c (c_str rest)
  end.

(** [strncpy dst src n] into an array: the first [n] characters of [src],
    padded with NUL up to [n] when [src] is shorter. *)
Definition strncpy (src : string) (n : nat) : list ascii :=
  let chars := take n (list_ascii_of_string src) in
  chars ++ replicate (n - length chars) NUL.

(** [%u] and [%lu]. *)
Definition dec (n : Z) : string := NilEmpty.string_of_uint (N.to_uint (Z.to_N n)).

(** ** The calls a task makes *)

Inductive HAL_StatusTypeDef := HAL_OK | HAL_ERROR | HAL_BUSY | HAL_TIMEOUT.

Definition is_HAL_OK (s : HAL_StatusTypeDef) : bool :=
  match s with HAL_OK => true | _ => false end.

Inductive UART_HandleTypeDef := huart2 | huart3.

Inductive LED_Pattern_t :=
  LED_PATTERN_NONE | LED_PATTERN_1 | LED_PATTERN_2 | LED_PATTERN_3.

(** One constructor per primitive the core calls, with the arguments the
    code passes.
    - [Transmit h data size timeout]: [HAL_UART_Transmit(&h, data, size, timeout)]
    - [Delay t]: [vTaskDelay(t)]
    - [DelayUntil t]: [vTaskDelayUntil(&last_wake, t)]
    - [StreamReceive n t]: [xStreamBufferReceive(uart_stream_buffer, &c, n, t)]
    - [QueueSend item t]: [xQueueSend(print_queue, item, t)]
    - [QueueReceive t]: [xQueueReceive(print_queue, buf, t)]
    - [PrintMessage msg]: [print_message(msg)]
    - [SetPattern p]: [led_effects_set_pattern(p)]
    - [Feed id]: [watchdog_feed(id)]
    - [Dispatch line]: [process_led_command(line)]
    - [Callback id name ms]: [timeout_callback(id, name, ms)] *)
Inductive event :=
| Transmit (huart : UART_HandleTypeDef) (pData : string) (Size : Z) (timeout : Z)
| Delay (xTicksToDelay : Z)
| DelayUntil (xTimeIncrement : Z)
| StreamReceive (xBufferLengthBytes : Z) (xTicksToWait : Z)
| QueueSend (item : list ascii) (xTicksToWait : Z)
| QueueReceive (xTicksToWait : Z)
| PrintMessage (message : string)
| SetPattern (pattern : LED_Pattern_t)
| Feed (id : Z)
| Dispatch (line : string)
| Callback (id : Z) (task_name : string) (last_feed_ms : Z).

Definition trace := list event.

(** [BaseType_t] results. *)
Definition pdPASS : Z := 1.
Definition pdFAIL : Z := 0.
Definition errQUEUE_FULL : Z := 0.
Definition pdTRUE : Z := 1.
Definition pdFALSE : Z := 0.

(** ** watchdog.c: the task watchdog *)

Module Watchdog.

Definition WATCHDOG_MAX_TASKS : Z := 3.
Definition WATCHDOG_CHECK_PERIOD_MS : Z := 1000.
Definition WATCHDOG_INVALID_ID : Z := 0xFF.

Record watchdog_entry_t := {
  task_name : list ascii;      (* char task_name[16] *)
  timeout_ms : Z;
  last_feed_tick : Z;
  registered : bool
}.

(** [timeout_callback]: [None] is NULL, [Some f] a registered function,
    known by its address. *)
Record state := {
  watchdog_tasks : list watchdog_entry_t;   (* WATCHDOG_MAX_TASKS cells *)
  num_registered : Z;
  timeout_callback : option Z
}.

Definition zero_entry : watchdog_entry_t :=
  {| task_name := replicate 16 NUL; timeout_ms := 0;
     last_feed_tick := 0; registered := false |}.

(** [watchdog_init]: the statics after the [memset], and its log line. *)
Definition watchdog_init : state * trace :=
  ({| watchdog_tasks := replicate (Z.to_nat WATCHDOG_MAX_TASKS) zero_entry;
      num_registered := 0;
      timeout_callback := None |},
   [PrintMessage (CRLF +:+ "[WATCHDOG] Initialized" +:+ CRLF)%string]).

(** The search loop of [watchdog_register], started at [id]. *)
Fixpoint find_free_slot (tasks : list watchdog_entry_t) (id : Z) : Z :=
  match tasks with
  | [] => id
  | e :: rest =>
      if negb (registered e) then id else find_free_slot rest (u8 (id + 1))
  end.

Definition set_last_feed_tick (now : Z) (e : watchdog_entry_t) : watchdog_entry_t :=
  {| task_name := task_name e; timeout_ms := timeout_ms e;
     last_feed_tick := now; registered := registered e |}.

Definition set_tasks (tasks : list watchdog_entry_t) (st : state) : state :=
  {| watchdog_tasks := tasks; num_registered := num_registered st;
     timeout_callback := timeout_callback st |}.

(** [watchdog_register(task_name, timeout_ms)]; [now] is what
    [xTaskGetTickCount] returns inside it. *)
Definition watchdog_register (name : string) (timeout : Z) (now : Z)
    (st : state) : Z * state * trace :=
  if num_registered st >=? WATCHDOG_MAX_TASKS then
    (WATCHDOG_INVALID_ID, st,
     [PrintMessage ("[WATCHDOG] ERROR: Max tasks reached!" +:+ CRLF)%string])
  else
    let id := find_free_slot (watchdog_tasks st) 0 in
    if id >=? WATCHDOG_MAX_TASKS then (WATCHDOG_INVALID_ID, st, [])
    else
      let e := {| task_name := strncpy name (16 - 1) ++ [NUL];
                  timeout_ms := timeout;
                  last_feed_tick := now;
                  registered := true |} in
      let msg := snprintf 64
        ("[WATCHDOG] Registered '" +:+ name +:+ "' (ID=" +:+ dec id +:+
         ", timeout=" +:+ dec timeout +:+ "ms)" +:+ CRLF)%string in
      (id,
       {| watchdog_tasks := <[Z.to_nat id := e]> (watchdog_tasks st);
          num_registered := u8 (num_registered st + 1);
          timeout_callback := timeout_callback st |},
       [PrintMessage msg]).

(** [watchdog_feed(id)]. *)
Definition watchdog_feed (id : Z) (now : Z) (st : state) : state :=
  if id >=? WATCHDOG_MAX_TASKS then st
  else
    match watchdog_tasks st !! Z.to_nat id with
    | None => st
    | Some e =>
        if negb (registered e) then st
        else set_tasks (<[Z.to_nat id := set_last_feed_tick now e]> (watchdog_tasks st)) st
    end.

(** [watchdog_set_callback(callback)]. *)
Definition watchdog_set_callback (callback : option Z) (st : state) : state :=
  {| watchdog_tasks := watchdog_tasks st; num_registered := num_registered st;
     timeout_callback := callback |}.

(** The text [watchdog_task] formats into [alert_msg]. *)
Definition alert_msg (id : Z) (e : watchdog_entry_t) (elapsed_ms : Z) : string :=
  snprintf 256
    (CRLF +:+ "*** WATCHDOG ALERT ***" +:+ CRLF +:+
     "Task: " +:+ c_str (task_name e) +:+ " (ID=" +:+ dec id +:+ ")" +:+ CRLF +:+
     "Last feed: " +:+ dec elapsed_ms +:+ " ms ago" +:+ CRLF +:+
     "Timeout: " +:+ dec (timeout_ms e) +:+ " ms" +:+ CRLF +:+
     "Status: HUNG or DEADLOCKED!" +:+ CRLF +:+ CRLF)%string.

(** The time since the last feed of an entry, as [watchdog_task] and
    [watchdog_get_stats] compute it. *)
Definition elapsed_ms (now : Z) (e : watchdog_entry_t) : Z :=
  pdTICKS_TO_MS (u32 (now - last_feed_tick e)).

(** The body of the [for] loop of [watchdog_task] for slot [id]: the entry
    afterwards and the alert it raised, if any. *)
Definition check_entry (callback : option Z) (now : Z) (id : Z)
    (e : watchdog_entry_t) : watchdog_entry_t * trace :=
  if negb (registered e) then (e, [])
  else
    let elapsed_ticks := u32 (now - last_feed_tick e) in
    let elapsed_ms := pdTICKS_TO_MS elapsed_ticks in
    if elapsed_ms >? timeout_ms e then
      (set_last_feed_tick now e,
       [match callback with
        | Some _ => Callback id (c_str (task_name e)) elapsed_ms
        | None => PrintMessage (alert_msg id e elapsed_ms)
        end])
    else (e, []).

(** The [for] loop of [watchdog_task] over the slots [id], [id+1], ... *)
Fixpoint check_slots (callback : option Z) (now : Z) (id : Z) (count : nat)
    (tasks : list watchdog_entry_t) : list watchdog_entry_t * trace :=
  match count with
  | O => (tasks, [])
  | S count' =>
      match tasks !! Z.to_nat id with
      | None => check_slots callback now (id + 1) count' tasks
      | Some e =>
          let '(e', alert) := check_entry callback now id e in
          let '(tasks', alerts) :=
            check_slots callback now (id + 1) count' (<[Z.to_nat id := e']> tasks) in
          (tasks', alert ++ alerts)
      end
  end.

(** One turn of the loop of [watchdog_task]: the periodic wait, then the
    scan of the table at the tick [now] read after it. *)
Definition watchdog_task_iteration (now : Z) (st : state) : state * trace :=
  let '(tasks', alerts) :=
    check_slots (timeout_callback st) now 0 (Z.to_nat WATCHDOG_MAX_TASKS)
      (watchdog_tasks st) in
  (set_tasks tasks' st,
   DelayUntil (pdMS_TO_TICKS WATCHDOG_CHECK_PERIOD_MS) :: alerts).

(** The watchdog task left alone for several periods, no task feeding:
    the alerts of each turn. *)
Fixpoint watchdog_task_run (nows : list Z) (st : state) : state * list trace :=
  match nows with
  | [] => (st, [])
  | now :: rest =>
      let '(st1, t) := watchdog_task_iteration now st in
      let '(st2, ts) := watchdog_task_run rest st1 in
      (st2, t :: ts)
  end.

(** [watchdog_get_stats(id, last_feed_ms, timeout_ms)] at tick [now]: the
    result, and what is stored through each of the two pointers;
    [want_last_feed] and [want_timeout] tell which pointers are not NULL,
    and [None] is a location left untouched. *)
Definition watchdog_get_stats (id : Z) (want_last_feed want_timeout : bool)
    (now : Z) (st : state) : Z * option Z * option Z :=
  if id >=? WATCHDOG_MAX_TASKS then (pdFALSE, None, None)
  else
    match watchdog_tasks st !! Z.to_nat id with
    | None => (pdFALSE, None, None)
    | Some e =>
        if negb (registered e) then (pdFALSE, None, None)
        else
          let elapsed_ticks := u32 (now - last_feed_tick e) in
          (pdTRUE,
           if want_last_feed then Some (pdTICKS_TO_MS elapsed_ticks) else None,
           if want_timeout then Some (timeout_ms e) else None)
    end.

End Watchdog.

(** ** print_task.c: the logging channel *)

Module PrintTask.

Definition PRINT_MESSAGE_MAX_SIZE : nat := 256.
Definition PRINT_QUEUE_DEPTH : nat := 5.
Definition PRINT_ENQUEUE_TIMEOUT_MS : Z := 100.

(** A queue slot holds [PRINT_MESSAGE_MAX_SIZE] characters. *)
Definition item := list ascii.

(** [print_queue]: [None] is the NULL handle before [print_task_init];
    after it, the queued items, oldest first. *)
Definition QueueHandle_t := option (list item).

(** FreeRTOS [xQueueSend] on a queue of depth [PRINT_QUEUE_DEPTH]: the item
    is copied to the back when there is a free slot; on a full queue the
    caller waits up to the timeout, and [freed] tells whether the consumer
    took the oldest item before the timeout ran out. *)
Definition xQueueSend (q : list item) (it : item) (freed : bool)
  : Z * list item :=
  if (length q <? PRINT_QUEUE_DEPTH)%nat then (pdPASS, q ++ [it])
  else if freed then (pdPASS, tail q ++ [it])
  else (errQUEUE_FULL, q).

(** [print_message(message)]; [None] is the NULL pointer. The local
    [buffer] gets the first 255 characters by [strncpy] and a NUL in its
    last cell. *)
Definition print_message (message : option string) (freed : bool)
    (print_queue : QueueHandle_t) : Z * QueueHandle_t * trace :=
  match message with
  | None => (pdFAIL, print_queue, [])
  | Some message =>
      match print_queue with
      | None => (pdFAIL, None, [])
      | Some q =>
          let buffer := strncpy message (PRINT_MESSAGE_MAX_SIZE - 1) ++ [NUL] in
          let '(result, q') := xQueueSend q buffer freed in
          (result, Some q',
           [QueueSend buffer (pdMS_TO_TICKS PRINT_ENQUEUE_TIMEOUT_MS)])
      end
  end.

(** The part of [print_task_handler] before its loop, after the watchdog
    registration. *)
Definition print_task_startup : trace :=
  let startup_msg :=
    (CRLF +:+ "[PRINT_TASK] Debug logging initialized on UART3" +:+ CRLF)%string in
  [Transmit huart3 startup_msg (strlen startup_msg) HAL_MAX_DELAY].

(** One turn of the loop of [print_task_handler]; [q] is the queue as
    [xQueueReceive] finds it within its 2000 ms: empty means the wait
    timed out. *)
Definition print_task_iteration (wd_id : Z) (q : list item)
  : list item * trace :=
  let feed :=
    if wd_id =? Watchdog.WATCHDOG_INVALID_ID then [] else [Feed wd_id] in
  match q with
  | message_buffer :: rest =>
      (rest,
       [QueueReceive (pdMS_TO_TICKS 2000);
        Transmit huart3 (c_str message_buffer)
          (strlen (c_str message_buffer)) HAL_MAX_DELAY] ++ feed)
  | [] => ([], [QueueReceive (pdMS_TO_TICKS 2000)] ++ feed)
  end.

(** [print_task_init]: the queue it creates, empty (the assertion after
    [xQueueCreate] excludes the NULL handle). *)
Definition print_task_init : QueueHandle_t := Some [].

(** [print_char(c)]. The local [buffer] has two cells, and [xQueueSend]
    copies a whole item of [PRINT_MESSAGE_MAX_SIZE] bytes from its
    address: the two cells and the bytes that follow them in memory,
    [beyond]. *)
Definition print_char (c : ascii) (beyond : list ascii) (freed : bool)
    (print_queue : QueueHandle_t) : Z * QueueHandle_t * trace :=
  match print_queue with
  | None => (pdFAIL, None, [])
  | Some q =>
      let buffer := [c; NUL] in
      let copied := take PRINT_MESSAGE_MAX_SIZE (buffer ++ beyond) in
      let '(result, q') := xQueueSend q copied freed in
      (result, Some q',
       [QueueSend copied (pdMS_TO_TICKS PRINT_ENQUEUE_TIMEOUT_MS)])
  end.

(** The producers and the consumer of the log queue, interleaved: a call
    of [print_message] or of [print_char] by some task, or a turn of the
    loop of [print_task_handler]. A producer that finds the queue full and
    gets a slot within its timeout is a turn followed by the post; one that
    gets none is the post alone. *)
Inductive logging_event :=
| Message_posted (message : string)
| Char_posted (c : ascii) (beyond : list ascii)
| Print_turn.

(** The results of the posts, the queue at the end and the trace of the
    print task. *)
Fixpoint logging_run (wd_id : Z) (events : list logging_event) (q : list item)
  : list Z * list item * trace :=
  match events with
  | [] => ([], q, [])
  | Message_posted message :: rest =>
      let '(result, print_queue, _) := print_message (Some message) false (Some q) in
      let '(results, q2, t) := logging_run wd_id rest (default q print_queue) in
      (result :: results, q2, t)
  | Char_posted c beyond :: rest =>
      let '(result, print_queue, _) := print_char c beyond false (Some q) in
      let '(results, q2, t) := logging_run wd_id rest (default q print_queue) in
      (result :: results, q2, t)
  | Print_turn :: rest =>
      let '(q1, t1) := print_task_iteration wd_id q in
      let '(results, q2, t2) := logging_run wd_id rest q1 in
      (results, q2, t1 ++ t2)
  end.

End PrintTask.

(** ** esp8266_comm_task.c: the communication task *)

Module Esp8266Comm.

Definition UART_RX_BUFFER_SIZE : Z := 64.
Definition STM32_PING_INTERVAL_MS : Z := 10000.
Definition STM32_PING_JITTER_MS : Z := 2000.
Definition STM32_PING_TIMEOUT_MS : Z := 1000.

(** The file's static variables, the two function-local statics of the
    task ([next_ping_jitter], [buffer_warning_shown]) and the pattern that
    [led_effects_set_pattern] stores in [current_pattern]. *)
Record state := {
  rx_buffer : list ascii;          (* char rx_buffer[UART_RX_BUFFER_SIZE] *)
  rx_index : Z;                    (* uint16_t *)
  last_ping_sent : Z;
  last_pong_received : Z;
  waiting_for_pong : bool;
  uart_connection_ok : bool;
  ping_random_seed : Z;
  next_ping_jitter : Z;
  buffer_warning_shown : bool;
  current_pattern : LED_Pattern_t
}.

(** The statics as the C initialisers leave them. *)
Definition initial_state : state :=
  {| rx_buffer := replicate (Z.to_nat UART_RX_BUFFER_SIZE) NUL;
     rx_index := 0;
     last_ping_sent := 0;
     last_pong_received := 0;
     waiting_for_pong := false;
     uart_connection_ok := true;
     ping_random_seed := 0;
     next_ping_jitter := 0;
     buffer_warning_shown := false;
     current_pattern := LED_PATTERN_NONE |}.

Definition set_rx (buf : list ascii) (idx : Z) (st : state) : state :=
  {| rx_buffer := buf; rx_index := idx;
     last_ping_sent := last_ping_sent st;
     last_pong_received := last_pong_received st;
     waiting_for_pong := waiting_for_pong st;
     uart_connection_ok := uart_connection_ok st;
     ping_random_seed := ping_random_seed st;
     next_ping_jitter := next_ping_jitter st;
     buffer_warning_shown := buffer_warning_shown st;
     current_pattern := current_pattern st |}.

Definition set_link (sent pong : Z) (waiting ok : bool) (st : state) : state :=
  {| rx_buffer := rx_buffer st; rx_index := rx_index st;
     last_ping_sent := sent;
     last_pong_received := pong;
     waiting_for_pong := waiting;
     uart_connection_ok := ok;
     ping_random_seed := ping_random_seed st;
     next_ping_jitter := next_ping_jitter st;
     buffer_warning_shown := buffer_warning_shown st;
     current_pattern := current_pattern st |}.

Definition set_jitter (seed jitter : Z) (st : state) : state :=
  {| rx_buffer := rx_buffer st; rx_index := rx_index st;
     last_ping_sent := last_ping_sent st;
     last_pong_received := last_pong_received st;
     waiting_for_pong := waiting_for_pong st;
     uart_connection_ok := uart_connection_ok st;
     ping_random_seed := seed;
     next_ping_jitter := jitter;
     buffer_warning_shown := buffer_warning_shown st;
     current_pattern := current_pattern st |}.

Definition set_warning_shown (shown : bool) (st : state) : state :=
  {| rx_buffer := rx_buffer st; rx_index := rx_index st;
     last_ping_sent := last_ping_sent st;
     last_pong_received := last_pong_received st;
     waiting_for_pong := waiting_for_pong st;
     uart_connection_ok := uart_connection_ok st;
     ping_random_seed := ping_random_seed st;
     next_ping_jitter := next_ping_jitter st;
     buffer_warning_shown := shown;
     current_pattern := current_pattern st |}.

(** [led_effects_set_pattern(pattern)], as far as the core sees it. *)
Definition led_effects_set_pattern (pattern : LED_Pattern_t) (st : state) : state :=
  {| rx_buffer := rx_buffer st; rx_index := rx_index st;
     last_ping_sent := last_ping_sent st;
     last_pong_received := last_pong_received st;
     waiting_for_pong := waiting_for_pong st;
     uart_connection_ok := uart_connection_ok st;
     ping_random_seed := ping_random_seed st;
     next_ping_jitter := next_ping_jitter st;
     buffer_warning_shown := buffer_warning_shown st;
     current_pattern := pattern |}.

(** [get_random_jitter(max)]: the new seed and the value returned. *)
Definition get_random_jitter (max : Z) (seed : Z) : Z * Z :=
  let seed' := u32 (seed * 1664525 + 1013904223) in
  (seed', seed' mod max).

(** The retry loop the file writes out three times:
    [for (retry = 0; retry < 3; retry++) { status = HAL_UART_Transmit(&huart2,
    pData, Size, 100); if (status == HAL_OK) break; vTaskDelay(pdMS_TO_TICKS(10)); }].
    [tx k] is the status the HAL returns to attempt number [k]; [left] is
    the number of turns the loop condition still allows, [status] the
    variable before the turn. *)
Fixpoint retry_loop (tx : nat -> HAL_StatusTypeDef) (pData : string) (Size : Z)
    (retry left : nat) (status : HAL_StatusTypeDef) : HAL_StatusTypeDef * trace :=
  match left with
  | O => (status, [])
  | S left' =>
      let status := tx retry in
      if is_HAL_OK status then (status, [Transmit huart2 pData Size 100])
      else
        let '(final, rest) := retry_loop tx pData Size (S retry) left' status in
        (final, Transmit huart2 pData Size 100 :: Delay (pdMS_TO_TICKS 10) :: rest)
  end.

(** The loop entered with [retry = 0]; [status] is assigned by the first
    turn, so its value before the loop does not matter. *)
Definition transmit_with_retry (tx : nat -> HAL_StatusTypeDef)
    (pData : string) (Size : Z) : HAL_StatusTypeDef * trace :=
  retry_loop tx pData Size 0 3 HAL_ERROR.

(** What the environment answers during one [process_led_command]: the
    statuses of its transmit attempts and the tick count it reads. *)
Record dispatch_env := {
  tx_status : nat -> HAL_StatusTypeDef;
  tick_count : Z
}.

(** The [switch (cmd)] of [process_led_command]: the pattern to set, if
    any, the acknowledgement and the log line. *)
Definition led_command_switch (cmd : ascii)
  : option LED_Pattern_t * string * string :=
  if Ascii.eqb cmd "1" then
    (Some LED_PATTERN_1, "OK:Pattern1" +:+ CRLF,
     "[LED] Pattern 1: All LEDs ON" +:+ CRLF)
  else if Ascii.eqb cmd "2" then
    (Some LED_PATTERN_2, "OK:Pattern2" +:+ CRLF,
     "[LED] Pattern 2: Different Frequency Blink" +:+ CRLF)
  else if Ascii.eqb cmd "3" then
    (Some LED_PATTERN_3, "OK:Pattern3" +:+ CRLF,
     "[LED] Pattern 3: Same Frequency Blink" +:+ CRLF)
  else if Ascii.eqb cmd "4" then
    (Some LED_PATTERN_NONE, "OK:AllOFF" +:+ CRLF,
     "[LED] Pattern 4: All LEDs OFF" +:+ CRLF)
  else
    (None, "ERROR:InvalidPattern" +:+ CRLF,
     "[LED] ERROR: Invalid pattern command" +:+ CRLF).

(** [process_led_command(line)]. *)
Definition process_led_command (env : dispatch_env) (line : string)
    (st : state) : state * trace :=
  let debug_msg :=
    snprintf 128 ("[ESP8266] ← Received: '" +:+ line +:+ "'" +:+ CRLF) in
  let received := [PrintMessage debug_msg] in
  if strncmp line "PING" 4 =? 0 then
    let '(status, attempts) :=
      transmit_with_retry (tx_status env) ("PONG" +:+ CRLF) 6 in
    (st,
     received ++ attempts ++
     [PrintMessage (if is_HAL_OK status
             then "[ESP8266] ← PING received, sent PONG" +:+ CRLF
             else "[ESP8266] ERROR: Failed to send PONG" +:+ CRLF)])
  else if strncmp line "STM32_PONG" 10 =? 0 then
    let restored :=
      if negb (uart_connection_ok st)
      then [PrintMessage ("[ESP8266] ✓ UART connection restored!" +:+ CRLF)]
      else [] in
    (set_link (last_ping_sent st) (tick_count env) false true st,
     received ++ restored ++
     [PrintMessage ("[ESP8266] ← STM32_PONG received" +:+ CRLF)])
  else if strncmp line "LED_CMD:" 8 =? 0 then
    let cmd := char_at line 8 in
    let '(pattern, ack_msg, log_msg) := led_command_switch cmd in
    let '(st1, applied) :=
      match pattern with
      | Some p => (led_effects_set_pattern p st, [SetPattern p])
      | None => (st, [])
      end in
    let '(status, attempts) :=
      transmit_with_retry (tx_status env) ack_msg (strlen ack_msg) in
    let failed :=
      if is_HAL_OK status then []
      else [PrintMessage ("[LED] ERROR: Failed to send ACK to ESP8266" +:+ CRLF)] in
    (st1, received ++ applied ++ attempts ++ failed ++ [PrintMessage log_msg])
  else (st, received).

(** The block of the task loop that handles one received character
    ("Data received - process the character"). *)
Definition process_received_char (env : dispatch_env) (received_char : ascii)
    (st : state) : state * trace :=
  if Ascii.eqb received_char LF || Ascii.eqb received_char CR then
    if rx_index st >? 0 then
      let buf := <[Z.to_nat (rx_index st) := NUL]> (rx_buffer st) in
      let line := c_str buf in
      let '(st1, t) := process_led_command env line (set_rx buf (rx_index st) st) in
      (set_rx (rx_buffer st1) 0 st1, Dispatch line :: t)
    else (st, [])
  else if rx_index st >=? UART_RX_BUFFER_SIZE - 1 then
    (set_rx (rx_buffer st) 0 st,
     [Transmit huart2 ("ERROR:BufferOverflow" +:+ CRLF) 22 100;
      PrintMessage ("[ESP8266] ERROR: RX buffer overflow!" +:+ CRLF)])
  else
    (set_rx (<[Z.to_nat (rx_index st) := received_char]> (rx_buffer st))
            (u16 (rx_index st + 1)) st,
     []).

(** The block "Check if it's time to send ping to ESP8266". *)
Definition ping_block (tx : nat -> HAL_StatusTypeDef) (now : Z) (st : state)
  : state * trace :=
  let st1 :=
    if last_ping_sent st =? 0 then
      let '(seed, jitter) := get_random_jitter STM32_PING_JITTER_MS (ping_random_seed st) in
      set_jitter seed jitter st
    else st in
  let ping_interval_with_jitter := u32 (STM32_PING_INTERVAL_MS + next_ping_jitter st1) in
  if u32 (now - last_ping_sent st1) >=? pdMS_TO_TICKS ping_interval_with_jitter then
    let '(status, attempts) :=
      transmit_with_retry tx ("STM32_PING" +:+ CRLF) 12 in
    if is_HAL_OK status then
      let st2 := set_link now (last_pong_received st1) true (uart_connection_ok st1) st1 in
      let '(seed, jitter) := get_random_jitter STM32_PING_JITTER_MS (ping_random_seed st2) in
      (set_jitter seed jitter st2,
       attempts ++ [PrintMessage ("[ESP8266] → Sending STM32_PING..." +:+ CRLF)])
    else
      (st1, attempts ++ [PrintMessage ("[ESP8266] ERROR: Failed to send STM32_PING" +:+ CRLF)])
  else (st1, []).

(** The block "Check for ping timeout". *)
Definition ping_timeout_block (now : Z) (st : state) : state * trace :=
  if waiting_for_pong st &&
     (u32 (now - last_ping_sent st) >=? pdMS_TO_TICKS STM32_PING_TIMEOUT_MS) then
    let '(ok, alert) :=
      if uart_connection_ok st then
        (false,
         [PrintMessage ("[ESP8266] ✗ ALERT: No STM32_PONG response!" +:+ CRLF);
          PrintMessage ("[ESP8266] UART connection may be broken" +:+ CRLF)])
      else (uart_connection_ok st, []) in
    (set_link (last_ping_sent st) (last_pong_received st) false ok st, alert)
  else (st, []).

(** The block "check how much is still in buffer for diagnostics". *)
Definition high_water_block (bytes_available : Z) (st : state) : state * trace :=
  if bytes_available >? 64 then
    if negb (buffer_warning_shown st) then
      (set_warning_shown true st,
       [PrintMessage ("[ESP8266] WARNING: Stream buffer filling up, ESP8266 sending too fast!" +:+ CRLF)])
    else (st, [])
  else (st, []).

(** What the environment answers during one turn of the task loop:
    the tick count read at its top, the statuses of the ping attempts,
    the outcome of the stream-buffer read ([None] on timeout, else the byte
    and the number of bytes still in the stream buffer), and the answers to
    [process_led_command] if the byte completes a line. *)
Record iteration_env := {
  now : Z;
  ping_status : nat -> HAL_StatusTypeDef;
  received : option (ascii * Z);
  dispatch : dispatch_env
}.

(** One turn of the [while (1)] of [esp8266_comm_task_handler]; [wd_id] is
    the task's local holding its watchdog id. *)
Definition comm_task_iteration (wd_id : Z) (env : iteration_env) (st : state)
  : state * trace :=
  let '(st1, t1) := ping_block (ping_status env) (now env) st in
  let '(st2, t2) := ping_timeout_block (now env) st1 in
  let read := [StreamReceive 1 (pdMS_TO_TICKS 100)] in
  let feed := if wd_id =? Watchdog.WATCHDOG_INVALID_ID then [] else [Feed wd_id] in
  match received env with
  | None => (st2, t1 ++ t2 ++ read ++ feed)
  | Some (received_char, bytes_available) =>
      let '(st3, t3) := high_water_block bytes_available st2 in
      let '(st4, t4) := process_received_char (dispatch env) received_char st3 in
      (st4, t1 ++ t2 ++ read ++ feed ++ t3 ++ t4)
  end.

(** The task loop over the turns [envs] describes. *)
Fixpoint comm_task_run (wd_id : Z) (envs : list iteration_env) (st : state)
  : state * trace :=
  match envs with
  | [] => (st, [])
  | env :: rest =>
      let '(st1, t1) := comm_task_iteration wd_id env st in
      let '(st2, t2) := comm_task_run wd_id rest st1 in
      (st2, t1 ++ t2)
  end.

(** The task before its loop: the startup frame, the seed and the
    watchdog registration (whose result is [wd_id]). *)
Definition comm_task_startup (tick : Z) (wd_id : Z) (st : state) : state * trace :=
  let startup :=
    (CRLF +:+ "STM32 LED Controller Ready (Stream Buffer Mode)" +:+ CRLF)%string in
  (set_jitter tick (next_ping_jitter st) st,
   Transmit huart2 startup (strlen startup) 1000 ::
   (if wd_id =? Watchdog.WATCHDOG_INVALID_ID
    then [PrintMessage ("[ESP8266] Failed to register with watchdog!" +:+ CRLF)]
    else [])).

(** The characters fed to the line assembler one at a time, each with the
    answers for the dispatch it may cause. *)
Fixpoint feed_chars (input : list (ascii * dispatch_env)) (st : state)
  : state * trace :=
  match input with
  | [] => (st, [])
  | (c, env) :: rest =>
      let '(st1, t1) := process_received_char env c st in
      let '(st2, t2) := feed_chars rest st1 in
      (st2, t1 ++ t2)
  end.








End Esp8266Comm.

(** ** led_effects.c: the LED patterns *)

Module LedEffects.

(** A software timer that has been created: its period in ticks and
    whether it is running. A command to the timer service is sent with a
    block time of 0: it is dropped when the service's queue is full, and
    [accepted] tells whether it was taken. *)
Record timer := { period : Z; active : bool }.

Definition xTimerStop (t : timer) (accepted : bool) : timer :=
  if accepted then {| period := period t; active := false |} else t.

Definition xTimerChangePeriod (t : timer) (new_period : Z) (accepted : bool) : timer :=
  if accepted then {| period := new_period; active := true |} else t.

Definition xTimerStart (t : timer) (accepted : bool) : timer :=
  if accepted then {| period := period t; active := true |} else t.

Inductive GPIO_PinState := GPIO_PIN_RESET | GPIO_PIN_SET.

(** The statics of the file ([None] is a NULL timer handle) and the two
    LED pins of port D. *)
Record state := {
  led_timer1 : option timer;
  led_timer2 : option timer;
  LED_GREEN_PIN : GPIO_PinState;
  LED_ORANGE_PIN : GPIO_PinState;
  current_pattern : LED_Pattern_t
}.

(** [led_effects_init]; [created1] and [created2] tell whether
    [xTimerCreate] returned a timer. *)
Definition led_effects_init (created1 created2 : bool) (st : state) : state :=
  let fresh := {| period := pdMS_TO_TICKS 100; active := false |} in
  {| led_timer1 := if created1 then Some fresh else None;
     led_timer2 := if created2 then Some fresh else None;
     LED_GREEN_PIN := GPIO_PIN_RESET;
     LED_ORANGE_PIN := GPIO_PIN_RESET;
     current_pattern := current_pattern st |}.

(** The two blinking cases of [led_effects_set_pattern]: both pins low,
    the two periods set, the two timers started. A NULL handle given to
    [xTimerChangePeriod] fails the kernel's assertion: [None]. *)
Definition start_blinking (accepted : nat -> bool) (period1 period2 : Z)
    (pattern : LED_Pattern_t) (t1 t2 : option timer) : option state :=
  match t1, t2 with
  | Some a, Some b =>
      let a := xTimerChangePeriod a (pdMS_TO_TICKS period1) (accepted 2%nat) in
      let b := xTimerChangePeriod b (pdMS_TO_TICKS period2) (accepted 3%nat) in
      let a := xTimerStart a (accepted 4%nat) in
      let b := xTimerStart b (accepted 5%nat) in
      Some {| led_timer1 := Some a; led_timer2 := Some b;
              LED_GREEN_PIN := GPIO_PIN_RESET; LED_ORANGE_PIN := GPIO_PIN_RESET;
              current_pattern := pattern |}
  | _, _ => None
  end.

(** [led_effects_set_pattern(pattern)]; [accepted k] tells whether the
    timer command number [k] of the call was taken (0 and 1: the two
    stops; 2 and 3: the two period changes; 4 and 5: the two starts). *)
Definition led_effects_set_pattern (accepted : nat -> bool)
    (pattern : LED_Pattern_t) (st : state) : option state :=
  let t1 := match led_timer1 st with
            | Some t => Some (xTimerStop t (accepted 0%nat))
            | None => None
            end in
  let t2 := match led_timer2 st with
            | Some t => Some (xTimerStop t (accepted 1%nat))
            | None => None
            end in
  match pattern with
  | LED_PATTERN_1 =>
      Some {| led_timer1 := t1; led_timer2 := t2;
              LED_GREEN_PIN := GPIO_PIN_SET; LED_ORANGE_PIN := GPIO_PIN_SET;
              current_pattern := pattern |}
  | LED_PATTERN_2 => start_blinking accepted 100 1000 pattern t1 t2
  | LED_PATTERN_3 => start_blinking accepted 100 100 pattern t1 t2
  | LED_PATTERN_NONE =>
      Some {| led_timer1 := t1; led_timer2 := t2;
              LED_GREEN_PIN := GPIO_PIN_RESET; LED_ORANGE_PIN := GPIO_PIN_RESET;
              current_pattern := pattern |}
  end.

Definition toggle (p : GPIO_PinState) : GPIO_PinState :=
  match p with GPIO_PIN_RESET => GPIO_PIN_SET | GPIO_PIN_SET => GPIO_PIN_RESET end.

(** [led_timer1_callback] and [led_timer2_callback]. *)
Definition led_timer1_callback (st : state) : state :=
  {| led_timer1 := led_timer1 st; led_timer2 := led_timer2 st;
     LED_GREEN_PIN := toggle (LED_GREEN_PIN st);
     LED_ORANGE_PIN := LED_ORANGE_PIN st;
     current_pattern := current_pattern st |}.

Definition led_timer2_callback (st : state) : state :=
  {| led_timer1 := led_timer1 st; led_timer2 := led_timer2 st;
     LED_GREEN_PIN := LED_GREEN_PIN st;
     LED_ORANGE_PIN := toggle (LED_ORANGE_PIN st);
     current_pattern := current_pattern st |}.

(** The timer service: the timers that expire, one after the other
    ([true] for [led_timer1], [false] for [led_timer2]). A timer that
    runs has its callback called; one that is stopped, or was never
    created, does not expire. *)
Definition timer_expires (first : bool) (st : state) : state :=
  match (if first then led_timer1 st else led_timer2 st) with
  | Some t =>
      if active t
      then (if first then led_timer1_callback st else led_timer2_callback st)
      else st
  | None => st
  end.

Definition timer_service (expired : list bool) (st : state) : state :=
  fold_left (fun s first => timer_expires first s) expired st.


End LedEffects.

(** ** ESP8266_LED_WebServer.ino: the serial side of the Wi-Fi bridge *)

Module Esp8266Bridge.

Definition ECHO_PING_INTERVAL_MS : Z := 10000.
Definition ECHO_PING_JITTER_MS : Z := 2000.
Definition ECHO_TIMEOUT_MS : Z := 1000.

(** The globals of the sketch that its serial side uses, and the two
    function-local statics [rxBuffer] and [nextPingJitter]. An Arduino
    [String] is the string of its characters; [unsigned long] has 32
    bits. *)
Record state := {
  rxBuffer : string;
  uartConnectionOK : bool;
  lastEchoPing : Z;
  lastEchoReceived : Z;
  waitingForEcho : bool;
  lastAckReceived : string;
  nextPingJitter : Z
}.

(** The globals as their initialisers leave them. *)
Definition initial_state : state :=
  {| rxBuffer := ""; uartConnectionOK := true; lastEchoPing := 0;
     lastEchoReceived := 0; waitingForEcho := false; lastAckReceived := "";
     nextPingJitter := 0 |}.

Definition set_rxBuffer (buf : string) (st : state) : state :=
  {| rxBuffer := buf; uartConnectionOK := uartConnectionOK st;
     lastEchoPing := lastEchoPing st; lastEchoReceived := lastEchoReceived st;
     waitingForEcho := waitingForEcho st; lastAckReceived := lastAckReceived st;
     nextPingJitter := nextPingJitter st |}.

Definition set_echo (ok waiting : bool) (st : state) : state :=
  {| rxBuffer := rxBuffer st; uartConnectionOK := ok;
     lastEchoPing := lastEchoPing st; lastEchoReceived := lastEchoReceived st;
     waitingForEcho := waiting; lastAckReceived := lastAckReceived st;
     nextPingJitter := nextPingJitter st |}.

Definition set_lastAckReceived (ack : string) (st : state) : state :=
  {| rxBuffer := rxBuffer st; uartConnectionOK := uartConnectionOK st;
     lastEchoPing := lastEchoPing st; lastEchoReceived := lastEchoReceived st;
     waitingForEcho := waitingForEcho st; lastAckReceived := ack;
     nextPingJitter := nextPingJitter st |}.

(** [stm32Serial.println(s)] writes the text and CR LF. What the sketch
    prints on [Serial], the USB monitor, is left out. *)
Definition println (s : string) : string := s +:+ CRLF.

(** [s.startsWith(prefix)]. *)
Definition startsWith (s prefix : string) : bool := String.prefix prefix s.

(** The body of the [while] loop of [processSTM32Response] for the
    character read: the statics afterwards and what is written to
    [stm32Serial]. *)
Definition process_char (c : ascii) (st : state) : state * list string :=
  if Ascii.eqb c LF || Ascii.eqb c CR then
    if (0 <? String.length (rxBuffer st))%nat then
      let '(st1, written) :=
        if startsWith (rxBuffer st) "STM32_PING" then
          (st, [println "STM32_PONG"])
        else if startsWith (rxBuffer st) "PONG" then
          (set_echo true false st, [])
        else if startsWith (rxBuffer st) "OK:" then
          (set_lastAckReceived (rxBuffer st) st, [])
        else if startsWith (rxBuffer st) "ERROR:" then
          (set_lastAckReceived (rxBuffer st) st, [])
        else (st, []) in
      (set_rxBuffer "" st1, written)
    else (st, [])
  else
    let buf := rxBuffer st +:+ String c "" in
    (set_rxBuffer (if (128 <? String.length buf)%nat then ""%string else buf) st, []).

(** [processSTM32Response()]; [available] is what [stm32Serial] has to
    read during the call. *)
Fixpoint processSTM32Response (available : list ascii) (st : state)
  : state * list string :=
  match available with
  | [] => (st, [])
  | c :: rest =>
      let '(st1, w1) := process_char c st in
      let '(st2, w2) := processSTM32Response rest st1 in
      (st2, w1 ++ w2)
  end.

(** The wait loop of [sendCommandToSTM32]: [polls] is what each pass
    finds to read, and it ends when the 500 ms have passed. *)
Fixpoint await_ack (polls : list (list ascii)) (st : state) : state * list string :=
  match polls with
  | [] => (st, [])
  | available :: rest =>
      if (String.length (lastAckReceived st) =? 0)%nat then
        let '(st1, w1) := processSTM32Response available st in
        let '(st2, w2) := await_ack rest st1 in
        (st2, w1 ++ w2)
      else (st, [])
  end.

(** [sendCommandToSTM32(pattern)]. *)
Definition sendCommandToSTM32 (pattern : string) (polls : list (list ascii))
    (st : state) : state * list string :=
  let '(st1, written) := await_ack polls (set_lastAckReceived "" st) in
  (st1, ["LED_CMD:"%string; println pattern] ++ written).

(** [handlePattern()]: [arg] is the parameter [p] of the request, if it
    has one; the result is the status code of the answer. The request
    log that [logRequest] keeps and the text of the answer are left out. *)
Definition handlePattern (arg : option string) (polls : list (list ascii))
    (st : state) : Z * state * list string :=
  match arg with
  | None => (400, st, [])
  | Some pattern =>
      if negb (String.eqb pattern "1") && negb (String.eqb pattern "2") &&
         negb (String.eqb pattern "3") && negb (String.eqb pattern "4")
      then (400, st, [])
      else
        let '(st1, written) := sendCommandToSTM32 pattern polls st in
        (200, st1, written)
  end.

(** [checkUARTConnection()]; [now] is what [millis()] returns and
    [random k] what the call number [k] of [random(0, ECHO_PING_JITTER_MS)]
    returns. *)
Definition checkUARTConnection (now : Z) (random : nat -> Z) (st : state)
  : state * list string :=
  let '(jitter, drawn) :=
    if lastEchoPing st =? 0 then (u32 (random 0%nat), 1%nat)
    else (nextPingJitter st, 0%nat) in
  let pingIntervalWithJitter := u32 (ECHO_PING_INTERVAL_MS + jitter) in
  let '(st1, written) :=
    if u32 (now - lastEchoPing st) >=? pingIntervalWithJitter then
      ({| rxBuffer := rxBuffer st; uartConnectionOK := uartConnectionOK st;
          lastEchoPing := now; lastEchoReceived := now;
          waitingForEcho := true; lastAckReceived := lastAckReceived st;
          nextPingJitter := u32 (random drawn) |},
       [println "PING"])
    else
      ({| rxBuffer := rxBuffer st; uartConnectionOK := uartConnectionOK st;
          lastEchoPing := lastEchoPing st; lastEchoReceived := lastEchoReceived st;
          waitingForEcho := waitingForEcho st; lastAckReceived := lastAckReceived st;
          nextPingJitter := jitter |},
       []) in
  if waitingForEcho st1 && (u32 (now - lastEchoReceived st1) >? ECHO_TIMEOUT_MS) then
    (if uartConnectionOK st1 then set_echo false (waitingForEcho st1) st1 else st1,
     written)
  else (st1, written).

End Esp8266Bridge.

(** ** Observations on traces and the specification's own definitions *)

(** The debug line [process_led_command] logs first. *)
Definition debug_msg (line : string) : string :=
  snprintf 128 ("[ESP8266] ← Received: '" +:+ line +:+ "'" +:+ CRLF).

(** The number of physical transmit attempts in a trace. *)
Fixpoint attempts (t : trace) : nat :=
  match t with
  | [] => 0%nat
  | Transmit _ _ _ _ :: rest => S (attempts rest)
  | _ :: rest => attempts rest
  end.

(** The frames handed to UART2 in a trace. *)
Fixpoint frames (t : trace) : list string :=
  match t with
  | [] => []
  | Transmit huart2 pData _ _ :: rest => pData :: frames rest
  | _ :: rest => frames rest
  end.

(** The patterns applied in a trace. *)
Fixpoint patterns (t : trace) : list LED_Pattern_t :=
  match t with
  | [] => []
  | SetPattern p :: rest => p :: patterns rest
  | _ :: rest => patterns rest
  end.

(** A failed attempt as the specification describes it: the blocking write
    on UART2, then a suspension of 10 ms. *)
Definition failed_attempt (pData : string) (Size : Z) : trace :=
  [Transmit huart2 pData Size 100; Delay 10].

Definition failed_attempts (k : nat) (pData : string) (Size : Z) : trace :=
  concat (replicate k (failed_attempt pData Size)).

(** The first of the three allowed attempts that the HAL accepts. *)
Definition first_success (tx : nat -> HAL_StatusTypeDef) : option nat :=
  if is_HAL_OK (tx 0%nat) then Some 0%nat
  else if is_HAL_OK (tx 1%nat) then Some 1%nat
  else if is_HAL_OK (tx 2%nat) then Some 2%nat
  else None.

(** The reply table of the specification's round-trip property: the pattern
    action and the reply for a command token. *)
Definition canonical_reply (token : ascii) : option LED_Pattern_t * string :=
  if Ascii.eqb token "1" then (Some LED_PATTERN_1, "OK:Pattern1")
  else if Ascii.eqb token "2" then (Some LED_PATTERN_2, "OK:Pattern2")
  else if Ascii.eqb token "3" then (Some LED_PATTERN_3, "OK:Pattern3")
  else if Ascii.eqb token "4" then (Some LED_PATTERN_NONE, "OK:AllOFF")
  else (None, "ERROR:InvalidPattern").

(** The state after the pattern action of a command, if it has one. *)
Definition apply_pattern (pattern : option LED_Pattern_t)
    (st : Esp8266Comm.state) : Esp8266Comm.state :=
  match pattern with
  | Some p => Esp8266Comm.led_effects_set_pattern p st
  | None => st
  end.

(** What the line assembler signals: a complete line handed to the
    dispatcher, or an overflow. *)
Inductive signal := Line (text : string) | Overflow.

(** The frame sent to the peer on overflow. *)
Definition overflow_frame : string := "ERROR:BufferOverflow" +:+ CRLF.

(** The signals in a trace: a call of the dispatcher is a line, the
    overflow frame on UART2 an overflow. *)
Fixpoint signals (t : trace) : list signal :=
  match t with
  | [] => []
  | Dispatch line :: rest => Line line :: signals rest
  | Transmit huart2 pData _ _ :: rest =>
      if String.eqb pData overflow_frame then Overflow :: signals rest
      else signals rest
  | _ :: rest => signals rest
  end.

Definition is_terminator (c : ascii) : bool := Ascii.eqb c LF || Ascii.eqb c CR.

(** The input split on the terminators: the segments that a terminator
    closes, [cur] being the part of the current segment already read, and
    the characters after the last terminator. *)
Fixpoint segments_from (cur input : list ascii) : list (list ascii) :=
  match input with
  | [] => []
  | c :: rest =>
      if is_terminator c then cur :: segments_from [] rest
      else segments_from (cur ++ [c]) rest
  end.

Fixpoint pending_from (cur input : list ascii) : list ascii :=
  match input with
  | [] => cur
  | c :: rest =>
      if is_terminator c then pending_from [] rest
      else pending_from (cur ++ [c]) rest
  end.

Definition segments (input : list ascii) : list (list ascii) := segments_from [] input.
Definition pending (input : list ascii) : list ascii := pending_from [] input.

(** The last [k] characters of a segment. *)
Definition last_chars (k : nat) (seg : list ascii) : list ascii :=
  drop (length seg - k) seg.

(** What a closed segment of [n] characters produces: an overflow at each
    64th character, then the remaining [n mod 64] characters as a line. *)
Definition segment_signals (seg : list ascii) : list signal :=
  let n := length seg in
  replicate (n / 64)%nat Overflow ++
  (if (n mod 64 =? 0)%nat then []
   else [Line (c_str (last_chars (n mod 64) seg))]).

(** The line buffer while a segment is read, [pre] being the characters of
    the segment so far. *)
Definition assembling (pre : list ascii) (st : Esp8266Comm.state) : Prop :=
  length (Esp8266Comm.rx_buffer st) = 64%nat /\
  Esp8266Comm.rx_index st = Z.of_nat (length pre mod 64) /\
  take (length pre mod 64) (Esp8266Comm.rx_buffer st) =
    last_chars (length pre mod 64) pre.

(** The three diagnostics of the task loop that the specification makes
    one-shot or edge-triggered, recognised by their log lines. *)
Inductive notice := LinkDown | LinkUp | HighWater.

Definition down_msg : string := "[ESP8266] ✗ ALERT: No STM32_PONG response!" +:+ CRLF.
Definition up_msg : string := "[ESP8266] ✓ UART connection restored!" +:+ CRLF.
Definition warning_msg : string :=
  "[ESP8266] WARNING: Stream buffer filling up, ESP8266 sending too fast!" +:+ CRLF.

Definition notice_of (e : event) : option notice :=
  match e with
  | PrintMessage m =>
      if String.eqb m down_msg then Some LinkDown
      else if String.eqb m up_msg then Some LinkUp
      else if String.eqb m warning_msg then Some HighWater
      else None
  | _ => None
  end.

Definition notices (t : trace) : list notice := omap notice_of t.

(** The logged transitions of the link-health flag, each as the value the
    flag takes: [false] for a down-transition, [true] for a recovery. *)
Definition link_log (t : trace) : list bool :=
  omap (fun n => match n with
                 | LinkDown => Some false
                 | LinkUp => Some true
                 | HighWater => None
                 end) (notices t).

(** The number of high-water warnings in a trace. *)
Definition warnings (t : trace) : nat :=
  length (omap (fun n => match n with HighWater => Some tt | _ => None end)
               (notices t)).

(** A log of transitions of a flag that starts at [flag]: every entry is a
    change of value. *)
Fixpoint edges (flag : bool) (log : list bool) : bool :=
  match log with
  | [] => true
  | v :: rest => Bool.eqb v (negb flag) && edges v rest
  end.

(** The probe of this node is found timed out in a turn of the task loop:
    after the ping block, a response is awaited and 1000 ms or more have
    passed since the probe. *)
Definition probe_timed_out (env : Esp8266Comm.iteration_env)
    (st : Esp8266Comm.state) : bool :=
  let st1 := fst (Esp8266Comm.ping_block (Esp8266Comm.ping_status env)
                    (Esp8266Comm.now env) st) in
  Esp8266Comm.waiting_for_pong st1 &&
  (u32 (Esp8266Comm.now env - Esp8266Comm.last_ping_sent st1) >=? 1000).

(** The dispatcher takes the line for the response to this node's probe. *)
Definition is_probe_response (line : string) : bool :=
  negb (strncmp line "PING" 4 =? 0) && (strncmp line "STM32_PONG" 10 =? 0).

(** The character [c] is a terminator that completes a probe response in
    the line buffer. *)
Definition completes_response (c : ascii) (st : Esp8266Comm.state) : bool :=
  is_terminator c && (Esp8266Comm.rx_index st >? 0) &&
  is_probe_response
    (c_str (<[Z.to_nat (Esp8266Comm.rx_index st) := NUL]> (Esp8266Comm.rx_buffer st))).

(** A turn of the task loop receives the terminator that completes a probe
    response. *)
Definition response_received (env : Esp8266Comm.iteration_env)
    (st : Esp8266Comm.state) : bool :=
  match Esp8266Comm.received env with
  | None => false
  | Some (c, _) => completes_response c st
  end.

(** A turn of the task loop reads a byte and finds more than 64 bytes still
    in the stream buffer. *)
Definition crosses_high_water (env : Esp8266Comm.iteration_env) : bool :=
  match Esp8266Comm.received env with
  | None => false
  | Some (_, bytes_available) => bytes_available >? 64
  end.

(** Two states with the same line buffer. *)
Definition same_rx (st st' : Esp8266Comm.state) : Prop :=
  Esp8266Comm.rx_buffer st' = Esp8266Comm.rx_buffer st /\
  Esp8266Comm.rx_index st' = Esp8266Comm.rx_index st.

(** The watchdog checking every [P] ticks, first at tick [c0]: the ticks of
    its first [k] checks, as the 32-bit tick counter shows them. *)
Definition checks_from (c0 P : Z) (k : nat) : list Z :=
  map (fun i => u32 (c0 + Z.of_nat i * P)) (seq 0 k).

(** The number of checks that pass without alert when the first check
    comes [d] ms after the last feed of a task with timeout [T]. *)
Definition quiet_checks (T P d : Z) : Z :=
  if d >? T then 0 else (T - d) / P + 1.

(** The number of alerts that successive checks raise for one slot whose
    task does not feed, the entry going through the body of the watchdog
    task's loop at each check. *)
Fixpoint slot_alerts (callback : option Z) (id : Z) (nows : list Z)
    (e : Watchdog.watchdog_entry_t) : list nat :=
  match nows with
  | [] => []
  | now :: rest =>
      length (snd (Watchdog.check_entry callback now id e)) ::
      slot_alerts callback id rest (fst (Watchdog.check_entry callback now id e))
  end.

(** The number of alerts in one turn of the watchdog task. *)
Fixpoint alerts (t : trace) : nat :=
  match t with
  | [] => 0%nat
  | PrintMessage _ :: rest => S (alerts rest)
  | Callback _ _ _ :: rest => S (alerts rest)
  | _ :: rest => alerts rest
  end.

(** The states the watchdog module can be in. *)
Inductive reachable : Watchdog.state -> Prop :=
| reach_init : reachable (fst Watchdog.watchdog_init)
| reach_register name timeout now st :
    reachable st ->
    reachable (snd (fst (Watchdog.watchdog_register name timeout now st)))
| reach_feed id now st :
    reachable st -> reachable (Watchdog.watchdog_feed id now st)
| reach_callback callback st :
    reachable st -> reachable (Watchdog.watchdog_set_callback callback st)
| reach_check now st :
    reachable st -> reachable (fst (Watchdog.watchdog_task_iteration now st)).

(** The table has its three cells and the counter counts the registered
    ones. *)
Definition table_ok (st : Watchdog.state) : Prop :=
  length (Watchdog.watchdog_tasks st) = 3%nat /\
  Watchdog.num_registered st =
    Z.of_nat (length (filter (fun e => Watchdog.registered e = true)
                             (Watchdog.watchdog_tasks st))).

(** All the cells of the table are in use. *)
Definition table_full (st : Watchdog.state) : bool :=
  forallb Watchdog.registered (Watchdog.watchdog_tasks st).

(** The timeout a call passes to a suspending primitive is finite: below
    the HAL's or the kernel's "wait for ever" value. The other events are
    calls of functions of the core ([print_message], [watchdog_feed],
    [process_led_command]), whose own primitives appear in their own
    traces, or of collaborators that do not suspend. *)
Definition finite_timeout (e : event) : bool :=
  match e with
  | Transmit _ _ _ timeout => timeout <? HAL_MAX_DELAY
  | Delay t | DelayUntil t | StreamReceive _ t | QueueSend _ t | QueueReceive t =>
      t <? portMAX_DELAY
  | _ => true
  end.

Definition finite_timeouts (t : trace) : bool := forallb finite_timeout t.

(** ** Observations for the rest of the code *)

(** The line buffer is within its bounds. *)
Definition rx_ok (st : Esp8266Comm.state) : Prop :=
  length (Esp8266Comm.rx_buffer st) = 64%nat /\
  0 <= Esp8266Comm.rx_index st <= 63.

(** The jitter drawn for the next probe is below [STM32_PING_JITTER_MS]. *)
Definition jitter_ok (st : Esp8266Comm.state) : Prop :=
  0 <= Esp8266Comm.next_ping_jitter st < 2000.

(** The bytes that the turns of the task loop read, in order. *)
Fixpoint received_bytes (envs : list Esp8266Comm.iteration_env) : list ascii :=
  match envs with
  | [] => []
  | env :: rest =>
      match Esp8266Comm.received env with
      | Some (c, _) => c :: received_bytes rest
      | None => received_bytes rest
      end
  end.

(** The text of the debug line of the dispatcher, not cut. *)
Definition debug_text (line : string) : string :=
  "[ESP8266] ← Received: '" +:+ line +:+ "'" +:+ CRLF.

(** A line as the dispatcher can receive it from the assembler: at most 63
    characters, none of them NUL, CR or LF; and its debug line is whole. *)
Definition well_formed_signal (s : signal) : Prop :=
  match s with
  | Line line =>
      (String.length line <= 63)%nat /\
      Forall (fun c => c <> NUL /\ is_terminator c = false)
             (list_ascii_of_string line) /\
      debug_msg line = debug_text line
  | Overflow => True
  end.

(** The calls of [watchdog_feed] and of [xStreamBufferReceive] in a trace. *)
Fixpoint feeds (t : trace) : list Z :=
  match t with
  | [] => []
  | Feed id :: rest => id :: feeds rest
  | _ :: rest => feeds rest
  end.

Fixpoint reads (t : trace) : list (Z * Z) :=
  match t with
  | [] => []
  | StreamReceive n ticks :: rest => (n, ticks) :: reads rest
  | _ :: rest => reads rest
  end.

(** The longest time a call can keep the task suspended, in ticks: the
    timeout it passes, or the timeout of the queue send inside
    [print_message]. *)
Definition suspension (e : event) : Z :=
  match e with
  | Transmit _ _ _ timeout => timeout
  | Delay t | DelayUntil t | StreamReceive _ t | QueueSend _ t | QueueReceive t => t
  | PrintMessage _ => pdMS_TO_TICKS PrintTask.PRINT_ENQUEUE_TIMEOUT_MS
  | _ => 0
  end.

Fixpoint total_suspension (t : trace) : Z :=
  match t with
  | [] => 0
  | e :: rest => suspension e + total_suspension rest
  end.

(** A piece of a turn that neither feeds the watchdog nor reads the stream
    buffer, and whose calls can suspend the task for [bound] ticks at most. *)
Definition quiet_within (bound : Z) (t : trace) : Prop :=
  feeds t = [] /\ reads t = [] /\ 0 <= total_suspension t <= bound.

(** Two states with the same probe schedule: the time of the last probe,
    the seed and the jitter drawn for the next one. *)
Definition same_ping (st st' : Esp8266Comm.state) : Prop :=
  Esp8266Comm.last_ping_sent st' = Esp8266Comm.last_ping_sent st /\
  Esp8266Comm.ping_random_seed st' = Esp8266Comm.ping_random_seed st /\
  Esp8266Comm.next_ping_jitter st' = Esp8266Comm.next_ping_jitter st.

(** The text of this node's probe. *)
Definition probe_frame : string := "STM32_PING" +:+ CRLF.

(** The texts handed to UART3, with the sizes passed, in a trace. *)
Fixpoint printed (t : trace) : list (string * Z) :=
  match t with
  | [] => []
  | Transmit huart3 pData Size _ :: rest => (pData, Size) :: printed rest
  | _ :: rest => printed rest
  end.

(** The waits for a message in a trace. *)
Fixpoint receives (t : trace) : list Z :=
  match t with
  | [] => []
  | QueueReceive ticks :: rest => ticks :: receives rest
  | _ :: rest => receives rest
  end.

(** The text that a post asks to log: the message up to its 255th
    character, or the one character. *)
Definition posted_text (e : PrintTask.logging_event) : string :=
  match e with
  | PrintTask.Message_posted message => c_str (take 255 (list_ascii_of_string message))
  | PrintTask.Char_posted c _ => c_str [c]
  | PrintTask.Print_turn => EmptyString
  end.

(** The texts of the posts that were accepted, in the order of the posts. *)
Fixpoint accepted (events : list PrintTask.logging_event) (results : list Z)
  : list string :=
  match events with
  | [] => []
  | PrintTask.Print_turn :: rest => accepted rest results
  | e :: rest =>
      match results with
      | [] => []
      | result :: results' =>
          (if result =? pdPASS then [posted_text e] else []) ++ accepted rest results'
      end
  end.

(** The number of turns of the print task among the events. *)
Fixpoint print_turns (events : list PrintTask.logging_event) : nat :=
  match events with
  | [] => 0%nat
  | PrintTask.Print_turn :: rest => S (print_turns rest)
  | _ :: rest => print_turns rest
  end.

(** The slots of the watchdog table are handed out in the order 0, 1, 2:
    the registered ones are those below the counter. *)
Definition handed_out_in_order (st : Watchdog.state) : Prop :=
  map Watchdog.registered (Watchdog.watchdog_tasks st) =
    map (fun i => Z.of_nat i <? Watchdog.num_registered st) (seq 0 3) /\
  0 <= Watchdog.num_registered st <= 3.

(** [id] is the id of a registered slot. *)
Definition is_registered (id : Z) (st : Watchdog.state) : bool :=
  (id <? Watchdog.WATCHDOG_MAX_TASKS) &&
  from_option Watchdog.registered false (Watchdog.watchdog_tasks st !! Z.to_nat id).



(** The level at which a pattern leaves the two LEDs when it is set, and
    the periods of the two timers, in ms, for the patterns that blink. *)
Definition steady_level (pattern : LED_Pattern_t) : LedEffects.GPIO_PinState :=
  match pattern with
  | LED_PATTERN_1 => LedEffects.GPIO_PIN_SET
  | _ => LedEffects.GPIO_PIN_RESET
  end.

Definition blink_periods (pattern : LED_Pattern_t) : option (Z * Z) :=
  match pattern with
  | LED_PATTERN_2 => Some (100, 1000)
  | LED_PATTERN_3 => Some (100, 100)
  | _ => None
  end.

(** The timer is there and, for a blinking pattern, runs with the given
    period; for a steady pattern, is stopped. *)
Definition timer_as (blink : option Z) (t : option LedEffects.timer) : Prop :=
  match t, blink with
  | Some t, Some ms => t = {| LedEffects.period := ms; LedEffects.active := true |}
  | Some t, None => LedEffects.active t = false
  | None, _ => False
  end.



(** What is handed to UART2 in a trace: the text and the size passed. *)
Fixpoint sent (t : trace) : list (string * Z) :=
  match t with
  | [] => []
  | Transmit huart2 pData Size _ :: rest => (pData, Size) :: sent rest
  | _ :: rest => sent rest
  end.

(** The frames of the protocol that this node sends. *)
Definition protocol_frames : list string :=
  map (fun body => body +:+ CRLF)
      ["PONG"; "STM32_PING"; "OK:Pattern1"; "OK:Pattern2"; "OK:Pattern3";
       "OK:AllOFF"; "ERROR:InvalidPattern"; "ERROR:BufferOverflow"]%string.

(** A write to UART2 that is a frame of the protocol, sent whole. *)
Definition whole_frame (w : string * Z) : Prop :=
  In (fst w) protocol_frames /\ snd w = strlen (fst w).

(** The statics of the communication task, the line buffer apart. *)
Definition forget_rx (st : Esp8266Comm.state) : Esp8266Comm.state :=
  Esp8266Comm.set_rx [] 0 st.

(** The bytes on the wire for the texts written to a serial port. *)
Definition wire (written : list string) : list ascii :=
  concat (map list_ascii_of_string written).

(** A character of a line: neither NUL nor a terminator. *)
Definition line_char (c : ascii) : Prop := c <> NUL /\ is_terminator c = false.

(** The pattern and the acknowledgement that belong to the parameter of a
    pattern request, if the parameter is one of the four that exist. *)
Definition request_reply (arg : string) : option (LED_Pattern_t * string) :=
  if String.eqb arg "1" then Some (LED_PATTERN_1, "OK:Pattern1"%string)
  else if String.eqb arg "2" then Some (LED_PATTERN_2, "OK:Pattern2"%string)
  else if String.eqb arg "3" then Some (LED_PATTERN_3, "OK:Pattern3"%string)
  else if String.eqb arg "4" then Some (LED_PATTERN_NONE, "OK:AllOFF"%string)
  else None.

(** How often a timer is among those that expire. *)
Fixpoint expiries (first : bool) (expired : list bool) : nat :=
  match expired with
  | [] => 0%nat
  | which :: rest =>
      ((if Bool.eqb which first then 1 else 0) + expiries first rest)%nat
  end.

(** The level of a LED that started at [level] after [k] toggles. *)
Definition toggled (k : nat) (level : LedEffects.GPIO_PinState) : LedEffects.GPIO_PinState :=
  if Nat.odd k then LedEffects.toggle level else level.

(** ** The reliable transmitter and the command dispatcher *)

Section Dispatcher.

Import Esp8266Comm.

Lemma transmit_with_retry_spec tx pData Size :
  transmit_with_retry tx pData Size =
  match first_success tx with
  | Some k =>
      (HAL_OK, failed_attempts k pData Size ++ [Transmit huart2 pData Size 100])
  | None => (tx 2%nat, failed_attempts 3 pData Size)
  end.
Proof.
  unfold transmit_with_retry, first_success; simpl.
  destruct (tx 0%nat) eqn:E0; simpl; try reflexivity;
    destruct (tx 1%nat) eqn:E1; simpl; try reflexivity;
    destruct (tx 2%nat) eqn:E2; simpl; reflexivity.
Qed.

Lemma attempts_failed k pData Size t :
  attempts (failed_attempts k pData Size ++ t) = (k + attempts t)%nat.
Proof.
  induction k as [|k IH]; [reflexivity|].
  unfold failed_attempts, attempts in *; simpl. now rewrite IH.
Qed.

Lemma transmit_with_retry_attempts tx pData Size :
  (1 <= attempts (snd (transmit_with_retry tx pData Size)) <= 3)%nat.
Proof.
  rewrite transmit_with_retry_spec.
  destruct (first_success tx) as [k|] eqn:E; simpl.
  - rewrite attempts_failed. unfold first_success in E.
    repeat match type of E with
           | (if ?b then _ else _) = _ => destruct b
           end; inversion E; subst; cbv; lia.
  - cbv; lia.
Qed.

Lemma first_success_None_status tx :
  first_success tx = None -> is_HAL_OK (tx 2%nat) = false.
Proof.
  unfold first_success.
  destruct (is_HAL_OK (tx 0%nat)), (is_HAL_OK (tx 1%nat)), (is_HAL_OK (tx 2%nat));
    congruence.
Qed.

(** The status the retry loop ends with is [HAL_OK] exactly when one of
    the three attempts succeeded. *)
Lemma transmit_with_retry_status tx pData Size :
  is_HAL_OK (fst (transmit_with_retry tx pData Size)) =
  match first_success tx with Some _ => true | None => false end.
Proof.
  rewrite transmit_with_retry_spec.
  destruct (first_success tx) eqn:E; simpl; [reflexivity|].
  now apply first_success_None_status.
Qed.

(** A line that starts with [PING] is answered with [PONG] through the
    retry loop, and the outcome is logged. *)
Lemma process_PING env rest st :
  process_led_command env ("PING" +:+ rest) st =
  (st,
   PrintMessage (debug_msg ("PING" +:+ rest)) ::
   snd (transmit_with_retry (tx_status env) ("PONG" +:+ CRLF) 6) ++
   [PrintMessage (match first_success (tx_status env) with
           | Some _ => "[ESP8266] ← PING received, sent PONG" +:+ CRLF
           | None => "[ESP8266] ERROR: Failed to send PONG" +:+ CRLF
           end)]).
Proof.
  unfold process_led_command.
  change (strncmp ("PING" +:+ rest) "PING" 4 =? 0) with true. cbv iota.
  pose proof (transmit_with_retry_status (tx_status env) ("PONG" +:+ CRLF) 6) as Hs.
  destruct (transmit_with_retry (tx_status env) ("PONG" +:+ CRLF) 6) as [status t].
  simpl in Hs. rewrite Hs. simpl.
  destruct (first_success (tx_status env)); reflexivity.
Qed.

(** A line that starts with [LED_CMD:] goes through the switch on its
    ninth character. *)
Lemma process_LED_CMD env rest st :
  process_led_command env ("LED_CMD:" +:+ rest) st =
  let '(pattern, ack_msg, log_msg) := led_command_switch (char_at rest 0) in
  (apply_pattern pattern st,
   PrintMessage (debug_msg ("LED_CMD:" +:+ rest)) ::
   match pattern with Some p => [SetPattern p] | None => [] end ++
   snd (transmit_with_retry (tx_status env) ack_msg (strlen ack_msg)) ++
   match first_success (tx_status env) with
   | Some _ => []
   | None => [PrintMessage ("[LED] ERROR: Failed to send ACK to ESP8266" +:+ CRLF)]
   end ++
   [PrintMessage log_msg]).
Proof.
  unfold process_led_command.
  change (strncmp ("LED_CMD:" +:+ rest) "PING" 4 =? 0) with false.
  change (strncmp ("LED_CMD:" +:+ rest) "STM32_PONG" 10 =? 0) with false.
  change (strncmp ("LED_CMD:" +:+ rest) "LED_CMD:" 8 =? 0) with true.
  change (char_at ("LED_CMD:" +:+ rest) 8) with (char_at rest 0).
  cbv iota.
  destruct (led_command_switch (char_at rest 0)) as [[pattern ack_msg] log_msg].
  pose proof (transmit_with_retry_status (tx_status env) ack_msg (strlen ack_msg)) as Hs.
  destruct (transmit_with_retry (tx_status env) ack_msg (strlen ack_msg)) as [status t].
  simpl in Hs. rewrite Hs.
  destruct pattern, (first_success (tx_status env)); reflexivity.
Qed.

(** The switch of the code against the reply table of the specification. *)
Lemma led_command_switch_canonical token :
  exists log_msg,
    led_command_switch token =
    (fst (canonical_reply token), snd (canonical_reply token) +:+ CRLF, log_msg).
Proof.
  unfold led_command_switch, canonical_reply.
  destruct (Ascii.eqb token "1"); [eexists; reflexivity|].
  destruct (Ascii.eqb token "2"); [eexists; reflexivity|].
  destruct (Ascii.eqb token "3"); [eexists; reflexivity|].
  destruct (Ascii.eqb token "4"); eexists; reflexivity.
Qed.

(** A line that starts with [STM32_PONG]. *)
Lemma process_STM32_PONG env rest st :
  process_led_command env ("STM32_PONG" +:+ rest) st =
  (set_link (last_ping_sent st) (tick_count env) false true st,
   PrintMessage (debug_msg ("STM32_PONG" +:+ rest)) ::
   (if uart_connection_ok st then []
    else [PrintMessage ("[ESP8266] ✓ UART connection restored!" +:+ CRLF)]) ++
   [PrintMessage ("[ESP8266] ← STM32_PONG received" +:+ CRLF)]).
Proof.
  unfold process_led_command.
  change (strncmp ("STM32_PONG" +:+ rest) "PING" 4 =? 0) with false.
  change (strncmp ("STM32_PONG" +:+ rest) "STM32_PONG" 10 =? 0) with true.
  cbv iota. destruct (uart_connection_ok st); reflexivity.
Qed.

(** A line that starts with [PONG] matches no branch. *)
Lemma process_PONG env rest st :
  process_led_command env ("PONG" +:+ rest) st =
  (st, [PrintMessage (debug_msg ("PONG" +:+ rest))]).
Proof.
  unfold process_led_command.
  change (strncmp ("PONG" +:+ rest) "PING" 4 =? 0) with false.
  change (strncmp ("PONG" +:+ rest) "STM32_PONG" 10 =? 0) with false.
  change (strncmp ("PONG" +:+ rest) "LED_CMD:" 8 =? 0) with false.
  reflexivity.
Qed.

Lemma frames_app t1 t2 : frames (t1 ++ t2) = frames t1 ++ frames t2.
Proof.
  induction t1 as [|e t1 IH]; [reflexivity|].
  destruct e as [[] | | | | | | | | | |]; simpl; now rewrite ?IH.
Qed.

Lemma patterns_app t1 t2 : patterns (t1 ++ t2) = patterns t1 ++ patterns t2.
Proof.
  induction t1 as [|e t1 IH]; [reflexivity|].
  destruct e; simpl; now rewrite ?IH.
Qed.


(** The retry loop hands the same frame to UART2 one to three times and
    applies no pattern. *)
Lemma transmit_with_retry_frames tx pData Size :
  exists n, (1 <= n <= 3)%nat /\
    frames (snd (transmit_with_retry tx pData Size)) = replicate n pData /\
    patterns (snd (transmit_with_retry tx pData Size)) = [].
Proof.
  rewrite transmit_with_retry_spec. unfold first_success.
  destruct (is_HAL_OK (tx 0%nat)); [exists 1%nat; repeat split; lia|].
  destruct (is_HAL_OK (tx 1%nat)); [exists 2%nat; repeat split; lia|].
  destruct (is_HAL_OK (tx 2%nat)); exists 3%nat; repeat split; lia.
Qed.

(** C2. For every line [LED_CMD:<token>...] and whatever the transmit
    statuses, with the pattern and the reply that the specification's
    table gives for the token (1: pattern 1 and OK:Pattern1, 2: pattern 2
    and OK:Pattern2, 3: pattern 3 and OK:Pattern3, 4: all off and
    OK:AllOFF, any other character: no pattern and ERROR:InvalidPattern):
    the dispatcher leaves the state with exactly that pattern applied (the
    state unchanged when there is none), applies no other pattern, and
    every frame it hands to UART2, one at least, is that reply followed
    by CR LF. *)
Theorem C2_led_command_reply :
  forall (env : dispatch_env) (token : ascii) (rest : string) (st : state),
    let line := "LED_CMD:" +:+ String token rest in
    let pattern := fst (canonical_reply token) in
    let reply := snd (canonical_reply token) +:+ CRLF in
    let result := process_led_command env line st in
    fst result = apply_pattern pattern st /\
    patterns (snd result) =
      match pattern with Some p => [p] | None => [] end /\
    exists n, (1 <= n <= 3)%nat /\ frames (snd result) = replicate n reply.
Proof.
  intros env token rest st line pattern reply result.
  subst result line. rewrite process_LED_CMD.
  change (char_at (String token rest) 0) with token.
  destruct (led_command_switch_canonical token) as [log_msg ->].
  fold pattern reply. cbn [fst snd].
  destruct (transmit_with_retry_frames (tx_status env) reply (strlen reply))
    as (n & Hn & Hf & Hp).
  split; [reflexivity|]. split.
  - change (PrintMessage ?m :: ?t) with ([PrintMessage m] ++ t).
    rewrite !patterns_app, Hp.
    destruct pattern, (first_success (tx_status env)); reflexivity.
  - exists n. split; [exact Hn|].
    change (PrintMessage ?m :: ?t) with ([PrintMessage m] ++ t).
    rewrite !frames_app, Hf.
    destruct pattern, (first_success (tx_status env)); simpl;
      now rewrite app_nil_r.
Qed.

(** A command line without a token: the character read is the terminator,
    and the reply is the error reply. *)
Lemma led_command_missing_token env st :
  fst (process_led_command env "LED_CMD:" st) = st /\
  exists n, (1 <= n <= 3)%nat /\
    frames (snd (process_led_command env "LED_CMD:" st)) =
    replicate n ("ERROR:InvalidPattern" +:+ CRLF).
Proof.
  change "LED_CMD:"%string with ("LED_CMD:" +:+ "")%string.
  rewrite process_LED_CMD.
  change (led_command_switch (char_at "" 0)) with
    (@None LED_Pattern_t, "ERROR:InvalidPattern" +:+ CRLF,
     "[LED] ERROR: Invalid pattern command" +:+ CRLF).
  cbv beta iota.
  destruct (transmit_with_retry_frames (tx_status env)
              ("ERROR:InvalidPattern" +:+ CRLF)
              (strlen ("ERROR:InvalidPattern" +:+ CRLF))) as (n & Hn & Hf & _).
  split; [reflexivity|]. exists n. split; [exact Hn|].
  cbn [fst snd app].
  change (PrintMessage ?m :: ?t) with ([PrintMessage m] ++ t).
  rewrite !frames_app, Hf.
  destruct (first_success (tx_status env)); simpl; now rewrite app_nil_r.
Qed.

(** The table at the four canonical tokens and at another character. *)
Example canonical_replies :
  map canonical_reply ["1"; "2"; "3"; "4"; "7"]%char =
  [(Some LED_PATTERN_1, "OK:Pattern1"); (Some LED_PATTERN_2, "OK:Pattern2");
   (Some LED_PATTERN_3, "OK:Pattern3"); (Some LED_PATTERN_NONE, "OK:AllOFF");
   (None, "ERROR:InvalidPattern")]%string.
Proof. reflexivity. Qed.

(** Scenario A: [LED_CMD:2], the first transmit attempt succeeding. *)
Example scenario_A :
  process_led_command {| tx_status := fun _ => HAL_OK; tick_count := 0 |}
    "LED_CMD:2" initial_state =
  (led_effects_set_pattern LED_PATTERN_2 initial_state,
   [PrintMessage (debug_msg "LED_CMD:2");
    SetPattern LED_PATTERN_2;
    Transmit huart2 ("OK:Pattern2" +:+ CRLF) 13 100;
    PrintMessage ("[LED] Pattern 2: Different Frequency Blink" +:+ CRLF)]).
Proof. reflexivity. Qed.

(** C3. The retry loop, for every frame and whatever the HAL answers: it
    makes the attempts up to and including the first one that returns
    HAL_OK and none after it, three at most; each failed attempt is
    followed by a delay of 10 ticks (10 ms); its final status is HAL_OK
    exactly when one of the three attempts succeeded. When all three fail,
    the PONG reply path logs "ERROR: Failed to send PONG", the
    acknowledgement path logs "ERROR: Failed to send ACK to ESP8266", and
    both return to the task loop, the reply path with the state
    untouched. *)
Theorem C3_bounded_retry :
  forall (tx : nat -> HAL_StatusTypeDef) (pData : string) (Size : Z)
         (tick : Z) (rest : string) (st : state),
    let env := {| tx_status := tx; tick_count := tick |} in
    transmit_with_retry tx pData Size =
      match first_success tx with
      | Some k =>
          (HAL_OK,
           failed_attempts k pData Size ++ [Transmit huart2 pData Size 100])
      | None => (tx 2%nat, failed_attempts 3 pData Size)
      end
    /\ (1 <= attempts (snd (transmit_with_retry tx pData Size)) <= 3)%nat
    /\ is_HAL_OK (fst (transmit_with_retry tx pData Size)) =
         match first_success tx with Some _ => true | None => false end
    /\ failed_attempt pData Size =
         [Transmit huart2 pData Size 100; Delay (pdMS_TO_TICKS 10)]
    /\ process_led_command env ("PING" +:+ rest) st =
         (st,
          PrintMessage (debug_msg ("PING" +:+ rest)) ::
          snd (transmit_with_retry tx ("PONG" +:+ CRLF) 6) ++
          [PrintMessage (match first_success tx with
                  | Some _ => "[ESP8266] ← PING received, sent PONG" +:+ CRLF
                  | None => "[ESP8266] ERROR: Failed to send PONG" +:+ CRLF
                  end)])
    /\ exists st' applied ack_msg log_msg,
         process_led_command env ("LED_CMD:" +:+ rest) st =
         (st',
          PrintMessage (debug_msg ("LED_CMD:" +:+ rest)) :: applied ++
          snd (transmit_with_retry tx ack_msg (strlen ack_msg)) ++
          match first_success tx with
          | Some _ => []
          | None => [PrintMessage ("[LED] ERROR: Failed to send ACK to ESP8266" +:+ CRLF)]
          end ++ [PrintMessage log_msg])
         /\ attempts applied = 0%nat.
Proof.
  intros tx pData Size tick rest st env.
  split; [apply transmit_with_retry_spec|].
  split; [apply transmit_with_retry_attempts|].
  split; [apply transmit_with_retry_status|].
  split; [reflexivity|].
  split; [apply (process_PING env)|].
  rewrite (process_LED_CMD env).
  destruct (led_command_switch (char_at rest 0)) as [[pattern ack_msg] log_msg].
  exists (apply_pattern pattern st),
    (match pattern with Some p => [SetPattern p] | None => [] end),
    ack_msg, log_msg.
  split; [reflexivity|]. now destruct pattern.
Qed.

(** Scenario B: three failed attempts for a PONG reply. *)
Example scenario_B :
  process_led_command {| tx_status := fun _ => HAL_BUSY; tick_count := 0 |}
    "PING" initial_state =
  (initial_state,
   [PrintMessage (debug_msg "PING");
    Transmit huart2 ("PONG" +:+ CRLF) 6 100; Delay 10;
    Transmit huart2 ("PONG" +:+ CRLF) 6 100; Delay 10;
    Transmit huart2 ("PONG" +:+ CRLF) 6 100; Delay 10;
    PrintMessage ("[ESP8266] ERROR: Failed to send PONG" +:+ CRLF)]).
Proof. reflexivity. Qed.

(** C7, as stated, fails: with the link marked down and a probe
    outstanding, a received line [PONG] changes nothing. *)
Lemma C7_PONG_line_is_ignored :
  let st := set_link 0 0 true false initial_state in
  let result :=
    process_led_command {| tx_status := fun _ => HAL_OK; tick_count := 7 |}
      "PONG" st in
  waiting_for_pong (fst result) = true /\
  uart_connection_ok (fst result) = false /\
  fst result = st.
Proof. repeat split. Qed.

(** C7, amended. A received line with prefix [STM32_PONG], the reply to
    this node's own [STM32_PING] probe, makes the dispatcher clear
    [waiting_for_pong] and mark the link healthy, and hand no frame to
    UART2; a line with prefix [PONG] is only logged. *)
Theorem C7_STM32_PONG_clears_waiting :
  forall (env : dispatch_env) (rest : string) (st : state),
    let result := process_led_command env ("STM32_PONG" +:+ rest) st in
    waiting_for_pong (fst result) = false /\
    uart_connection_ok (fst result) = true /\
    fst result = set_link (last_ping_sent st) (tick_count env) false true st /\
    frames (snd result) = [] /\ attempts (snd result) = 0%nat /\
    process_led_command env ("PONG" +:+ rest) st =
      (st, [PrintMessage (debug_msg ("PONG" +:+ rest))]).
Proof.
  intros env rest st result. subst result.
  rewrite process_STM32_PONG, process_PONG.
  destruct (uart_connection_ok st); repeat split.
Qed.

End Dispatcher.

(** ** The line assembler *)

Section LineAssembler.

Import Esp8266Comm.

Lemma signals_app t1 t2 : signals (t1 ++ t2) = signals t1 ++ signals t2.
Proof.
  induction t1 as [|e t1 IH]; [reflexivity|].
  destruct e as [[] pData ? ? | | | | | | | | | |]; simpl; rewrite ?IH;
    try reflexivity.
  now destruct (String.eqb pData overflow_frame).
Qed.

Lemma signals_transmit_with_retry tx pData Size :
  String.eqb pData overflow_frame = false ->
  signals (snd (transmit_with_retry tx pData Size)) = [].
Proof.
  intros H. rewrite transmit_with_retry_spec. unfold first_success.
  destruct (is_HAL_OK (tx 0%nat)); [simpl; now rewrite H|].
  destruct (is_HAL_OK (tx 1%nat)); [simpl; now rewrite H|].
  destruct (is_HAL_OK (tx 2%nat)); simpl; now rewrite H.
Qed.

Lemma led_command_switch_ack cmd :
  String.eqb (snd (fst (led_command_switch cmd))) overflow_frame = false.
Proof.
  unfold led_command_switch.
  repeat match goal with
         | |- context [if Ascii.eqb cmd ?c then _ else _] =>
             destruct (Ascii.eqb cmd c)
         end; reflexivity.
Qed.

(** The dispatcher neither signals nor touches the line buffer. *)
Lemma process_led_command_quiet env line st :
  signals (snd (process_led_command env line st)) = [] /\
  rx_buffer (fst (process_led_command env line st)) = rx_buffer st /\
  rx_index (fst (process_led_command env line st)) = rx_index st.
Proof.
  unfold process_led_command.
  destruct (strncmp line "PING" 4 =? 0).
  { pose proof (signals_transmit_with_retry (tx_status env) ("PONG" +:+ CRLF) 6
                  eq_refl) as H.
    destruct (transmit_with_retry (tx_status env) ("PONG" +:+ CRLF) 6) as [s t].
    simpl in *. now rewrite signals_app, H. }
  destruct (strncmp line "STM32_PONG" 10 =? 0).
  { destruct (uart_connection_ok st); repeat split. }
  destruct (strncmp line "LED_CMD:" 8 =? 0); [|repeat split].
  pose proof (led_command_switch_ack (char_at line 8)) as Hack.
  destruct (led_command_switch (char_at line 8)) as [[pattern ack_msg] log_msg].
  simpl in Hack.
  pose proof (signals_transmit_with_retry (tx_status env) ack_msg (strlen ack_msg)
                Hack) as H.
  destruct (transmit_with_retry (tx_status env) ack_msg (strlen ack_msg)) as [s t].
  simpl in H.
  destruct pattern; simpl; rewrite !signals_app, H;
    destruct (is_HAL_OK s); repeat split.
Qed.

Lemma c_str_app_NUL (l rest : list ascii) : c_str (l ++ NUL :: rest) = c_str l.
Proof.
  induction l as [|c l IH]; [reflexivity|].
  simpl. destruct (Ascii.eqb c NUL); [reflexivity|]. now rewrite IH.
Qed.

Lemma c_str_no_NUL (l : list ascii) :
  Forall (fun c => c <> NUL) l -> c_str l = string_of_list_ascii l.
Proof.
  induction 1 as [|c l Hc _ IH]; [reflexivity|].
  simpl. destruct (Ascii.eqb_spec c NUL); [contradiction|]. now rewrite IH.
Qed.

Lemma mod64_bound (n : nat) : (n mod 64 < 64)%nat.
Proof. apply Nat.mod_upper_bound. lia. Qed.

Lemma mod64_succ (n : nat) :
  (n mod 64 < 63)%nat ->
  ((n + 1) mod 64 = n mod 64 + 1 /\ (n + 1) / 64 = n / 64)%nat.
Proof.
  intros H.
  pose proof (Nat.div_mod_eq n 64). pose proof (mod64_bound n).
  pose proof (Nat.div_mod_eq (n + 1) 64). pose proof (mod64_bound (n + 1)).
  lia.
Qed.

Lemma mod64_wrap (n : nat) :
  (n mod 64 = 63)%nat ->
  ((n + 1) mod 64 = 0 /\ (n + 1) / 64 = n / 64 + 1)%nat.
Proof.
  intros H.
  pose proof (Nat.div_mod_eq n 64).
  pose proof (Nat.div_mod_eq (n + 1) 64). pose proof (mod64_bound (n + 1)).
  lia.
Qed.

Lemma mod64_le (n : nat) : (n mod 64 <= n)%nat.
Proof. apply Nat.Div0.mod_le. Qed.

(** The buffer at the start of a segment. *)
Lemma assembling_nil st :
  length (rx_buffer st) = 64%nat -> rx_index st = 0 -> assembling [] st.
Proof. intros Hl Hi. repeat split; [exact Hl | exact Hi]. Qed.

(** Storing one more character of the segment. *)
Lemma assembling_store pre c st env :
  assembling pre st -> is_terminator c = false -> (length pre mod 64 < 63)%nat ->
  snd (process_received_char env c st) = [] /\
  assembling (pre ++ [c]) (fst (process_received_char env c st)).
Proof.
  intros (Hlen & Hidx & Htake) Hc Hlt.
  unfold process_received_char. fold (is_terminator c). rewrite Hc.
  unfold UART_RX_BUFFER_SIZE.
  destruct (rx_index st >=? 64 - 1) eqn:Hge; [lia|].
  split; [reflexivity|]. cbn [fst].
  destruct (mod64_succ (length pre) Hlt) as [Hm _].
  unfold assembling, set_rx; cbn [rx_buffer rx_index].
  rewrite length_app, length_insert. change (length [c]) with 1%nat.
  rewrite Hm, Hidx, Nat2Z.id.
  split; [exact Hlen|]. split.
  - unfold u16. rewrite Z.mod_small; lia.
  - replace (length pre mod 64 + 1)%nat with (S (length pre mod 64)) by lia.
    rewrite (take_S_r _ _ c) by (apply list_lookup_insert_eq; lia).
    rewrite take_insert_ge by lia. rewrite Htake.
    unfold last_chars. rewrite length_app. change (length [c]) with 1%nat.
    pose proof (mod64_le (length pre)).
    replace (length pre + 1 - S (length pre mod 64))%nat
      with (length pre - length pre mod 64)%nat by lia.
    rewrite drop_app_le by lia. reflexivity.
Qed.

(** The 64th character of a run: everything is dropped. *)
Lemma assembling_overflow pre c st env :
  assembling pre st -> is_terminator c = false -> (length pre mod 64 = 63)%nat ->
  signals (snd (process_received_char env c st)) = [Overflow] /\
  assembling (pre ++ [c]) (fst (process_received_char env c st)).
Proof.
  intros (Hlen & Hidx & Htake) Hc Heq.
  unfold process_received_char. fold (is_terminator c). rewrite Hc.
  unfold UART_RX_BUFFER_SIZE.
  destruct (rx_index st >=? 64 - 1) eqn:Hge; [|lia].
  split; [reflexivity|]. cbn [fst].
  destruct (mod64_wrap (length pre) Heq) as [Hm _].
  unfold assembling, set_rx; cbn [rx_buffer rx_index].
  rewrite length_app. change (length [c]) with 1%nat. rewrite Hm.
  split; [exact Hlen|]. split; [reflexivity|].
  unfold last_chars. rewrite drop_ge; [reflexivity|].
  rewrite length_app. change (length [c]) with 1%nat. lia.
Qed.

(** A terminator closes the segment. *)
Lemma assembling_close pre c st env :
  assembling pre st -> is_terminator c = true ->
  signals (snd (process_received_char env c st)) =
    (if (length pre mod 64 =? 0)%nat then []
     else [Line (c_str (last_chars (length pre mod 64) pre))]) /\
  assembling [] (fst (process_received_char env c st)).
Proof.
  intros (Hlen & Hidx & Htake) Hc.
  pose proof (mod64_bound (length pre)) as Hb.
  unfold process_received_char. fold (is_terminator c). rewrite Hc.
  destruct (Nat.eqb_spec (length pre mod 64) 0) as [Hz|Hnz].
  - destruct (rx_index st >? 0) eqn:Hgt; [lia|].
    split; [reflexivity|]. apply assembling_nil; [exact Hlen|].
    cbn [fst]. now rewrite Hidx, Hz.
  - destruct (rx_index st >? 0) eqn:Hgt; [|lia].
    set (buf := <[Z.to_nat (rx_index st) := NUL]> (rx_buffer st)).
    pose proof (process_led_command_quiet env (c_str buf)
                  (set_rx buf (rx_index st) st)) as (Hq & Hbuf & _).
    destruct (process_led_command env (c_str buf) (set_rx buf (rx_index st) st))
      as [st1 t].
    simpl in Hq, Hbuf. simpl. rewrite Hq. split.
    + f_equal. f_equal. subst buf. rewrite Hidx, Nat2Z.id.
      rewrite insert_take_drop by lia. rewrite c_str_app_NUL. now rewrite Htake.
    + apply assembling_nil; simpl; [|reflexivity].
      rewrite Hbuf. subst buf. now rewrite length_insert.
Qed.

Lemma feed_chars_step c env rest st :
  feed_chars ((c, env) :: rest) st =
  (fst (feed_chars rest (fst (process_received_char env c st))),
   snd (process_received_char env c st) ++
   snd (feed_chars rest (fst (process_received_char env c st)))).
Proof.
  simpl. destruct (process_received_char env c st) as [st1 t1]. simpl.
  now destruct (feed_chars rest st1).
Qed.

(** The assembler against the split of the input, from the middle of a
    segment of which [pre] has been read. *)
Lemma feed_chars_signals (input : list (ascii * dispatch_env)) :
  forall pre st, assembling pre st ->
    replicate (length pre / 64)%nat Overflow ++
    signals (snd (feed_chars input st)) =
    concat (map segment_signals (segments_from pre (map fst input))) ++
    replicate (length (pending_from pre (map fst input)) / 64)%nat Overflow
    /\ assembling (pending_from pre (map fst input)) (fst (feed_chars input st)).
Proof.
  induction input as [|[c env] rest IH]; intros pre st Hst.
  - cbn [feed_chars map segments_from pending_from snd fst signals concat app].
    split; [now rewrite app_nil_r | exact Hst].
  - rewrite feed_chars_step. cbn [map fst snd segments_from pending_from].
    rewrite signals_app.
    destruct (is_terminator c) eqn:Hc.
    + destruct (assembling_close pre c st env Hst Hc) as [Hsig Hst'].
      destruct (IH [] _ Hst') as [IHsig IHst].
      change (replicate (length (@nil ascii) / 64)%nat Overflow)
        with (@nil signal) in IHsig.
      cbn [app] in IHsig.
      split; [|exact IHst].
      rewrite Hsig, IHsig. cbn [map concat]. unfold segment_signals at 1.
      now rewrite !app_assoc.
    + pose proof (mod64_bound (length pre)) as Hb.
      destruct (Nat.eq_dec (length pre mod 64)%nat 63%nat) as [Heq|Hne].
      * destruct (assembling_overflow pre c st env Hst Hc Heq) as [Hsig Hst'].
        destruct (IH _ _ Hst') as [IHsig IHst].
        split; [|exact IHst].
        rewrite <- IHsig, Hsig, length_app. change (length [c]) with 1%nat.
        destruct (mod64_wrap (length pre) Heq) as [_ ->].
        rewrite Nat.add_1_r, replicate_S_end. now rewrite <- !app_assoc.
      * assert (Hlt : (length pre mod 64 < 63)%nat) by lia.
        destruct (assembling_store pre c st env Hst Hc Hlt) as [Hsig Hst'].
        destruct (IH _ _ Hst') as [IHsig IHst].
        split; [|exact IHst].
        rewrite <- IHsig, Hsig, length_app. change (length [c]) with 1%nat.
        destruct (mod64_succ (length pre) Hlt) as [_ ->]. reflexivity.
Qed.

Lemma assembling_initial : assembling [] initial_state.
Proof. apply assembling_nil; reflexivity. Qed.

(** C1, as stated, fails: a segment of 65 characters reaches the capacity
    bound, signals the overflow at its 64th character, and still yields a
    line, made of its 65th character. *)
Lemma C1_line_after_overflow :
  signals (snd (feed_chars
                  (map (fun c => (c, {| tx_status := fun _ => HAL_OK;
                                        tick_count := 0 |}))
                       (replicate 65 "a"%char ++ [LF]))
                  initial_state)) =
  [Overflow; Line "a"].
Proof. vm_compute. reflexivity. Qed.

(** C1, amended. For every sequence of bytes fed one at a time to the line
    assembler from its initial state, the signals are those of the input
    split on LF and CR, segment by segment: a segment of [n] bytes closed
    by a terminator gives [n / 64] overflow signals (one at each 64th
    byte, which is dropped with the 63 bytes before it) and then, when
    [n mod 64] is not zero, exactly one line, the C string of its last
    [n mod 64] bytes; the bytes after the last terminator give their
    overflows and no line yet, and stay in the buffer. *)
Theorem C1_line_assembler :
  forall (input : list (ascii * dispatch_env)),
    let bytes := map fst input in
    signals (snd (feed_chars input initial_state)) =
      concat (map segment_signals (segments bytes)) ++
      replicate (length (pending bytes) / 64)%nat Overflow
    /\ assembling (pending bytes) (fst (feed_chars input initial_state)).
Proof.
  intros input bytes.
  destruct (feed_chars_signals input [] initial_state assembling_initial)
    as [Hsig Hst].
  split; [exact Hsig | exact Hst].
Qed.

(** The three kinds of segment that the specification distinguishes. *)

(** An empty segment (a leading terminator, or one that follows another)
    gives nothing. *)
Lemma segment_signals_empty : segment_signals [] = [].
Proof. reflexivity. Qed.

(** A non-empty segment shorter than 64 bytes gives one line and nothing
    else: its bytes up to the first NUL, so itself when it has no NUL. *)
Lemma segment_signals_short (seg : list ascii) :
  (0 < length seg < 64)%nat ->
  segment_signals seg = [Line (c_str seg)] /\
  (Forall (fun c => c <> NUL) seg ->
   segment_signals seg = [Line (string_of_list_ascii seg)]).
Proof.
  intros H. unfold segment_signals, last_chars.
  rewrite Nat.div_small, Nat.mod_small by lia.
  destruct (Nat.eqb_spec (length seg) 0); [lia|].
  rewrite Nat.sub_diag. simpl. split; [reflexivity|].
  intros Hn. now rewrite c_str_no_NUL.
Qed.

(** A segment of 64 bytes or more signals an overflow first; it gives no
    line exactly when its length is a multiple of 64. *)
Lemma segment_signals_long (seg : list ascii) :
  (64 <= length seg)%nat ->
  (exists rest, segment_signals seg = Overflow :: rest) /\
  ((length seg mod 64 = 0)%nat ->
   segment_signals seg = replicate (length seg / 64)%nat Overflow) /\
  ((length seg mod 64 <> 0)%nat ->
   exists text, segment_signals seg =
     replicate (length seg / 64)%nat Overflow ++ [Line text]).
Proof.
  intros H. unfold segment_signals.
  assert (Hq : (1 <= length seg / 64)%nat).
  { pose proof (Nat.div_mod_eq (length seg) 64).
    pose proof (mod64_bound (length seg)). lia. }
  split; [|split].
  - destruct (length seg / 64)%nat as [|q]; [lia|]. simpl. eauto.
  - intros ->. simpl. now rewrite app_nil_r.
  - intros Hne. destruct (Nat.eqb_spec (length seg mod 64) 0); [lia|]. eauto.
Qed.

End LineAssembler.

(** ** The task loop: link health and the high-water warning *)

Section TaskLoop.

Import Esp8266Comm.

Lemma notices_app t1 t2 : notices (t1 ++ t2) = notices t1 ++ notices t2.
Proof. apply omap_app. Qed.

Lemma notices_transmit_with_retry tx pData Size :
  notices (snd (transmit_with_retry tx pData Size)) = [].
Proof.
  rewrite transmit_with_retry_spec. unfold first_success.
  destruct (is_HAL_OK (tx 0%nat)); [reflexivity|].
  destruct (is_HAL_OK (tx 1%nat)); [reflexivity|].
  destruct (is_HAL_OK (tx 2%nat)); reflexivity.
Qed.

Lemma notice_of_debug_msg line : notice_of (PrintMessage (debug_msg line)) = None.
Proof. reflexivity. Qed.

Lemma notice_of_log_msg cmd :
  notice_of (PrintMessage (snd (led_command_switch cmd))) = None.
Proof.
  unfold led_command_switch.
  repeat match goal with
         | |- context [if Ascii.eqb cmd ?c then _ else _] =>
             destruct (Ascii.eqb cmd c)
         end; reflexivity.
Qed.

(** The ping block logs no diagnostic and leaves the health flag, the
    warning flag and the line buffer alone. *)
Lemma ping_block_quiet tx now st :
  notices (snd (ping_block tx now st)) = [] /\
  uart_connection_ok (fst (ping_block tx now st)) = uart_connection_ok st /\
  buffer_warning_shown (fst (ping_block tx now st)) = buffer_warning_shown st /\
  same_rx st (fst (ping_block tx now st)).
Proof.
  unfold ping_block, same_rx, get_random_jitter.
  set (st1 := if last_ping_sent st =? 0 then _ else st).
  assert (H1 : uart_connection_ok st1 = uart_connection_ok st /\
               buffer_warning_shown st1 = buffer_warning_shown st /\
               rx_buffer st1 = rx_buffer st /\ rx_index st1 = rx_index st).
  { subst st1. destruct (last_ping_sent st =? 0); repeat split. }
  destruct H1 as (H1 & H2 & H3 & H4). clearbody st1.
  destruct (u32 (now - last_ping_sent st1) >=? _); [|now repeat split].
  pose proof (notices_transmit_with_retry tx ("STM32_PING" +:+ CRLF) 12) as Hn.
  destruct (transmit_with_retry tx ("STM32_PING" +:+ CRLF) 12) as [status t].
  simpl in Hn.
  destruct (is_HAL_OK status); cbn [fst snd]; rewrite notices_app, Hn;
    now repeat split.
Qed.

(** The timeout block. *)
Lemma ping_timeout_block_spec now st :
  let fires := waiting_for_pong st &&
               (u32 (now - last_ping_sent st) >=? 1000) in
  ping_timeout_block now st =
  if fires then
    (set_link (last_ping_sent st) (last_pong_received st) false false st,
     if uart_connection_ok st
     then [PrintMessage down_msg; PrintMessage ("[ESP8266] UART connection may be broken" +:+ CRLF)]
     else [])
  else (st, []).
Proof.
  unfold ping_timeout_block.
  change (pdMS_TO_TICKS STM32_PING_TIMEOUT_MS) with 1000.
  destruct (waiting_for_pong st && _); [|reflexivity].
  destruct (uart_connection_ok st) eqn:E; [reflexivity|].
  cbn [fst snd]. now rewrite <- E.
Qed.

Lemma ping_timeout_block_notices now st :
  let fires := waiting_for_pong st &&
               (u32 (now - last_ping_sent st) >=? 1000) in
  notices (snd (ping_timeout_block now st)) =
    (if fires && uart_connection_ok st then [LinkDown] else []) /\
  uart_connection_ok (fst (ping_timeout_block now st)) =
    uart_connection_ok st && negb fires /\
  waiting_for_pong (fst (ping_timeout_block now st)) =
    waiting_for_pong st && negb fires /\
  buffer_warning_shown (fst (ping_timeout_block now st)) = buffer_warning_shown st /\
  same_rx st (fst (ping_timeout_block now st)).
Proof.
  intros fires. rewrite ping_timeout_block_spec. fold fires. unfold same_rx.
  destruct fires; cbn [fst snd];
    destruct (uart_connection_ok st), (waiting_for_pong st); now repeat split.
Qed.

(** The high-water block. *)
Lemma high_water_block_notices bytes_available st :
  notices (snd (high_water_block bytes_available st)) =
    (if (bytes_available >? 64) && negb (buffer_warning_shown st)
     then [HighWater] else []) /\
  buffer_warning_shown (fst (high_water_block bytes_available st)) =
    buffer_warning_shown st || (bytes_available >? 64) /\
  uart_connection_ok (fst (high_water_block bytes_available st)) =
    uart_connection_ok st /\
  same_rx st (fst (high_water_block bytes_available st)).
Proof.
  unfold high_water_block, same_rx.
  destruct (bytes_available >? 64), (buffer_warning_shown st) eqn:E;
    cbn [fst snd negb andb orb]; rewrite ?E; now repeat split.
Qed.

(** The dispatcher: only a probe response touches the health flag, and it
    logs the recovery when the flag was down. *)
Lemma process_led_command_notices env line st :
  notices (snd (process_led_command env line st)) =
    (if is_probe_response line && negb (uart_connection_ok st)
     then [LinkUp] else []) /\
  uart_connection_ok (fst (process_led_command env line st)) =
    uart_connection_ok st || is_probe_response line /\
  waiting_for_pong (fst (process_led_command env line st)) =
    waiting_for_pong st && negb (is_probe_response line) /\
  buffer_warning_shown (fst (process_led_command env line st)) =
    buffer_warning_shown st.
Proof.
  unfold process_led_command, is_probe_response.
  fold (debug_msg line).
  destruct (strncmp line "PING" 4 =? 0).
  { pose proof (notices_transmit_with_retry (tx_status env) ("PONG" +:+ CRLF) 6) as H.
    destruct (transmit_with_retry (tx_status env) ("PONG" +:+ CRLF) 6) as [s t].
    simpl in H. cbn [fst snd negb andb]. rewrite !notices_app, H.
    rewrite orb_false_r, andb_true_r.
    destruct (is_HAL_OK s); now repeat split. }
  destruct (strncmp line "STM32_PONG" 10 =? 0).
  { cbn [fst snd negb andb]. rewrite orb_true_r, andb_false_r.
    destruct (uart_connection_ok st); now repeat split. }
  cbn [negb andb]. rewrite orb_false_r, andb_true_r.
  destruct (strncmp line "LED_CMD:" 8 =? 0); [|now repeat split].
  pose proof (notice_of_log_msg (char_at line 8)) as Hlog.
  destruct (led_command_switch (char_at line 8)) as [[pattern ack_msg] log_msg].
  pose proof (notices_transmit_with_retry (tx_status env) ack_msg (strlen ack_msg)) as H.
  destruct (transmit_with_retry (tx_status env) ack_msg (strlen ack_msg)) as [s t].
  cbn [fst snd] in H, Hlog.
  assert (Hl : notices [PrintMessage log_msg] = []).
  { unfold notices. cbn [omap list_omap]. now rewrite Hlog. }
  destruct pattern; cbn [fst snd]; rewrite !notices_app, H, Hl;
    destruct (is_HAL_OK s); now repeat split.
Qed.


(** The per-character block. *)
Lemma process_received_char_notices env c st :
  notices (snd (process_received_char env c st)) =
    (if completes_response c st && negb (uart_connection_ok st)
     then [LinkUp] else []) /\
  uart_connection_ok (fst (process_received_char env c st)) =
    uart_connection_ok st || completes_response c st /\
  waiting_for_pong (fst (process_received_char env c st)) =
    waiting_for_pong st && negb (completes_response c st) /\
  buffer_warning_shown (fst (process_received_char env c st)) =
    buffer_warning_shown st.
Proof.
  unfold process_received_char, completes_response. fold (is_terminator c).
  destruct (is_terminator c); cbn [andb].
  - destruct (rx_index st >? 0); cbn [andb].
    + set (buf := <[Z.to_nat (rx_index st) := NUL]> (rx_buffer st)).
      pose proof (process_led_command_notices env (c_str buf)
                    (set_rx buf (rx_index st) st)) as (Hn & Hok & Hw & Hs).
      destruct (process_led_command env (c_str buf) (set_rx buf (rx_index st) st))
        as [st1 t].
      cbn [fst snd] in *. repeat split; assumption.
    + rewrite orb_false_r, andb_true_r. now repeat split.
  - rewrite orb_false_r, andb_true_r.
    destruct (rx_index st >=? UART_RX_BUFFER_SIZE - 1); now repeat split.
Qed.

(** One turn of the task loop: the diagnostics it logs, in order, and the
    two flags after it. *)
Lemma comm_task_iteration_notices wd_id env st :
  let timed := probe_timed_out env st in
  let resp := response_received env st in
  let ok := uart_connection_ok st in
  notices (snd (comm_task_iteration wd_id env st)) =
    (if timed && ok then [LinkDown] else []) ++
    (if crosses_high_water env && negb (buffer_warning_shown st)
     then [HighWater] else []) ++
    (if resp && negb (ok && negb timed) then [LinkUp] else []) /\
  uart_connection_ok (fst (comm_task_iteration wd_id env st)) =
    ok && negb timed || resp /\
  buffer_warning_shown (fst (comm_task_iteration wd_id env st)) =
    buffer_warning_shown st || crosses_high_water env.
Proof.
  intros timed resp ok. subst timed resp ok.
  unfold comm_task_iteration, probe_timed_out, response_received,
    crosses_high_water.
  pose proof (ping_block_quiet (ping_status env) (now env) st)
    as (Hn1 & Hok1 & Hw1 & Hb1 & Hi1).
  destruct (ping_block (ping_status env) (now env) st) as [st1 t1].
  cbn [fst snd] in *.
  pose proof (ping_timeout_block_notices (now env) st1)
    as (Hn2 & Hok2 & _ & Hw2 & Hb2 & Hi2).
  cbv zeta in Hn2, Hok2.
  destruct (ping_timeout_block (now env) st1) as [st2 t2].
  cbn [fst snd] in *.
  set (fires := waiting_for_pong st1 && (u32 (now env - last_ping_sent st1) >=? 1000)) in *.
  set (feed := if wd_id =? Watchdog.WATCHDOG_INVALID_ID then [] else [Feed wd_id]).
  assert (Hfeed : notices feed = []).
  { subst feed. now destruct (wd_id =? Watchdog.WATCHDOG_INVALID_ID). }
  destruct (received env) as [[c avail]|].
  - pose proof (high_water_block_notices avail st2) as (Hn3 & Hw3 & Hok3 & Hb3 & Hi3).
    destruct (high_water_block avail st2) as [st3 t3]. cbn [fst snd] in *.
    pose proof (process_received_char_notices (dispatch env) c st3)
      as (Hn4 & Hok4 & _ & Hw4).
    destruct (process_received_char (dispatch env) c st3) as [st4 t4].
    cbn [fst snd] in *.
    assert (Hc : completes_response c st3 = completes_response c st).
    { unfold completes_response. now rewrite Hb3, Hi3, Hb2, Hi2, Hb1, Hi1. }
    rewrite !notices_app, Hn1, Hn2, Hfeed, Hn3, Hn4.
    rewrite Hok4, Hw4, Hw3, Hok3, Hok2, Hw2, Hw1, Hok1, Hc.
    cbn [app notices omap list_omap notice_of]. now repeat split.
  - cbn [fst snd].
    rewrite !notices_app, Hn1, Hn2, Hfeed, Hok2, Hok1, Hw2, Hw1.
    cbn [app notices omap list_omap notice_of andb].
    rewrite !orb_false_r, !app_nil_r. now repeat split.
Qed.

Lemma comm_task_run_step wd_id env rest st :
  comm_task_run wd_id (env :: rest) st =
  (fst (comm_task_run wd_id rest (fst (comm_task_iteration wd_id env st))),
   snd (comm_task_iteration wd_id env st) ++
   snd (comm_task_run wd_id rest (fst (comm_task_iteration wd_id env st)))).
Proof.
  simpl. destruct (comm_task_iteration wd_id env st) as [st1 t1]. simpl.
  now destruct (comm_task_run wd_id rest st1).
Qed.

Lemma comm_task_run_app wd_id envs1 envs2 st :
  comm_task_run wd_id (envs1 ++ envs2) st =
  (fst (comm_task_run wd_id envs2 (fst (comm_task_run wd_id envs1 st))),
   snd (comm_task_run wd_id envs1 st) ++
   snd (comm_task_run wd_id envs2 (fst (comm_task_run wd_id envs1 st)))).
Proof.
  revert st. induction envs1 as [|env envs1 IH]; intros st.
  - cbn [app comm_task_run fst snd]. now destruct (comm_task_run wd_id envs2 st).
  - rewrite <- app_comm_cons, !comm_task_run_step, IH. cbn [fst snd].
    now rewrite app_assoc.
Qed.

Lemma warnings_app t1 t2 : warnings (t1 ++ t2) = (warnings t1 + warnings t2)%nat.
Proof. unfold warnings. now rewrite notices_app, omap_app, length_app. Qed.

Lemma link_log_app t1 t2 : link_log (t1 ++ t2) = link_log t1 ++ link_log t2.
Proof. unfold link_log. now rewrite notices_app, omap_app. Qed.

Lemma comm_task_iteration_warnings wd_id env st :
  warnings (snd (comm_task_iteration wd_id env st)) =
  if crosses_high_water env && negb (buffer_warning_shown st) then 1%nat else 0%nat.
Proof.
  destruct (comm_task_iteration_notices wd_id env st) as (Hn & _ & _).
  unfold warnings. rewrite Hn.
  destruct (probe_timed_out env st && uart_connection_ok st),
    (crosses_high_water env && negb (buffer_warning_shown st)),
    (response_received env st && _); reflexivity.
Qed.

Lemma comm_task_iteration_link_log wd_id env st :
  let timed := probe_timed_out env st in
  let resp := response_received env st in
  let ok := uart_connection_ok st in
  link_log (snd (comm_task_iteration wd_id env st)) =
    (if timed && ok then [false] else []) ++
    (if resp && negb (ok && negb timed) then [true] else []).
Proof.
  intros timed resp ok.
  destruct (comm_task_iteration_notices wd_id env st) as (Hn & _ & _).
  unfold link_log. rewrite Hn. fold timed resp ok.
  destruct (timed && ok),
    (crosses_high_water env && negb (buffer_warning_shown st)),
    (resp && _); reflexivity.
Qed.

(** The warning flag after a run, and the warnings of a run. *)
Lemma comm_task_run_warnings wd_id envs :
  forall st,
    buffer_warning_shown (fst (comm_task_run wd_id envs st)) =
      buffer_warning_shown st || existsb crosses_high_water envs /\
    warnings (snd (comm_task_run wd_id envs st)) =
      if buffer_warning_shown st then 0%nat
      else if existsb crosses_high_water envs then 1%nat else 0%nat.
Proof.
  induction envs as [|env rest IH]; intros st.
  - cbn [comm_task_run existsb fst snd]. rewrite orb_false_r.
    split; [reflexivity|]. now destruct (buffer_warning_shown st).
  - rewrite comm_task_run_step. cbn [fst snd existsb].
    destruct (comm_task_iteration_notices wd_id env st) as (_ & _ & Hw).
    destruct (IH (fst (comm_task_iteration wd_id env st))) as [IHf IHw].
    rewrite warnings_app, comm_task_iteration_warnings, IHf, IHw, Hw.
    split; [now rewrite orb_assoc|].
    now destruct (buffer_warning_shown st), (crosses_high_water env),
      (existsb crosses_high_water rest).
Qed.

Lemma last_cons_default (x : bool) (l : list bool) d d' :
  List.last (x :: l) d = List.last (x :: l) d'.
Proof.
  revert x. induction l as [|y l IH]; intros x; [reflexivity|].
  change (List.last (y :: l) d = List.last (y :: l) d'). apply IH.
Qed.

Lemma last_app_default (l1 l2 : list bool) d :
  List.last (l1 ++ l2) d = List.last l2 (List.last l1 d).
Proof.
  revert d. induction l1 as [|x l1 IH]; intros d; [reflexivity|].
  destruct l1 as [|y l1].
  - destruct l2 as [|b l2]; [reflexivity|].
    change (List.last (b :: l2) d = List.last (b :: l2) x).
    apply last_cons_default.
  - change (List.last (y :: l1 ++ l2) d = List.last l2 (List.last (y :: l1) d)).
    apply (IH d).
Qed.

Lemma edges_app flag l1 l2 :
  edges flag (l1 ++ l2) = edges flag l1 && edges (List.last l1 flag) l2.
Proof.
  revert flag. induction l1 as [|x l1 IH]; intros flag; [reflexivity|].
  cbn [app edges]. rewrite IH, andb_assoc. f_equal.
  destruct l1 as [|y l1]; [reflexivity|].
  change (List.last (x :: y :: l1) flag) with (List.last (y :: l1) flag).
  now rewrite (last_cons_default y l1 x flag).
Qed.

(** The log of the transitions of a run follows the health flag. *)
Lemma comm_task_run_edges wd_id envs :
  forall st,
    edges (uart_connection_ok st) (link_log (snd (comm_task_run wd_id envs st))) = true /\
    uart_connection_ok (fst (comm_task_run wd_id envs st)) =
      List.last (link_log (snd (comm_task_run wd_id envs st))) (uart_connection_ok st).
Proof.
  induction envs as [|env rest IH]; intros st.
  - split; reflexivity.
  - rewrite comm_task_run_step. cbn [fst snd].
    destruct (comm_task_iteration_notices wd_id env st) as (_ & Hok & _).
    destruct (IH (fst (comm_task_iteration wd_id env st))) as [IHe IHl].
    rewrite link_log_app, edges_app, last_app_default, IHl.
    rewrite comm_task_iteration_link_log.
    rewrite Hok in IHe |- *.
    set (log := link_log (snd (comm_task_run wd_id rest _))) in *.
    clearbody log.
    destruct (probe_timed_out env st), (response_received env st),
      (uart_connection_ok st); cbn in IHe |- *; rewrite IHe; split; reflexivity.
Qed.

Lemma set_warning_shown_same st :
  set_warning_shown (buffer_warning_shown st) st = st.
Proof. now destruct st. Qed.

(** C4. The health flag [uart_connection_ok] and its log. In every run of
    the task loop, from any state, each logged transition is a change of
    the flag's value (a down-transition is never logged twice without a
    recovery between, nor a recovery twice without a down-transition
    between), and the flag always has the value of the last logged
    transition. In one turn, the down-transition is logged exactly when
    the probe is found timed out while a response is awaited and the flag
    is up; the recovery is logged exactly when a probe response is
    received while the flag is down; the flag ends up or down
    accordingly. The timeout block clears [waiting_for_pong] whenever it
    finds the timeout, whatever the flag. *)
Theorem C4_link_health_edge_triggered :
  forall (wd_id : Z) (envs : list iteration_env) (env : iteration_env)
         (tick : Z) (st : state),
    let timed := probe_timed_out env st in
    let resp := response_received env st in
    let ok := uart_connection_ok st in
    let fires := waiting_for_pong st && (u32 (tick - last_ping_sent st) >=? 1000) in
    edges ok (link_log (snd (comm_task_run wd_id envs st))) = true
    /\ uart_connection_ok (fst (comm_task_run wd_id envs st)) =
         List.last (link_log (snd (comm_task_run wd_id envs st))) ok
    /\ link_log (snd (comm_task_iteration wd_id env st)) =
         (if timed && ok then [false] else []) ++
         (if resp && negb (ok && negb timed) then [true] else [])
    /\ uart_connection_ok (fst (comm_task_iteration wd_id env st)) =
         ok && negb timed || resp
    /\ ping_timeout_block tick st =
         (if fires then
            (set_link (last_ping_sent st) (last_pong_received st) false false st,
             if ok
             then [PrintMessage down_msg;
                   PrintMessage ("[ESP8266] UART connection may be broken" +:+ CRLF)]
             else [])
          else (st, [])).
Proof.
  intros wd_id envs env tick st timed resp ok fires.
  destruct (comm_task_run_edges wd_id envs st) as [He Hl].
  destruct (comm_task_iteration_notices wd_id env st) as (_ & Hok & _).
  split; [exact He|]. split; [exact Hl|].
  split; [apply comm_task_iteration_link_log|].
  split; [exact Hok|]. apply ping_timeout_block_spec.
Qed.

(** Scenario C: a probe sent at tick 13000 and not answered by tick
    14000 takes the link down once; the next turn logs nothing more; the
    [STM32_PONG] completed at tick 14150 brings it up once. *)
Example scenario_C :
  let silent t := {| now := t; ping_status := fun _ => HAL_OK; received := None;
                     dispatch := {| tx_status := fun _ => HAL_OK; tick_count := t |} |} in
  let byte t c := {| now := t; ping_status := fun _ => HAL_OK; received := Some (c, 0);
                     dispatch := {| tx_status := fun _ => HAL_OK; tick_count := t |} |} in
  let pong := map (byte 14150) (list_ascii_of_string "STM32_PONG" ++ [LF]) in
  link_log (snd (comm_task_run 1
                   ([silent 13000; silent 13900; silent 14000; silent 14100] ++ pong ++
                    [silent 14200])
                   initial_state)) =
  [false; true].
Proof. vm_compute. reflexivity. Qed.

(** C9. Over any run of the task loop the high-water warning is logged
    once at most: never when the flag [buffer_warning_shown] is already
    set, never when no turn reads a byte with more than 64 bytes left in
    the stream buffer, and otherwise once, in the first turn that does.
    The block sets the flag, logs the line, and does nothing else: the
    turn goes on with the byte it has read. *)
Theorem C9_high_water_warning_once :
  forall (wd_id : Z) (before : list iteration_env) (env : iteration_env)
         (after : list iteration_env) (bytes_available : Z) (st : state),
    let envs := before ++ env :: after in
    (warnings (snd (comm_task_run wd_id envs st)) <= 1)%nat
    /\ warnings (snd (comm_task_run wd_id envs st)) =
         (if buffer_warning_shown st then 0%nat
          else if existsb crosses_high_water envs then 1%nat else 0%nat)
    /\ warnings (snd (comm_task_iteration wd_id env
                        (fst (comm_task_run wd_id before st)))) =
         (if crosses_high_water env && negb (existsb crosses_high_water before)
             && negb (buffer_warning_shown st)
          then 1%nat else 0%nat)
    /\ buffer_warning_shown initial_state = false
    /\ high_water_block bytes_available st =
         (set_warning_shown (buffer_warning_shown st || (bytes_available >? 64)) st,
          if (bytes_available >? 64) && negb (buffer_warning_shown st)
          then [PrintMessage warning_msg] else []).
Proof.
  intros wd_id before env after bytes_available st envs.
  destruct (comm_task_run_warnings wd_id envs st) as [_ Hw].
  destruct (comm_task_run_warnings wd_id before st) as [Hf _].
  split; [|split; [exact Hw|split; [|split; [reflexivity|]]]].
  - rewrite Hw.
    destruct (buffer_warning_shown st), (existsb crosses_high_water envs); lia.
  - rewrite comm_task_iteration_warnings, Hf.
    now destruct (crosses_high_water env), (existsb crosses_high_water before),
      (buffer_warning_shown st).
  - unfold high_water_block.
    destruct (bytes_available >? 64), (buffer_warning_shown st) eqn:E;
      cbn [negb andb orb]; try reflexivity;
      now rewrite <- E, set_warning_shown_same.
Qed.

End TaskLoop.

(** ** The watchdog *)

Section WatchdogProofs.

Import Watchdog.

(** One turn of the watchdog task on the three cells of the table: the
    loop body on each, in order. *)
Lemma watchdog_task_iteration_slots now st e0 e1 e2 :
  watchdog_tasks st = [e0; e1; e2] ->
  let cb := timeout_callback st in
  watchdog_task_iteration now st =
  (set_tasks [fst (check_entry cb now 0 e0);
              fst (check_entry cb now 1 e1);
              fst (check_entry cb now 2 e2)] st,
   DelayUntil 1000 ::
   snd (check_entry cb now 0 e0) ++
   snd (check_entry cb now 1 e1) ++
   snd (check_entry cb now 2 e2)).
Proof.
  intros H cb. unfold watchdog_task_iteration. rewrite H. fold cb.
  change (Z.to_nat WATCHDOG_MAX_TASKS) with 3%nat.
  cbn [check_slots]. change (Z.to_nat 0) with 0%nat.
  change (Z.to_nat (0 + 1)) with 1%nat.
  change (Z.to_nat (0 + 1 + 1)) with 2%nat.
  cbn [lookup list_lookup].
  destruct (check_entry cb now 0 e0) as [e0' a0].
  cbn [insert list_insert lookup list_lookup].
  destruct (check_entry cb now (0 + 1) e1) as [e1' a1] eqn:E1.
  cbn [insert list_insert lookup list_lookup].
  destruct (check_entry cb now (0 + 1 + 1) e2) as [e2' a2] eqn:E2.
  cbn [insert list_insert fst snd].
  change (0 + 1) with 1 in E1. change (0 + 1 + 1) with 2 in E2.
  rewrite E1, E2. cbn [fst snd]. now rewrite app_nil_r.
Qed.

Lemma u32_small x : 0 <= x < 2 ^ 32 -> u32 x = x.
Proof. intros H. unfold u32. now apply Z.mod_small. Qed.

Lemma pdTICKS_TO_MS_small x : 0 <= x < 2 ^ 32 -> pdTICKS_TO_MS x = x.
Proof.
  intros H. unfold pdTICKS_TO_MS, configTICK_RATE_HZ.
  rewrite Z.div_mul by lia. now apply u32_small.
Qed.

(** The time the watchdog measures between a feed at [L] and a check
    [d] ticks later, whatever the wrap-around of the tick counter. *)
Lemma elapsed_after (L d last : Z) :
  u32 last = u32 L -> 0 <= d < 2 ^ 32 ->
  pdTICKS_TO_MS (u32 (u32 (L + d) - last)) = d.
Proof.
  intros HL Hd.
  assert (H : u32 (u32 (L + d) - last) = d).
  { unfold u32 in *. rewrite Zminus_mod_idemp_l.
    rewrite Zminus_mod, HL, <- Zminus_mod.
    replace (L + d - L) with d by lia. now apply Z.mod_small. }
  rewrite H. now apply pdTICKS_TO_MS_small.
Qed.

(** A registered entry last fed at [L], checked [d] ticks later. *)
Lemma check_entry_after cb id e L d :
  registered e = true -> u32 (last_feed_tick e) = u32 L -> 0 <= d < 2 ^ 32 ->
  check_entry cb (u32 (L + d)) id e =
  if d >? timeout_ms e then
    (set_last_feed_tick (u32 (L + d)) e,
     [match cb with
      | Some _ => Callback id (c_str (task_name e)) d
      | None => PrintMessage (alert_msg id e d)
      end])
  else (e, []).
Proof.
  intros Hr HL Hd. unfold check_entry. rewrite Hr. cbn [negb].
  now rewrite (elapsed_after L d (last_feed_tick e) HL Hd).
Qed.

(** The checks that follow a feed at [L], the first [r] of them already
    done without alert: the check number [c] alerts when [c] is a
    multiple of [m = timeout / P + 1]. *)
Lemma slot_alerts_from cb id P m (k : nat) :
  forall (e : watchdog_entry_t) (L : Z) (r : nat),
    registered e = true -> 0 <= timeout_ms e -> 0 < P ->
    m = timeout_ms e / P + 1 -> m * P < 2 ^ 32 ->
    u32 (last_feed_tick e) = u32 L -> Z.of_nat r < m ->
    slot_alerts cb id
      (map (fun j => u32 (L + Z.of_nat (r + j) * P)) (seq 1 k)) e =
    map (fun j => if Z.of_nat (r + j) mod m =? 0 then 1%nat else 0%nat) (seq 1 k).
Proof.
  induction k as [|k IH]; intros e L r Hr HT HP Hm Hwrap HL Hrm; [reflexivity|].
  rewrite <- cons_seq, <- seq_shift, !map_cons, !map_map.
  cbn [slot_alerts].
  assert (Hdiv : timeout_ms e / P * P <= timeout_ms e < (timeout_ms e / P + 1) * P).
  { pose proof (Z.mul_div_le (timeout_ms e) P HP).
    pose proof (Z.mul_succ_div_gt (timeout_ms e) P HP). lia. }
  assert (Hd : 0 <= Z.of_nat (r + 1) * P < 2 ^ 32).
  { assert (Z.of_nat (r + 1) * P <= m * P)
      by (apply Z.mul_le_mono_nonneg_r; lia).
    split; [apply Z.mul_nonneg_nonneg|]; lia. }
  rewrite (check_entry_after cb id e L _ Hr HL Hd).
  destruct (Z.eq_dec (Z.of_nat (r + 1)) m) as [Heq|Hne].
  - (* the check that alerts *)
    assert (Hgt : (Z.of_nat (r + 1) * P >? timeout_ms e) = true).
    { apply Z.gtb_lt. rewrite Heq, Hm. lia. }
    rewrite Hgt. cbn [fst snd length]. rewrite Heq, Z_mod_same_full.
    cbn [Z.eqb]. f_equal.
    specialize (IH (set_last_feed_tick (u32 (L + m * P)) e) (L + m * P) 0%nat).
    cbn [registered timeout_ms last_feed_tick set_last_feed_tick] in IH.
    rewrite <- Heq in IH at 1 2.
    erewrite map_ext; [rewrite IH; try assumption; try lia|].
    + apply map_ext. intros j.
      replace (Z.of_nat (r + S j)) with (Z.of_nat (0 + j) + 1 * m) by lia.
      now rewrite Z_mod_plus_full.
    + unfold u32. now rewrite Zmod_mod.
    + intros j. cbv beta. f_equal. lia.
  - (* a check before the timeout *)
    assert (Hle : (Z.of_nat (r + 1) * P >? timeout_ms e) = false).
    { assert (Z.of_nat (r + 1) * P <= timeout_ms e / P * P)
        by (apply Z.mul_le_mono_nonneg_r; lia).
      destruct (Z.gtb_spec (Z.of_nat (r + 1) * P) (timeout_ms e)); [lia|reflexivity]. }
    rewrite Hle. cbn [fst snd length].
    rewrite Z.mod_small by lia.
    destruct (Z.eqb_spec (Z.of_nat (r + 1)) 0) as [H0|_]; [lia|]. f_equal.
    specialize (IH e L (S r) Hr HT HP Hm Hwrap HL ltac:(lia)).
    erewrite map_ext; [rewrite IH|].
    + apply map_ext. intros j. now replace (S r + j)%nat with (r + S j)%nat by lia.
    + intros j. cbv beta. now replace (r + S j)%nat with (S r + j)%nat by lia.
Qed.


Lemma alerts_app t1 t2 : alerts (t1 ++ t2) = (alerts t1 + alerts t2)%nat.
Proof.
  induction t1 as [|ev t1 IH]; [reflexivity|].
  destruct ev; simpl; now rewrite ?IH.
Qed.

Lemma alerts_check_entry cb now id e :
  alerts (snd (check_entry cb now id e)) = length (snd (check_entry cb now id e)).
Proof.
  unfold check_entry. destruct (negb (registered e)); [reflexivity|].
  destruct (_ >? _); [|reflexivity]. now destruct cb.
Qed.

(** The watchdog task left to run: the alerts of each turn are those of
    the three slots, each slot on its own. *)
Lemma watchdog_task_run_alerts nows :
  forall st e0 e1 e2,
    watchdog_tasks st = [e0; e1; e2] ->
    map alerts (snd (watchdog_task_run nows st)) =
    zip_with Nat.add (slot_alerts (timeout_callback st) 0 nows e0)
      (zip_with Nat.add (slot_alerts (timeout_callback st) 1 nows e1)
                        (slot_alerts (timeout_callback st) 2 nows e2)).
Proof.
  induction nows as [|now rest IH]; intros st e0 e1 e2 Ht; [reflexivity|].
  cbn [watchdog_task_run slot_alerts].
  rewrite (watchdog_task_iteration_slots now st e0 e1 e2 Ht).
  set (cb := timeout_callback st) in *.
  specialize (IH (set_tasks [fst (check_entry cb now 0 e0);
                             fst (check_entry cb now 1 e1);
                             fst (check_entry cb now 2 e2)] st)
                 _ _ _ eq_refl).
  cbn [timeout_callback set_tasks] in IH. fold cb in IH.
  destruct (watchdog_task_run rest _) as [st2 ts].
  cbn [fst snd map zip_with] in *. rewrite IH. f_equal.
  cbn [alerts]. now rewrite !alerts_app, !alerts_check_entry.
Qed.

(** C5, as stated, fails: a task registered with a timeout of 5000 ms
    that never feeds is reported by the check at 6000 ms, and then not by
    the checks at 7000 ms and 8000 ms, one and two periods later, although
    it is still silent. *)
Lemma C5_no_alert_in_next_period :
  let st := snd (fst (watchdog_register "ESP8266_Comm" 5000 0 (fst watchdog_init))) in
  map alerts (snd (watchdog_task_run
                     [1000; 2000; 3000; 4000; 5000; 6000; 7000; 8000] st)) =
  [0; 0; 0; 0; 0; 1; 0; 0]%nat.
Proof. vm_compute. reflexivity. Qed.

(** The checks that follow a feed at [L], the first one [d] ticks after
    it: none alerts until more than the timeout has elapsed, that check
    alerts, and then every [m]-th check does. *)
Lemma slot_alerts_phase cb id P m (k : nat) :
  forall (e : watchdog_entry_t) (L d : Z),
    registered e = true -> 0 <= timeout_ms e -> 0 < P ->
    m = timeout_ms e / P + 1 -> timeout_ms e + P < 2 ^ 32 ->
    u32 (last_feed_tick e) = u32 L -> 0 < d <= timeout_ms e + P ->
    slot_alerts cb id (checks_from (L + d) P k) e =
    map (fun i =>
           if (quiet_checks (timeout_ms e) P d <=? Z.of_nat i) &&
              ((Z.of_nat i - quiet_checks (timeout_ms e) P d) mod m =? 0)
           then 1%nat else 0%nat) (seq 0 k).
Proof.
  induction k as [|k IH]; intros e L d Hr HT HP Hm Hwrap HL Hd; [reflexivity|].
  unfold checks_from in *.
  rewrite <- cons_seq, <- seq_shift, !map_cons, !map_map.
  cbn [slot_alerts]. change (Z.of_nat 0 * P) with 0. rewrite Z.add_0_r.
  assert (Hdiv : timeout_ms e / P * P <= timeout_ms e < (timeout_ms e / P + 1) * P).
  { pose proof (Z.mul_div_le (timeout_ms e) P HP).
    pose proof (Z.mul_succ_div_gt (timeout_ms e) P HP). lia. }
  rewrite (check_entry_after cb id e L d Hr HL ltac:(lia)).
  unfold quiet_checks.
  destruct (Z.gtb_spec d (timeout_ms e)) as [Hgt|Hle].
  - (* the first alert; from here the checks are [P], [2 P], ... after it *)
    cbn [fst snd length]. cbn [Z.leb Z.of_nat Z.compare andb Z.sub Z.opp Z.add].
    rewrite Zmod_0_l. cbn [Z.eqb]. f_equal.
    pose proof (slot_alerts_from cb id P m k
                  (set_last_feed_tick (u32 (L + d)) e) (L + d) 0%nat) as Ha.
    cbn [registered timeout_ms last_feed_tick set_last_feed_tick] in Ha.
    assert (Hm1 : 1 <= m).
    { assert (0 <= timeout_ms e / P) by (apply Z.div_pos; lia). lia. }
    specialize (Ha Hr HT HP Hm ltac:(rewrite Hm; lia)
                   ltac:(unfold u32; now rewrite Zmod_mod) ltac:(lia)).
    rewrite <- seq_shift, !map_map in Ha.
    erewrite map_ext; [rewrite Ha|].
    + apply map_ext. intros i. cbn [Nat.add].
      rewrite Z.sub_0_r.
      destruct (Z.leb_spec 0 (Z.of_nat (S i))) as [_|]; [reflexivity|lia].
    + intros i. cbv beta. f_equal; lia.
  - (* a check before the timeout: the entry stays as it is *)
    cbn [fst snd length].
    assert (Hq : 0 <= (timeout_ms e - d) / P) by (apply Z.div_pos; lia).
    destruct (Z.leb_spec ((timeout_ms e - d) / P + 1) (Z.of_nat 0)) as [|_];
      [lia|].
    cbn [andb]. f_equal.
    specialize (IH e L (d + P) Hr HT HP Hm Hwrap HL ltac:(lia)).
    erewrite map_ext; [rewrite IH|].
    + apply map_ext. intros i. unfold quiet_checks.
      destruct (Z.gtb_spec (d + P) (timeout_ms e)) as [Hgt'|Hle'].
      * assert (Hz : (timeout_ms e - d) / P = 0) by (apply Z.div_small; lia).
        rewrite Hz.
        replace (Z.of_nat (S i) - (0 + 1)) with (Z.of_nat i - 0) by lia.
        now destruct (Z.leb_spec 0 (Z.of_nat i)), (Z.leb_spec (0 + 1) (Z.of_nat (S i)));
          try lia.
      * assert (Hs : (timeout_ms e - d) / P = (timeout_ms e - (d + P)) / P + 1).
        { replace (timeout_ms e - d) with (timeout_ms e - (d + P) + 1 * P) by lia.
          now rewrite Z.div_add by lia. }
        rewrite Hs.
        replace (Z.of_nat (S i) - ((timeout_ms e - (d + P)) / P + 1 + 1))
          with (Z.of_nat i - ((timeout_ms e - (d + P)) / P + 1)) by lia.
        now destruct (Z.leb_spec ((timeout_ms e - (d + P)) / P + 1) (Z.of_nat i)),
          (Z.leb_spec ((timeout_ms e - (d + P)) / P + 1 + 1) (Z.of_nat (S i)));
          try lia.
    + intros i. cbv beta. f_equal. lia.
Qed.

(** C5, amended. A registered task with timeout [T] ms stops feeding; the
    watchdog checks every [P] ms, the first time [d] ms after the last
    feed ([0 < d <= P]). The checks raise no alert for the task's slot
    until more than [T] ms have elapsed; the first check after that, [q]
    checks later and between [T] and [T + P] ms after the last feed,
    raises exactly one alert; from then on exactly one alert is raised
    every [m = T / P + 1] checks (every check only when [T < P]) and none
    at the checks in between. The alerts of each turn of the watchdog
    task are those of its three slots, each slot on its own. *)
Theorem C5_watchdog_alert_cadence :
  forall (callback : option Z) (id : Z) (e : watchdog_entry_t) (P d : Z) (k : nat)
         (nows : list Z) (st : state) (e0 e1 e2 : watchdog_entry_t),
    registered e = true -> 0 <= timeout_ms e -> 0 < P -> 0 < d <= P ->
    timeout_ms e + P < 2 ^ 32 ->
    watchdog_tasks st = [e0; e1; e2] ->
    let m := timeout_ms e / P + 1 in
    let q := quiet_checks (timeout_ms e) P d in
    slot_alerts callback id (checks_from (last_feed_tick e + d) P k) e =
      map (fun i => if (q <=? Z.of_nat i) && ((Z.of_nat i - q) mod m =? 0)
                    then 1%nat else 0%nat) (seq 0 k)
    /\ timeout_ms e < d + q * P <= timeout_ms e + P
    /\ map alerts (snd (watchdog_task_run nows st)) =
         zip_with Nat.add (slot_alerts (timeout_callback st) 0 nows e0)
           (zip_with Nat.add (slot_alerts (timeout_callback st) 1 nows e1)
                             (slot_alerts (timeout_callback st) 2 nows e2)).
Proof.
  intros callback id e P d k nows st e0 e1 e2 Hr HT HP Hd Hwrap Htasks m q.
  split; [|split].
  - apply (slot_alerts_phase callback id P m k e (last_feed_tick e) d);
      try assumption; try reflexivity; lia.
  - subst q. unfold quiet_checks.
    destruct (Z.gtb_spec d (timeout_ms e)); [lia|].
    pose proof (Z.mul_div_le (timeout_ms e - d) P HP).
    pose proof (Z.mul_succ_div_gt (timeout_ms e - d) P HP). lia.
  - now apply watchdog_task_run_alerts.
Qed.

(** The statement at a timeout of 5000 ms checked every 1000 ms, the
    first check 400 ms after the last feed: fourteen checks, alerts at
    the sixth (5400 ms after the feed) and at the twelfth. *)
Lemma C5_watchdog_alert_cadence_witness :
  let e := {| task_name := strncpy "ESP8266_Comm" 15 ++ [NUL]; timeout_ms := 5000;
              last_feed_tick := 0; registered := true |} in
  slot_alerts None 1 (checks_from 400 1000 14) e =
    [0; 0; 0; 0; 0; 1; 0; 0; 0; 0; 0; 1; 0; 0]%nat
  /\ 5000 < 400 + 5 * 1000 <= 5000 + 1000.
Proof.
  intros e.
  assert (Hr : registered e = true) by reflexivity.
  assert (HT : 0 <= timeout_ms e) by (vm_compute; discriminate).
  assert (HP : 0 < 1000) by reflexivity.
  assert (Hd : 0 < 400 <= 1000) by lia.
  assert (Hwrap : timeout_ms e + 1000 < 2 ^ 32) by (vm_compute; reflexivity).
  assert (Ht : watchdog_tasks (fst watchdog_init) = [zero_entry; zero_entry; zero_entry])
    by reflexivity.
  pose proof (C5_watchdog_alert_cadence None 1 e 1000 400 14 []
                (fst watchdog_init) zero_entry zero_entry zero_entry
                Hr HT HP Hd Hwrap Ht) as (H1 & H2 & _).
  split; [exact H1 | exact H2].
Defined.

(** A table that is [table_ok], cell by cell. *)
Lemma table_ok_cells st :
  table_ok st ->
  exists e0 e1 e2,
    watchdog_tasks st = [e0; e1; e2] /\
    num_registered st =
      (if registered e0 then 1 else 0) + (if registered e1 then 1 else 0) +
      (if registered e2 then 1 else 0).
Proof.
  intros [Hlen Hnum]. destruct (watchdog_tasks st) as [|e0 [|e1 [|e2 [|]]]];
    try discriminate.
  exists e0, e1, e2. split; [reflexivity|]. rewrite Hnum.
  destruct e0 as [? ? ? []], e1 as [? ? ? []], e2 as [? ? ? []]; reflexivity.
Qed.

Lemma cells_table_ok st e0 e1 e2 :
  watchdog_tasks st = [e0; e1; e2] ->
  num_registered st =
    (if registered e0 then 1 else 0) + (if registered e1 then 1 else 0) +
    (if registered e2 then 1 else 0) ->
  table_ok st.
Proof.
  intros Ht Hn. unfold table_ok. rewrite Ht, Hn. split; [reflexivity|].
  destruct e0 as [? ? ? []], e1 as [? ? ? []], e2 as [? ? ? []]; reflexivity.
Qed.

Lemma check_entry_registered cb now id e :
  registered (fst (check_entry cb now id e)) = registered e.
Proof.
  unfold check_entry. destruct (registered e) eqn:E; [|exact E].
  cbn [negb]. destruct (_ >? _); exact E.
Qed.

(** What [watchdog_register] does on a table given cell by cell. *)
Lemma watchdog_register_cells name timeout now st e0 e1 e2 :
  watchdog_tasks st = [e0; e1; e2] ->
  num_registered st =
    (if registered e0 then 1 else 0) + (if registered e1 then 1 else 0) +
    (if registered e2 then 1 else 0) ->
  let e := {| task_name := strncpy name 15 ++ [NUL]; timeout_ms := timeout;
              last_feed_tick := now; registered := true |} in
  let id := if negb (registered e0) then 0
            else if negb (registered e1) then 1
            else if negb (registered e2) then 2 else WATCHDOG_INVALID_ID in
  fst (fst (watchdog_register name timeout now st)) = id /\
  snd (fst (watchdog_register name timeout now st)) =
    (if id =? WATCHDOG_INVALID_ID then st
     else {| watchdog_tasks := <[Z.to_nat id := e]> [e0; e1; e2];
             num_registered := num_registered st + 1;
             timeout_callback := timeout_callback st |}).
Proof.
  intros Ht Hn e id. subst id. unfold watchdog_register.
  rewrite Ht, Hn. cbn [find_free_slot].
  destruct (registered e0), (registered e1), (registered e2); now repeat split.
Qed.

Lemma reachable_table_ok st : reachable st -> table_ok st.
Proof.
  induction 1 as [|name timeout now st _ IH|id now st _ IH|cb st _ IH|now st _ IH].
  - split; reflexivity.
  - destruct (table_ok_cells st IH) as (e0 & e1 & e2 & Ht & Hn).
    destruct (watchdog_register_cells name timeout now st e0 e1 e2 Ht Hn) as [_ ->].
    revert Hn.
    destruct (registered e0) eqn:E0, (registered e1) eqn:E1,
      (registered e2) eqn:E2; intros Hn;
      change (WATCHDOG_INVALID_ID =? WATCHDOG_INVALID_ID) with true;
      cbn [negb Z.eqb]; try exact IH;
      (eapply cells_table_ok;
       [reflexivity
       | cbn [num_registered registered]; rewrite ?E0, ?E1, ?E2, Hn; reflexivity]).
  - destruct (table_ok_cells st IH) as (e0 & e1 & e2 & Ht & Hn).
    unfold watchdog_feed. destruct (id >=? WATCHDOG_MAX_TASKS); [exact IH|].
    rewrite Ht.
    destruct (Z.to_nat id) as [|[|[|n]]]; cbn [lookup list_lookup]; try exact IH.
    + destruct (registered e0) eqn:E; [|exact IH].
      eapply cells_table_ok; [reflexivity|].
      cbn [negb set_tasks set_last_feed_tick num_registered registered].
      rewrite E. exact Hn.
    + destruct (registered e1) eqn:E; [|exact IH].
      eapply cells_table_ok; [reflexivity|].
      cbn [negb set_tasks set_last_feed_tick num_registered registered].
      rewrite E. exact Hn.
    + destruct (registered e2) eqn:E; [|exact IH].
      eapply cells_table_ok; [reflexivity|].
      cbn [negb set_tasks set_last_feed_tick num_registered registered].
      rewrite E. exact Hn.
  - exact IH.
  - destruct (table_ok_cells st IH) as (e0 & e1 & e2 & Ht & Hn).
    rewrite (watchdog_task_iteration_slots now st e0 e1 e2 Ht).
    eapply cells_table_ok; [reflexivity|].
    cbn [fst set_tasks num_registered]. now rewrite !check_entry_registered.
Qed.


Lemma c_str_strncpy name (n : nat) :
  c_str (strncpy name n ++ [NUL]) = c_str (take n (list_ascii_of_string name)).
Proof.
  unfold strncpy. rewrite <- app_assoc.
  destruct (n - length (take n (list_ascii_of_string name)))%nat as [|k].
  - apply c_str_app_NUL.
  - cbn [replicate app]. apply c_str_app_NUL.
Qed.

Lemma elapsed_ms_fresh now e :
  elapsed_ms now (set_last_feed_tick now e) = 0.
Proof.
  unfold elapsed_ms. cbn [last_feed_tick set_last_feed_tick].
  now rewrite Z.sub_diag.
Qed.

(** C8, as stated, fails on the name: a name of more than 15 characters
    is not stored as given, the slot holds its first 15 characters. *)
Lemma C8_long_name_is_cut :
  let result := watchdog_register "Communication_Task_1" 5000 0 (fst watchdog_init) in
  fst (fst result) = 0 /\
  (fun e => c_str (task_name e)) <$> (watchdog_tasks (snd (fst result)) !! 0%nat) =
    Some "Communication_T"%string.
Proof. vm_compute. split; reflexivity. Qed.

(** C8, amended. In every state the watchdog can reach:
    [watchdog_register] returns the invalid id exactly when the three
    slots are in use, and then changes nothing; otherwise it returns the
    index of a free slot and fills that slot, and no other, with the
    first 15 characters of the given name, the given timeout, the
    current tick (an elapsed time of zero) and the registered mark.
    [watchdog_feed] on a registered slot sets that slot's last-feed tick
    to the current tick (an elapsed time of zero) and changes nothing
    else; on an id beyond the table or on a free slot it changes
    nothing. *)
Theorem C8_watchdog_register_feed :
  forall (st : state) (name : string) (timeout now : Z) (id tick : Z),
    reachable st -> 0 <= id < 256 ->
    let result := watchdog_register name timeout now st in
    let rid := fst (fst result) in
    let st' := snd (fst result) in
    let e := {| task_name := strncpy name 15 ++ [NUL]; timeout_ms := timeout;
                last_feed_tick := now; registered := true |} in
    (rid =? WATCHDOG_INVALID_ID) = table_full st
    /\ (if table_full st then st' = st
        else 0 <= rid < WATCHDOG_MAX_TASKS
             /\ registered <$> (watchdog_tasks st !! Z.to_nat rid) = Some false
             /\ watchdog_tasks st' = <[Z.to_nat rid := e]> (watchdog_tasks st)
             /\ timeout_callback st' = timeout_callback st)
    /\ c_str (task_name e) = c_str (take 15 (list_ascii_of_string name))
    /\ elapsed_ms now e = 0
    /\ match watchdog_tasks st !! Z.to_nat id with
       | Some fed =>
           if (id <? WATCHDOG_MAX_TASKS) && registered fed
           then watchdog_feed id tick st =
                  set_tasks (<[Z.to_nat id := set_last_feed_tick tick fed]>
                               (watchdog_tasks st)) st
                /\ elapsed_ms tick (set_last_feed_tick tick fed) = 0
           else watchdog_feed id tick st = st
       | None => watchdog_feed id tick st = st
       end.
Proof.
  intros st name timeout now id tick Hreach Hid result rid st' e.
  destruct (table_ok_cells st (reachable_table_ok st Hreach))
    as (e0 & e1 & e2 & Ht & Hn).
  destruct (watchdog_register_cells name timeout now st e0 e1 e2 Ht Hn)
    as [Hrid Hst'].
  fold result in Hrid, Hst'. fold rid in Hrid. fold st' in Hst'. fold e in Hst'.
  unfold table_full. rewrite Ht. cbn [forallb].
  split; [|split; [|split; [|split]]].
  - rewrite Hrid. now destruct (registered e0), (registered e1), (registered e2).
  - rewrite Hst', Hrid.
    destruct (registered e0) eqn:E0, (registered e1) eqn:E1,
      (registered e2) eqn:E2; cbn [negb andb];
      try reflexivity;
      (split; [unfold WATCHDOG_MAX_TASKS; lia|]);
      (split;
       [change (Z.to_nat 0) with 0%nat; change (Z.to_nat 1) with 1%nat;
        change (Z.to_nat 2) with 2%nat; cbn; now rewrite ?E0, ?E1, ?E2|]);
      split; reflexivity.
  - apply c_str_strncpy.
  - apply (elapsed_ms_fresh now e).
  - unfold watchdog_feed. rewrite Ht. unfold WATCHDOG_MAX_TASKS.
    destruct (Z.ltb_spec id 3) as [Hlt|Hge].
    + destruct (Z.geb_spec id 3) as [|_]; [lia|].
      destruct ([e0; e1; e2] !! Z.to_nat id) as [fed|]; [|reflexivity].
      cbn [andb]. destruct (registered fed); cbn [negb]; [|reflexivity].
      split; [reflexivity | apply elapsed_ms_fresh].
    + destruct (Z.geb_spec id 3) as [_|]; [|lia].
      now destruct ([e0; e1; e2] !! Z.to_nat id).
Qed.

(** The statement at the first registration after [watchdog_init] and a
    feed of slot 0, not yet registered. *)
Lemma C8_watchdog_register_feed_witness :
  (fst (fst (watchdog_register "Print_Task" 5000 0 (fst watchdog_init)))
     =? WATCHDOG_INVALID_ID) = false.
Proof.
  exact (proj1 (C8_watchdog_register_feed (fst watchdog_init) "Print_Task"
                  5000 0 0 7 reach_init
                  (conj (Z.le_refl 0) (eq_refl : 0 < 256)))).
Defined.

End WatchdogProofs.

(** ** The logging channel, and the timeouts of all suspending calls *)

Section Logging.

Import PrintTask.

Lemma length_strncpy message (n : nat) : length (strncpy message n) = n.
Proof.
  unfold strncpy. rewrite length_app, length_replicate, length_take. lia.
Qed.

Lemma length_list_ascii_of_string s :
  length (list_ascii_of_string s) = String.length s.
Proof. induction s as [|c s IH]; [reflexivity|]. simpl. now rewrite IH. Qed.

(** C10, as stated, fails: on a queue that is full and stays full for
    the 100 ms of the enqueue timeout, a non-NULL message is not
    enqueued and the failure code is returned. *)
Lemma C10_full_queue_drops :
  let q := replicate 5 (strncpy "x" 255 ++ [NUL]) in
  print_message (Some "hello"%string) false (Some q) =
  (errQUEUE_FULL, Some q, [QueueSend (strncpy "hello" 255 ++ [NUL]) 100]).
Proof. vm_compute. reflexivity. Qed.

(** C10, amended. For every non-NULL message, when the log queue exists,
    [print_message] hands to [xQueueSend] a 256-character item made of
    the first min(length, 255) characters of the message and NUL
    characters after them: a longer message is cut to its first 255
    characters. The item is enqueued, and success returned, when the
    queue has a free slot or gets one within the 100 ms timeout;
    otherwise nothing is enqueued and the failure code is returned. The
    result depends on the queue only, never on the length of the message:
    the cut is not reported. A NULL message or a queue not yet created
    returns the failure code and leaves the queue as it is. *)
Theorem C10_print_message_truncates :
  forall (message : string) (freed : bool) (q : list item)
         (print_queue : QueueHandle_t),
    let chars := take 255 (list_ascii_of_string message) in
    let buffer := chars ++ replicate (256 - Nat.min (String.length message) 255) NUL in
    print_message (Some message) freed (Some q) =
      (if (length q <? PRINT_QUEUE_DEPTH)%nat || freed then pdPASS else errQUEUE_FULL,
       Some (if (length q <? PRINT_QUEUE_DEPTH)%nat then q ++ [buffer]
             else if freed then tail q ++ [buffer] else q),
       [QueueSend buffer 100])
    /\ length buffer = 256%nat
    /\ length chars = Nat.min (String.length message) 255
    /\ c_str buffer = c_str chars
    /\ print_message None freed print_queue = (pdFAIL, print_queue, [])
    /\ print_message (Some message) freed None = (pdFAIL, None, []).
Proof.
  intros message freed q print_queue chars buffer.
  assert (Hlen : length chars = Nat.min (String.length message) 255).
  { subst chars. rewrite length_take, length_list_ascii_of_string. lia. }
  assert (Hbuf : strncpy message (PRINT_MESSAGE_MAX_SIZE - 1) ++ [NUL] = buffer).
  { subst buffer. unfold strncpy. change (PRINT_MESSAGE_MAX_SIZE - 1)%nat with 255%nat.
    fold chars. rewrite <- app_assoc. f_equal.
    rewrite Hlen.
    replace (256 - Nat.min (String.length message) 255)%nat
      with (S (255 - Nat.min (String.length message) 255)) by lia.
    now rewrite replicate_S_end. }
  split; [|split; [|split; [exact Hlen|split; [|split; reflexivity]]]].
  - unfold print_message. rewrite Hbuf. unfold xQueueSend.
    destruct (length q <? PRINT_QUEUE_DEPTH)%nat; [reflexivity|].
    now destruct freed.
  - rewrite <- Hbuf, length_app, length_strncpy. reflexivity.
  - subst buffer.
    replace (256 - Nat.min (String.length message) 255)%nat
      with (S (255 - Nat.min (String.length message) 255)) by lia.
    cbn [replicate]. apply c_str_app_NUL.
Qed.

End Logging.

Section Timeouts.

Import Esp8266Comm.

Lemma finite_timeouts_app t1 t2 :
  finite_timeouts (t1 ++ t2) = finite_timeouts t1 && finite_timeouts t2.
Proof. apply forallb_app. Qed.

Lemma finite_transmit_with_retry tx pData Size :
  finite_timeouts (snd (transmit_with_retry tx pData Size)) = true.
Proof.
  rewrite transmit_with_retry_spec. unfold first_success.
  destruct (is_HAL_OK (tx 0%nat)); [reflexivity|].
  destruct (is_HAL_OK (tx 1%nat)); [reflexivity|].
  destruct (is_HAL_OK (tx 2%nat)); reflexivity.
Qed.

Lemma finite_process_led_command env line st :
  finite_timeouts (snd (process_led_command env line st)) = true.
Proof.
  unfold process_led_command.
  destruct (strncmp line "PING" 4 =? 0).
  { pose proof (finite_transmit_with_retry (tx_status env) ("PONG" +:+ CRLF) 6) as H.
    destruct (transmit_with_retry (tx_status env) ("PONG" +:+ CRLF) 6) as [s t].
    cbn [fst snd] in *. now rewrite !finite_timeouts_app, H. }
  destruct (strncmp line "STM32_PONG" 10 =? 0).
  { now destruct (uart_connection_ok st). }
  destruct (strncmp line "LED_CMD:" 8 =? 0); [|reflexivity].
  destruct (led_command_switch (char_at line 8)) as [[pattern ack_msg] log_msg].
  pose proof (finite_transmit_with_retry (tx_status env) ack_msg (strlen ack_msg)) as H.
  destruct (transmit_with_retry (tx_status env) ack_msg (strlen ack_msg)) as [s t].
  cbn [fst snd] in H.
  destruct pattern; cbn [fst snd]; rewrite !finite_timeouts_app, H;
    now destruct (is_HAL_OK s).
Qed.

Lemma finite_process_received_char env c st :
  finite_timeouts (snd (process_received_char env c st)) = true.
Proof.
  unfold process_received_char.
  destruct (Ascii.eqb c LF || Ascii.eqb c CR).
  - destruct (rx_index st >? 0); [|reflexivity].
    set (buf := <[Z.to_nat (rx_index st) := NUL]> (rx_buffer st)).
    pose proof (finite_process_led_command env (c_str buf)
                  (set_rx buf (rx_index st) st)) as H.
    destruct (process_led_command env (c_str buf) (set_rx buf (rx_index st) st))
      as [st1 t].
    exact H.
  - now destruct (rx_index st >=? UART_RX_BUFFER_SIZE - 1).
Qed.

Lemma finite_ping_block tx now st :
  finite_timeouts (snd (ping_block tx now st)) = true.
Proof.
  unfold ping_block, get_random_jitter.
  set (st1 := if last_ping_sent st =? 0 then _ else st). clearbody st1.
  destruct (u32 (now - last_ping_sent st1) >=? _); [|reflexivity].
  pose proof (finite_transmit_with_retry tx ("STM32_PING" +:+ CRLF) 12) as H.
  destruct (transmit_with_retry tx ("STM32_PING" +:+ CRLF) 12) as [status t].
  cbn [fst snd] in H.
  destruct (is_HAL_OK status); cbn [fst snd]; now rewrite finite_timeouts_app, H.
Qed.

Lemma finite_ping_timeout_block now st :
  finite_timeouts (snd (ping_timeout_block now st)) = true.
Proof.
  rewrite ping_timeout_block_spec.
  destruct (waiting_for_pong st && _); [|reflexivity].
  now destruct (uart_connection_ok st).
Qed.

Lemma finite_high_water_block bytes_available st :
  finite_timeouts (snd (high_water_block bytes_available st)) = true.
Proof.
  unfold high_water_block.
  destruct (bytes_available >? 64); [|reflexivity].
  now destruct (negb (buffer_warning_shown st)).
Qed.

Lemma finite_comm_task_iteration wd_id env st :
  finite_timeouts (snd (comm_task_iteration wd_id env st)) = true.
Proof.
  unfold comm_task_iteration.
  pose proof (finite_ping_block (ping_status env) (now env) st) as H1.
  destruct (ping_block (ping_status env) (now env) st) as [st1 t1].
  pose proof (finite_ping_timeout_block (now env) st1) as H2.
  destruct (ping_timeout_block (now env) st1) as [st2 t2].
  cbn [fst snd] in *.
  destruct (received env) as [[c avail]|].
  - pose proof (finite_high_water_block avail st2) as H3.
    destruct (high_water_block avail st2) as [st3 t3].
    pose proof (finite_process_received_char (dispatch env) c st3) as H4.
    destruct (process_received_char (dispatch env) c st3) as [st4 t4].
    cbn [fst snd] in *.
    rewrite !finite_timeouts_app, H1, H2, H3, H4.
    now destruct (wd_id =? Watchdog.WATCHDOG_INVALID_ID).
  - cbn [fst snd]. rewrite !finite_timeouts_app, H1, H2.
    now destruct (wd_id =? Watchdog.WATCHDOG_INVALID_ID).
Qed.

Lemma finite_comm_task_run wd_id envs :
  forall st, finite_timeouts (snd (comm_task_run wd_id envs st)) = true.
Proof.
  induction envs as [|env rest IH]; intros st; [reflexivity|].
  rewrite comm_task_run_step. cbn [fst snd].
  now rewrite finite_timeouts_app, finite_comm_task_iteration, IH.
Qed.

Lemma finite_check_entry cb now id e :
  finite_timeouts (snd (Watchdog.check_entry cb now id e)) = true.
Proof.
  unfold Watchdog.check_entry.
  destruct (negb (Watchdog.registered e)); [reflexivity|].
  destruct (_ >? _); [|reflexivity]. now destruct cb.
Qed.

Lemma finite_check_slots cb now (count : nat) :
  forall id tasks,
    finite_timeouts (snd (Watchdog.check_slots cb now id count tasks)) = true.
Proof.
  induction count as [|count IH]; intros id tasks; [reflexivity|].
  cbn [Watchdog.check_slots].
  destruct (tasks !! Z.to_nat id) as [e|]; [|apply IH].
  pose proof (finite_check_entry cb now id e) as He.
  destruct (Watchdog.check_entry cb now id e) as [e' alert].
  pose proof (IH (id + 1) (<[Z.to_nat id := e']> tasks)) as Hr.
  destruct (Watchdog.check_slots cb now (id + 1) count _) as [tasks' alerts'].
  cbn [fst snd] in *. now rewrite finite_timeouts_app, He, Hr.
Qed.

Lemma finite_watchdog_task_iteration now st :
  finite_timeouts (snd (Watchdog.watchdog_task_iteration now st)) = true.
Proof.
  unfold Watchdog.watchdog_task_iteration.
  pose proof (finite_check_slots (Watchdog.timeout_callback st) now
                (Z.to_nat Watchdog.WATCHDOG_MAX_TASKS) 0 (Watchdog.watchdog_tasks st)) as H.
  destruct (Watchdog.check_slots _ _ _ _ _) as [tasks' alerts'].
  cbn [fst snd] in *. cbn [finite_timeouts forallb]. fold (finite_timeouts alerts').
  now rewrite H.
Qed.

Lemma finite_print_message message freed print_queue :
  finite_timeouts (snd (PrintTask.print_message message freed print_queue)) = true.
Proof.
  unfold PrintTask.print_message.
  destruct message as [message|]; [|reflexivity].
  destruct print_queue as [q|]; [|reflexivity].
  now destruct (PrintTask.xQueueSend q _ freed).
Qed.

(** C6, as stated, fails: the logging task hands a received message to
    UART3 with [HAL_MAX_DELAY], the HAL's unbounded wait. *)
Lemma C6_print_task_waits_without_bound :
  snd (PrintTask.print_task_iteration 0 [strncpy "x" 255 ++ [NUL]]) =
    [QueueReceive 2000; Transmit huart3 "x" 1 HAL_MAX_DELAY; Feed 0]
  /\ finite_timeouts
       (snd (PrintTask.print_task_iteration 0 [strncpy "x" 255 ++ [NUL]])) = false.
Proof. split; vm_compute; reflexivity. Qed.

(** C6, amended. Every suspending call of the communication task (its
    startup frame, its stream-buffer read, its transmits on UART2 and its
    retry delays), of [print_message] (the queue send), of the watchdog
    task (its periodic wait) and the queue receive of the logging task
    passes a finite timeout. The transmits of the logging task on UART3,
    at startup and for each message, pass [HAL_MAX_DELAY] and wait
    without bound. *)
Theorem C6_finite_timeouts :
  forall (wd_id tick : Z) (envs : list iteration_env) (st : state)
         (message : option string) (freed : bool)
         (print_queue : PrintTask.QueueHandle_t) (wst : Watchdog.state)
         (q : list PrintTask.item),
    finite_timeouts (snd (comm_task_startup tick wd_id st)) = true
    /\ finite_timeouts (snd (comm_task_run wd_id envs st)) = true
    /\ finite_timeouts (snd (PrintTask.print_message message freed print_queue)) = true
    /\ finite_timeouts (snd (Watchdog.watchdog_task_iteration tick wst)) = true
    /\ hd_error (snd (PrintTask.print_task_iteration wd_id q)) =
         Some (QueueReceive 2000)
    /\ finite_timeouts (snd (PrintTask.print_task_iteration wd_id q)) =
         match q with [] => true | _ :: _ => false end
    /\ finite_timeouts PrintTask.print_task_startup = false.
Proof.
  intros wd_id tick envs st message freed print_queue wst q.
  split; [|split; [apply finite_comm_task_run|
           split; [apply finite_print_message|
           split; [apply finite_watchdog_task_iteration|
           split; [|split; [|reflexivity]]]]]].
  - unfold comm_task_startup. cbn [snd].
    now destruct (wd_id =? Watchdog.WATCHDOG_INVALID_ID).
  - now destruct q.
  - destruct q; unfold PrintTask.print_task_iteration; cbn [snd];
      now destruct (wd_id =? Watchdog.WATCHDOG_INVALID_ID).
Qed.

End Timeouts.

(** ** More on the communication task *)

Section CommTaskMore.

Import Esp8266Comm.

(** X1. [get_random_jitter(max)], for a [max] above zero, returns a value
    in [0, max) and leaves a seed that fits in 32 bits, whatever the seed
    was. *)
Theorem X1_random_jitter_in_range :
  forall (max seed : Z),
    0 < max ->
    0 <= snd (get_random_jitter max seed) < max /\
    0 <= fst (get_random_jitter max seed) < 2 ^ 32.
Proof.
  intros max seed Hmax. unfold get_random_jitter, u32. cbn [fst snd].
  split; apply Z.mod_pos_bound; lia.
Qed.

Lemma X1_random_jitter_in_range_witness :
  0 <= snd (get_random_jitter 2000 0) < 2000 /\
  0 <= fst (get_random_jitter 2000 0) < 2 ^ 32.
Proof.
  assert (H : 0 < 2000) by reflexivity.
  exact (X1_random_jitter_in_range 2000 0 H).
Defined.

(** *** The line buffer stays within its bounds *)

Lemma rx_ok_same_rx st st' : same_rx st st' -> rx_ok st -> rx_ok st'.
Proof. intros [Hb Hi] [Hl Hx]. unfold rx_ok. now rewrite Hb, Hi. Qed.

Lemma rx_ok_process_received_char env c st :
  rx_ok st -> rx_ok (fst (process_received_char env c st)).
Proof.
  intros [Hl Hx]. unfold process_received_char.
  destruct (Ascii.eqb c LF || Ascii.eqb c CR).
  - destruct (rx_index st >? 0); [|now split].
    set (buf := <[Z.to_nat (rx_index st) := NUL]> (rx_buffer st)).
    pose proof (process_led_command_quiet env (c_str buf)
                  (set_rx buf (rx_index st) st)) as (_ & Hbuf & _).
    destruct (process_led_command env (c_str buf) (set_rx buf (rx_index st) st))
      as [st1 t].
    cbn [fst snd rx_buffer set_rx] in *. unfold rx_ok.
    cbn [rx_buffer rx_index set_rx].
    rewrite Hbuf. subst buf. rewrite length_insert. split; [exact Hl|lia].
  - unfold UART_RX_BUFFER_SIZE.
    destruct (Z.geb_spec (rx_index st) (64 - 1)) as [Hge|Hlt];
      cbn [fst]; unfold rx_ok; cbn [rx_buffer rx_index set_rx].
    + split; [exact Hl|lia].
    + rewrite length_insert. split; [exact Hl|].
      unfold u16. rewrite Z.mod_small; lia.
Qed.

Lemma same_rx_trans st1 st2 st3 : same_rx st1 st2 -> same_rx st2 st3 -> same_rx st1 st3.
Proof. intros [A B] [C D]. split; congruence. Qed.

(** The part of a turn before the byte is processed leaves the line
    buffer alone. *)
Lemma comm_task_iteration_rx wd_id env st :
  match received env with
  | None => same_rx st (fst (comm_task_iteration wd_id env st))
  | Some (c, avail) =>
      exists st3, same_rx st st3 /\
        same_rx (fst (process_received_char (dispatch env) c st3))
                (fst (comm_task_iteration wd_id env st)) /\
        signals (snd (comm_task_iteration wd_id env st)) =
          signals (snd (process_received_char (dispatch env) c st3))
  end /\
  (received env = None -> signals (snd (comm_task_iteration wd_id env st)) = []).
Proof.
  unfold comm_task_iteration.
  pose proof (ping_block_quiet (ping_status env) (now env) st) as (_ & _ & _ & Hr1).
  assert (Hs1 : signals (snd (ping_block (ping_status env) (now env) st)) = []).
  { unfold ping_block, get_random_jitter.
    set (st1 := if last_ping_sent st =? 0 then _ else st). clearbody st1.
    destruct (u32 (now env - last_ping_sent st1) >=? _); [|reflexivity].
    pose proof (signals_transmit_with_retry (ping_status env) ("STM32_PING" +:+ CRLF) 12
                  eq_refl) as H.
    destruct (transmit_with_retry (ping_status env) ("STM32_PING" +:+ CRLF) 12)
      as [status t].
    cbn [fst snd] in H.
    destruct (is_HAL_OK status); cbn [fst snd]; now rewrite signals_app, H. }
  destruct (ping_block (ping_status env) (now env) st) as [st1 t1].
  pose proof (ping_timeout_block_notices (now env) st1) as (_ & _ & _ & _ & Hr2).
  assert (Hs2 : signals (snd (ping_timeout_block (now env) st1)) = []).
  { rewrite ping_timeout_block_spec.
    destruct (waiting_for_pong st1 && _); [|reflexivity].
    now destruct (uart_connection_ok st1). }
  destruct (ping_timeout_block (now env) st1) as [st2 t2].
  cbn [fst snd] in *.
  destruct (received env) as [[c avail]|].
  - pose proof (high_water_block_notices avail st2) as (_ & _ & _ & Hr3).
    assert (Hs3 : signals (snd (high_water_block avail st2)) = []).
    { unfold high_water_block. destruct (avail >? 64); [|reflexivity].
      now destruct (negb (buffer_warning_shown st2)). }
    destruct (high_water_block avail st2) as [st3 t3].
    destruct (process_received_char (dispatch env) c st3) as [st4 t4] eqn:E4.
    cbn [fst snd] in *. split; [|discriminate].
    exists st3. rewrite E4. cbn [fst snd].
    split; [eauto using same_rx_trans|]. split; [now split|].
    rewrite !signals_app, Hs1, Hs2, Hs3.
    now destruct (wd_id =? Watchdog.WATCHDOG_INVALID_ID).
  - cbn [fst snd]. split; [eauto using same_rx_trans|]. intros _.
    rewrite !signals_app, Hs1, Hs2.
    now destruct (wd_id =? Watchdog.WATCHDOG_INVALID_ID).
Qed.

Lemma rx_ok_comm_task_iteration wd_id env st :
  rx_ok st -> rx_ok (fst (comm_task_iteration wd_id env st)).
Proof.
  intros Hok. destruct (comm_task_iteration_rx wd_id env st) as [H _].
  destruct (received env) as [[c avail]|].
  - destruct H as (st3 & H3 & H4 & _).
    eapply rx_ok_same_rx; [exact H4|].
    apply rx_ok_process_received_char. eapply rx_ok_same_rx; eassumption.
  - eapply rx_ok_same_rx; eassumption.
Qed.

(** X2. In every run of the task loop from the initial statics, whatever
    bytes arrive, the line buffer keeps its 64 cells and the cursor
    [rx_index] stays between 0 and 63: every store into [rx_buffer], the
    terminating NUL included, is inside the array. *)
Theorem X2_line_buffer_in_bounds :
  forall (wd_id : Z) (envs : list iteration_env),
    rx_ok (fst (comm_task_run wd_id envs initial_state)).
Proof.
  intros wd_id envs.
  assert (H : forall st, rx_ok st -> rx_ok (fst (comm_task_run wd_id envs st))).
  { induction envs as [|env rest IH]; intros st Hst; [exact Hst|].
    rewrite comm_task_run_step. cbn [fst].
    apply IH. now apply rx_ok_comm_task_iteration. }
  apply H. split; [reflexivity|]. cbn. lia.
Qed.


(** *** Line assembly inside the task loop *)

Lemma assembling_same_rx pre st st' :
  same_rx st st' -> assembling pre st -> assembling pre st'.
Proof. intros [Hb Hi] (Hl & Hx & Ht). unfold assembling. now rewrite Hb, Hi. Qed.

(** One character through the per-character block, in terms of the
    segment being read. *)
Lemma assembling_step pre c st env :
  assembling pre st ->
  if is_terminator c then
    replicate (length pre / 64)%nat Overflow ++
      signals (snd (process_received_char env c st)) = segment_signals pre /\
    assembling [] (fst (process_received_char env c st))
  else
    replicate (length pre / 64)%nat Overflow ++
      signals (snd (process_received_char env c st)) =
      replicate (length (pre ++ [c]) / 64)%nat Overflow /\
    assembling (pre ++ [c]) (fst (process_received_char env c st)).
Proof.
  intros Hst. destruct (is_terminator c) eqn:Hc.
  - destruct (assembling_close pre c st env Hst Hc) as [Hsig Hst'].
    split; [|exact Hst']. now rewrite Hsig.
  - pose proof (mod64_bound (length pre)) as Hb.
    rewrite length_app. change (length [c]) with 1%nat.
    destruct (Nat.eq_dec (length pre mod 64)%nat 63%nat) as [Heq|Hne].
    + destruct (assembling_overflow pre c st env Hst Hc Heq) as [Hsig Hst'].
      split; [|exact Hst']. rewrite Hsig.
      destruct (mod64_wrap (length pre) Heq) as [_ ->].
      now rewrite Nat.add_1_r, replicate_S_end.
    + assert (Hlt : (length pre mod 64 < 63)%nat) by lia.
      destruct (assembling_store pre c st env Hst Hc Hlt) as [Hsig Hst'].
      split; [|exact Hst']. rewrite Hsig, app_nil_r.
      now destruct (mod64_succ (length pre) Hlt) as [_ ->].
Qed.

Lemma comm_task_run_signals wd_id (envs : list iteration_env) :
  forall pre st, assembling pre st ->
    replicate (length pre / 64)%nat Overflow ++
    signals (snd (comm_task_run wd_id envs st)) =
    concat (map segment_signals (segments_from pre (received_bytes envs))) ++
    replicate (length (pending_from pre (received_bytes envs)) / 64)%nat Overflow
    /\ assembling (pending_from pre (received_bytes envs))
         (fst (comm_task_run wd_id envs st)).
Proof.
  induction envs as [|env rest IH]; intros pre st Hst.
  - cbn [comm_task_run received_bytes segments_from pending_from snd fst
           signals map concat app].
    split; [now rewrite app_nil_r | exact Hst].
  - rewrite comm_task_run_step. cbn [fst snd received_bytes].
    rewrite signals_app.
    destruct (comm_task_iteration_rx wd_id env st) as [Hrx Hnone].
    destruct (received env) as [[c avail]|].
    + destruct Hrx as (st3 & H3 & H4 & Hsig).
      pose proof (assembling_step pre c st3 (dispatch env)
                    (assembling_same_rx pre st st3 H3 Hst)) as Hstep.
      rewrite Hsig, app_assoc. cbn [segments_from pending_from].
      destruct (is_terminator c).
      * destruct Hstep as [-> Hst'].
        destruct (IH [] _ (assembling_same_rx _ _ _ H4 Hst')) as [IHsig IHst].
        change (replicate (length (@nil ascii) / 64)%nat Overflow)
          with (@nil signal) in IHsig.
        cbn [app] in IHsig. rewrite IHsig. cbn [map concat].
        split; [now rewrite app_assoc | exact IHst].
      * destruct Hstep as [-> Hst'].
        exact (IH _ _ (assembling_same_rx _ _ _ H4 Hst')).
    + rewrite (Hnone eq_refl). cbn [app].
      exact (IH _ _ (assembling_same_rx _ _ _ Hrx Hst)).
Qed.

(** X3. Line assembly inside the task loop depends on the bytes read and
    on nothing else: in every run from the initial statics, whatever the
    turns that time out, the probes, the health checks and the warnings in
    between, the lines dispatched and the overflows signalled are those of
    the bytes read, split on LF and CR (a segment of [n] bytes giving
    [n / 64] overflows, then its last [n mod 64] bytes as a line if there
    are any). *)
Theorem X3_task_loop_line_assembly :
  forall (wd_id : Z) (envs : list iteration_env),
    let bytes := received_bytes envs in
    signals (snd (comm_task_run wd_id envs initial_state)) =
      concat (map segment_signals (segments bytes)) ++
      replicate (length (pending bytes) / 64)%nat Overflow.
Proof.
  intros wd_id envs bytes.
  destruct (comm_task_run_signals wd_id envs [] initial_state assembling_initial)
    as [H _].
  exact H.
Qed.

(** *** The lines the dispatcher gets *)

Lemma segments_from_no_terminator input :
  forall pre,
    Forall (fun c => is_terminator c = false) pre ->
    Forall (Forall (fun c => is_terminator c = false)) (segments_from pre input).
Proof.
  induction input as [|c rest IH]; intros pre Hpre; [constructor|].
  cbn [segments_from]. destruct (is_terminator c) eqn:Hc.
  - constructor; [exact Hpre|]. apply IH. constructor.
  - apply IH. apply Forall_app. split; [exact Hpre|]. now constructor.
Qed.

Lemma c_str_chars (P : ascii -> Prop) (l : list ascii) :
  Forall P l ->
  Forall (fun c => c <> NUL /\ P c) (list_ascii_of_string (c_str l)) /\
  (String.length (c_str l) <= length l)%nat.
Proof.
  induction 1 as [|c l Hc _ [IH1 IH2]]; [split; [constructor|reflexivity]|].
  cbn [c_str]. destruct (Ascii.eqb_spec c NUL) as [|Hne].
  - split; [constructor|]. cbn. lia.
  - cbn [list_ascii_of_string String.length length]. split; [|lia].
    constructor; [now split | exact IH1].
Qed.

Lemma length_append_string (a b : string) :
  String.length (a +:+ b) = (String.length a + String.length b)%nat.
Proof.
  induction a as [|c a IH]; [reflexivity|].
  change (String c a +:+ b) with (String c (a +:+ b)).
  cbn [String.length]. now rewrite IH.
Qed.

Lemma substring_whole (s : string) (n : nat) :
  (String.length s <= n)%nat -> String.substring 0 n s = s.
Proof.
  revert n. induction s as [|c s IH]; intros n H.
  - now destruct n.
  - destruct n as [|n]; [cbn in H; lia|]. cbn. rewrite IH; [reflexivity|].
    cbn in H. lia.
Qed.

(** A line of at most 63 characters is logged whole. *)
Lemma debug_msg_whole line :
  (String.length line <= 63)%nat -> debug_msg line = debug_text line.
Proof.
  intros H. unfold debug_msg, debug_text, snprintf.
  apply substring_whole. rewrite !length_append_string.
  change (String.length "[ESP8266] ← Received: '") with 25%nat.
  change (String.length "'") with 1%nat. change (String.length CRLF) with 2%nat.
  lia.
Qed.

Lemma segment_signals_well_formed seg :
  Forall (fun c => is_terminator c = false) seg ->
  Forall well_formed_signal (segment_signals seg).
Proof.
  intros Hseg. unfold segment_signals. apply Forall_app. split.
  - apply Forall_forall. intros s Hs. apply elem_of_replicate in Hs as [-> _].
    exact I.
  - destruct (length seg mod 64 =? 0)%nat; constructor; [|constructor].
    assert (Hdrop : Forall (fun c => is_terminator c = false)
                      (last_chars (length seg mod 64) seg))
      by (unfold last_chars; now apply Forall_drop).
    destruct (c_str_chars _ _ Hdrop) as [Hchars Hlen].
    assert (Hk : (length (last_chars (length seg mod 64) seg) <= 63)%nat).
    { unfold last_chars. rewrite length_drop.
      pose proof (mod64_bound (length seg)). pose proof (mod64_le (length seg)). lia. }
    cbn [well_formed_signal].
    split; [lia|]. split; [exact Hchars|]. apply debug_msg_whole. lia.
Qed.

(** X4. Every line that the task loop hands to the dispatcher, in every
    run from the initial statics, has at most 63 characters, none of them
    NUL, CR or LF; so the debug line that the dispatcher formats into its
    128-byte buffer is never cut. *)
Theorem X4_dispatched_lines_well_formed :
  forall (wd_id : Z) (envs : list iteration_env),
    Forall well_formed_signal (signals (snd (comm_task_run wd_id envs initial_state))).
Proof.
  intros wd_id envs.
  destruct (comm_task_run_signals wd_id envs [] initial_state assembling_initial)
    as [H _].
  change (replicate (length (@nil ascii) / 64)%nat Overflow)
    with (@nil signal) in H.
  cbn [app] in H. rewrite H.
  apply Forall_app. split.
  - apply Forall_concat, Forall_fmap.
    eapply Forall_impl; [apply segments_from_no_terminator; constructor|].
    intros seg Hseg. now apply segment_signals_well_formed.
  - apply Forall_forall. intros s Hs. apply elem_of_replicate in Hs as [-> _].
    exact I.
Qed.

End CommTaskMore.

(** ** The turn of the task loop: watchdog feed, read and time budget *)

Section TurnBudget.

Import Esp8266Comm.

Lemma feeds_app t1 t2 : feeds (t1 ++ t2) = feeds t1 ++ feeds t2.
Proof.
  induction t1 as [|e t1 IH]; [reflexivity|].
  destruct e; cbn [app feeds]; now rewrite IH.
Qed.

Lemma reads_app t1 t2 : reads (t1 ++ t2) = reads t1 ++ reads t2.
Proof.
  induction t1 as [|e t1 IH]; [reflexivity|].
  destruct e; cbn [app reads]; now rewrite IH.
Qed.

Lemma total_suspension_app t1 t2 :
  total_suspension (t1 ++ t2) = total_suspension t1 + total_suspension t2.
Proof.
  induction t1 as [|e t1 IH]; [reflexivity|].
  cbn [app total_suspension]. rewrite IH. lia.
Qed.

Lemma quiet_within_app b1 b2 t1 t2 :
  quiet_within b1 t1 -> quiet_within b2 t2 -> quiet_within (b1 + b2) (t1 ++ t2).
Proof.
  intros (F1 & R1 & S1) (F2 & R2 & S2). unfold quiet_within.
  rewrite feeds_app, reads_app, total_suspension_app, F1, F2, R1, R2.
  repeat split; lia.
Qed.

Lemma quiet_within_le b b' t : b <= b' -> quiet_within b t -> quiet_within b' t.
Proof. intros Hle (F & R & S). repeat split; trivial; lia. Qed.

Lemma quiet_within_nil : quiet_within 0 [].
Proof. repeat split; cbn; lia. Qed.

Lemma quiet_within_print msg : quiet_within 100 [PrintMessage msg].
Proof. repeat split; vm_compute; congruence. Qed.

Lemma quiet_within_transmit_with_retry tx pData Size :
  quiet_within 330 (snd (transmit_with_retry tx pData Size)).
Proof.
  rewrite transmit_with_retry_spec. unfold first_success.
  destruct (is_HAL_OK (tx 0%nat)); [repeat split; vm_compute; congruence|].
  destruct (is_HAL_OK (tx 1%nat)); [repeat split; vm_compute; congruence|].
  destruct (is_HAL_OK (tx 2%nat)); repeat split; vm_compute; congruence.
Qed.

Lemma quiet_within_process_led_command env line st :
  quiet_within 630 (snd (process_led_command env line st)).
Proof.
  unfold process_led_command.
  destruct (strncmp line "PING" 4 =? 0).
  { pose proof (quiet_within_transmit_with_retry (tx_status env) ("PONG" +:+ CRLF) 6) as H.
    destruct (transmit_with_retry (tx_status env) ("PONG" +:+ CRLF) 6) as [s t].
    cbn [fst snd] in *.
    apply (quiet_within_le (100 + (330 + 100))); [lia|].
    apply quiet_within_app; [apply quiet_within_print|].
    apply quiet_within_app; [exact H | apply quiet_within_print]. }
  destruct (strncmp line "STM32_PONG" 10 =? 0).
  { cbn [fst snd].
    apply (quiet_within_le (100 + (100 + 100))); [lia|].
    apply quiet_within_app; [apply quiet_within_print|].
    apply quiet_within_app; [|apply quiet_within_print].
    destruct (negb (uart_connection_ok st));
      [apply quiet_within_print
      | apply (quiet_within_le 0); [lia | apply quiet_within_nil]]. }
  destruct (strncmp line "LED_CMD:" 8 =? 0);
    [|apply (quiet_within_le 100); [lia | apply quiet_within_print]].
  destruct (led_command_switch (char_at line 8)) as [[pattern ack_msg] log_msg].
  pose proof (quiet_within_transmit_with_retry (tx_status env) ack_msg (strlen ack_msg)) as H.
  destruct (transmit_with_retry (tx_status env) ack_msg (strlen ack_msg)) as [s t].
  cbn [fst snd] in H.
  assert (Happlied : forall applied : trace,
            quiet_within 0 applied ->
            quiet_within 630
              (PrintMessage
                 (snprintf 128 ("[ESP8266] ← Received: '" +:+ line +:+ "'" +:+ CRLF))
               :: applied ++ t ++
               (if is_HAL_OK s then []
                else [PrintMessage ("[LED] ERROR: Failed to send ACK to ESP8266" +:+ CRLF)])
               ++ [PrintMessage log_msg])).
  { intros applied Ha.
    apply (quiet_within_le (100 + (0 + (330 + (100 + 100))))); [lia|].
    apply (quiet_within_app 100 _ [_]); [apply quiet_within_print|].
    apply quiet_within_app; [exact Ha|].
    apply quiet_within_app; [exact H|].
    apply quiet_within_app; [|apply quiet_within_print].
    destruct (is_HAL_OK s);
      [apply (quiet_within_le 0); [lia | apply quiet_within_nil]
      | apply quiet_within_print]. }
  destruct pattern as [p|]; cbn [fst snd]; apply Happlied.
  - repeat split; cbn; lia.
  - apply quiet_within_nil.
Qed.

Lemma quiet_within_process_received_char env c st :
  quiet_within 630 (snd (process_received_char env c st)).
Proof.
  unfold process_received_char.
  destruct (Ascii.eqb c LF || Ascii.eqb c CR).
  - destruct (rx_index st >? 0);
      [|apply (quiet_within_le 0); [lia | apply quiet_within_nil]].
    set (buf := <[Z.to_nat (rx_index st) := NUL]> (rx_buffer st)).
    pose proof (quiet_within_process_led_command env (c_str buf)
                  (set_rx buf (rx_index st) st)) as H.
    destruct (process_led_command env (c_str buf) (set_rx buf (rx_index st) st))
      as [st1 t].
    cbn [fst snd] in *. destruct H as (F & R & S). now repeat split.
  - destruct (rx_index st >=? UART_RX_BUFFER_SIZE - 1); cbn [fst snd].
    + repeat split; vm_compute; congruence.
    + apply (quiet_within_le 0); [lia | apply quiet_within_nil].
Qed.

Lemma quiet_within_ping_block tx now st :
  quiet_within 430 (snd (ping_block tx now st)).
Proof.
  unfold ping_block, get_random_jitter.
  set (st1 := if last_ping_sent st =? 0 then _ else st). clearbody st1.
  destruct (u32 (now - last_ping_sent st1) >=? _);
    [|apply (quiet_within_le 0); [lia | apply quiet_within_nil]].
  pose proof (quiet_within_transmit_with_retry tx ("STM32_PING" +:+ CRLF) 12) as H.
  destruct (transmit_with_retry tx ("STM32_PING" +:+ CRLF) 12) as [status t].
  cbn [fst snd] in H.
  destruct (is_HAL_OK status); cbn [fst snd];
    (apply (quiet_within_app 330 100); [exact H | apply quiet_within_print]).
Qed.

Lemma quiet_within_ping_timeout_block now st :
  quiet_within 200 (snd (ping_timeout_block now st)).
Proof.
  rewrite ping_timeout_block_spec.
  destruct (waiting_for_pong st && _);
    [|apply (quiet_within_le 0); [lia | apply quiet_within_nil]].
  destruct (uart_connection_ok st); cbn [fst snd].
  - repeat split; vm_compute; congruence.
  - apply (quiet_within_le 0); [lia | apply quiet_within_nil].
Qed.

Lemma quiet_within_high_water_block bytes_available st :
  quiet_within 100 (snd (high_water_block bytes_available st)).
Proof.
  unfold high_water_block.
  destruct (bytes_available >? 64);
    [|apply (quiet_within_le 0); [lia | apply quiet_within_nil]].
  destruct (negb (buffer_warning_shown st)); cbn [fst snd].
  - apply quiet_within_print.
  - apply (quiet_within_le 0); [lia | apply quiet_within_nil].
Qed.

(** One turn of the task loop: before the read, pieces that neither read
    nor feed; the read; the feed; after it, pieces that neither read nor
    feed. *)
Lemma comm_task_iteration_shape wd_id env st :
  exists before after,
    snd (comm_task_iteration wd_id env st) =
      before ++ [StreamReceive 1 100] ++
      (if wd_id =? Watchdog.WATCHDOG_INVALID_ID then [] else [Feed wd_id]) ++ after /\
    quiet_within 630 before /\ quiet_within 730 after.
Proof.
  unfold comm_task_iteration.
  pose proof (quiet_within_ping_block (ping_status env) (now env) st) as H1.
  destruct (ping_block (ping_status env) (now env) st) as [st1 t1].
  pose proof (quiet_within_ping_timeout_block (now env) st1) as H2.
  destruct (ping_timeout_block (now env) st1) as [st2 t2].
  cbn [fst snd] in *.
  exists (t1 ++ t2).
  destruct (received env) as [[c avail]|].
  - pose proof (quiet_within_high_water_block avail st2) as H3.
    destruct (high_water_block avail st2) as [st3 t3].
    pose proof (quiet_within_process_received_char (dispatch env) c st3) as H4.
    destruct (process_received_char (dispatch env) c st3) as [st4 t4].
    cbn [fst snd] in *. exists (t3 ++ t4). split; [|split].
    + change (pdMS_TO_TICKS 100) with 100.
      destruct (wd_id =? Watchdog.WATCHDOG_INVALID_ID);
        now rewrite <- !app_assoc.
    + now apply (quiet_within_app 430 200).
    + now apply (quiet_within_app 100 630).
  - cbn [fst snd]. exists []. split; [|split].
    + change (pdMS_TO_TICKS 100) with 100.
      destruct (wd_id =? Watchdog.WATCHDOG_INVALID_ID);
        now rewrite <- !app_assoc.
    + now apply (quiet_within_app 430 200).
    + apply (quiet_within_le 0); [lia | apply quiet_within_nil].
Qed.

(** X5. Every turn of the task loop, whatever happens in it (a read that
    times out, a byte, a line dispatched, an overflow, a probe, an alert),
    reads the stream buffer exactly once, for one byte and with a timeout
    of 100 ticks, and feeds the watchdog exactly once, with the id the task
    registered under; with the invalid id it never feeds. *)
Theorem X5_one_read_one_feed_per_turn :
  forall (wd_id : Z) (envs : list iteration_env) (st : state),
    reads (snd (comm_task_run wd_id envs st)) = replicate (length envs) (1, 100) /\
    feeds (snd (comm_task_run wd_id envs st)) =
      if wd_id =? Watchdog.WATCHDOG_INVALID_ID then []
      else replicate (length envs) wd_id.
Proof.
  intros wd_id envs. induction envs as [|env rest IH]; intros st.
  - cbn. now destruct (wd_id =? Watchdog.WATCHDOG_INVALID_ID).
  - rewrite comm_task_run_step. cbn [fst snd length replicate].
    destruct (IH (fst (comm_task_iteration wd_id env st))) as [IHr IHf].
    destruct (comm_task_iteration_shape wd_id env st)
      as (before & after & -> & (Fb & Rb & _) & (Fa & Ra & _)).
    rewrite !reads_app, !feeds_app, IHr, IHf, Fb, Rb, Fa, Ra.
    destruct (wd_id =? Watchdog.WATCHDOG_INVALID_ID); now cbn.
Qed.

(** X6. The calls of one turn of the task loop can keep the task waiting
    for 1460 ticks at most, all timeouts added up (the probe and its
    retries, the alert, the read, the warning, and the longest dispatch, a
    LED command whose acknowledgement fails three times): less than a third
    of the 5000 ms the task registers with the watchdog. *)
Theorem X6_turn_time_budget :
  forall (wd_id : Z) (env : iteration_env) (st : state),
    0 <= total_suspension (snd (comm_task_iteration wd_id env st)) <= 1460.
Proof.
  intros wd_id env st.
  destruct (comm_task_iteration_shape wd_id env st)
    as (before & after & -> & (_ & _ & Sb) & (_ & _ & Sa)).
  rewrite !total_suspension_app.
  destruct (wd_id =? Watchdog.WATCHDOG_INVALID_ID);
    cbn [total_suspension suspension]; lia.
Qed.

End TurnBudget.

(** ** The probe: when it is sent and what its outcome leaves *)

Section Probe.

Import Esp8266Comm.

Lemma get_random_jitter_bounds max seed :
  0 < max -> 0 <= snd (get_random_jitter max seed) < max.
Proof.
  intros Hmax. unfold get_random_jitter. cbn [snd].
  apply Z.mod_pos_bound. lia.
Qed.

Lemma same_ping_refl st : same_ping st st.
Proof. now repeat split. Qed.

Lemma same_ping_trans st1 st2 st3 :
  same_ping st1 st2 -> same_ping st2 st3 -> same_ping st1 st3.
Proof. intros (A & B & C) (D & E & F). repeat split; congruence. Qed.

Lemma same_ping_process_led_command env line st :
  same_ping st (fst (process_led_command env line st)).
Proof.
  unfold process_led_command.
  destruct (strncmp line "PING" 4 =? 0).
  { destruct (transmit_with_retry (tx_status env) ("PONG" +:+ CRLF) 6) as [s t].
    apply same_ping_refl. }
  destruct (strncmp line "STM32_PONG" 10 =? 0); [now repeat split|].
  destruct (strncmp line "LED_CMD:" 8 =? 0); [|apply same_ping_refl].
  destruct (led_command_switch (char_at line 8)) as [[pattern ack_msg] log_msg].
  destruct (transmit_with_retry (tx_status env) ack_msg (strlen ack_msg)) as [s t].
  destruct pattern; now repeat split.
Qed.

Lemma same_ping_process_received_char env c st :
  same_ping st (fst (process_received_char env c st)).
Proof.
  unfold process_received_char.
  destruct (Ascii.eqb c LF || Ascii.eqb c CR).
  - destruct (rx_index st >? 0); [|apply same_ping_refl].
    set (buf := <[Z.to_nat (rx_index st) := NUL]> (rx_buffer st)).
    pose proof (same_ping_process_led_command env (c_str buf)
                  (set_rx buf (rx_index st) st)) as H.
    destruct (process_led_command env (c_str buf) (set_rx buf (rx_index st) st))
      as [st1 t].
    cbn [fst snd] in *. destruct H as (A & B & C). now repeat split.
  - destruct (rx_index st >=? UART_RX_BUFFER_SIZE - 1); now repeat split.
Qed.

Lemma same_ping_ping_timeout_block now st :
  same_ping st (fst (ping_timeout_block now st)).
Proof.
  rewrite ping_timeout_block_spec.
  destruct (waiting_for_pong st && _); now repeat split.
Qed.

Lemma same_ping_high_water_block bytes_available st :
  same_ping st (fst (high_water_block bytes_available st)).
Proof.
  unfold high_water_block.
  destruct (bytes_available >? 64); [|apply same_ping_refl].
  destruct (negb (buffer_warning_shown st)); now repeat split.
Qed.

(** Of a whole turn, only the ping block touches the probe schedule. *)
Lemma same_ping_comm_task_iteration wd_id env st :
  same_ping (fst (ping_block (ping_status env) (now env) st))
            (fst (comm_task_iteration wd_id env st)).
Proof.
  unfold comm_task_iteration.
  destruct (ping_block (ping_status env) (now env) st) as [st1 t1].
  pose proof (same_ping_ping_timeout_block (now env) st1) as H2.
  destruct (ping_timeout_block (now env) st1) as [st2 t2].
  cbn [fst snd] in *.
  destruct (received env) as [[c avail]|]; [|exact H2].
  pose proof (same_ping_high_water_block avail st2) as H3.
  destruct (high_water_block avail st2) as [st3 t3].
  pose proof (same_ping_process_received_char (dispatch env) c st3) as H4.
  destruct (process_received_char (dispatch env) c st3) as [st4 t4].
  cbn [fst snd] in *.
  exact (same_ping_trans _ _ _ H2 (same_ping_trans _ _ _ H3 H4)).
Qed.

(** The state in which the ping block makes its test: the jitter is drawn
    anew as long as no probe has been sent. *)
Lemma ping_block_drawn st :
  let st1 := if last_ping_sent st =? 0 then
               let '(seed, jitter) :=
                 get_random_jitter STM32_PING_JITTER_MS (ping_random_seed st) in
               set_jitter seed jitter st
             else st in
  jitter_ok st ->
  jitter_ok st1 /\ last_ping_sent st1 = last_ping_sent st /\
  waiting_for_pong st1 = waiting_for_pong st.
Proof.
  intros st1 Hj. subst st1.
  destruct (last_ping_sent st =? 0); [|split; [exact Hj | now split]].
  pose proof (get_random_jitter_bounds STM32_PING_JITTER_MS (ping_random_seed st)
                eq_refl) as Hb.
  destruct (get_random_jitter STM32_PING_JITTER_MS (ping_random_seed st))
    as [seed jitter].
  split; [exact Hb | now split].
Qed.

Lemma jitter_ok_ping_block tx now st :
  jitter_ok st -> jitter_ok (fst (ping_block tx now st)).
Proof.
  intros Hj. unfold ping_block.
  destruct (ping_block_drawn st Hj) as (Hj1 & _ & _).
  set (st1 := if last_ping_sent st =? 0 then _ else st) in *. clearbody st1.
  destruct (u32 (now - last_ping_sent st1) >=? _); [|exact Hj1].
  destruct (transmit_with_retry tx ("STM32_PING" +:+ CRLF) 12) as [status t].
  destruct (is_HAL_OK status); [|exact Hj1].
  set (st2 := set_link _ _ _ _ st1).
  pose proof (get_random_jitter_bounds STM32_PING_JITTER_MS (ping_random_seed st2)
                eq_refl) as Hb.
  destruct (get_random_jitter STM32_PING_JITTER_MS (ping_random_seed st2))
    as [seed jitter].
  exact Hb.
Qed.

Lemma jitter_ok_comm_task_run wd_id envs :
  forall st, jitter_ok st -> jitter_ok (fst (comm_task_run wd_id envs st)).
Proof.
  induction envs as [|env rest IH]; intros st Hj; [exact Hj|].
  rewrite comm_task_run_step. cbn [fst]. apply IH.
  destruct (same_ping_comm_task_iteration wd_id env st) as (_ & _ & H).
  unfold jitter_ok. rewrite H.
  exact (jitter_ok_ping_block (ping_status env) (now env) st Hj).
Qed.

Lemma pdMS_TO_TICKS_small x : 0 <= x < 2 ^ 32 -> pdMS_TO_TICKS x = x.
Proof.
  intros H. unfold pdMS_TO_TICKS, configTICK_RATE_HZ.
  rewrite Z.div_mul by lia. now apply u32_small.
Qed.

Lemma ping_block_schedule tx now st :
  jitter_ok st ->
  (u32 (now - last_ping_sent st) < 10000 -> ping_block tx now st = 
     (fst (ping_block tx now st), [])) /\
  (12000 <= u32 (now - last_ping_sent st) ->
     exists rest,
       snd (ping_block tx now st) = Transmit huart2 probe_frame 12 100 :: rest).
Proof.
  intros Hj. unfold ping_block.
  destruct (ping_block_drawn st Hj) as (Hj1 & Hl & _).
  set (st1 := if last_ping_sent st =? 0 then _ else st) in *. clearbody st1.
  rewrite Hl. unfold STM32_PING_INTERVAL_MS. unfold jitter_ok in Hj1.
  rewrite (u32_small (10000 + next_ping_jitter st1)) by lia.
  rewrite pdMS_TO_TICKS_small by lia.
  destruct (Z.geb_spec (u32 (now - last_ping_sent st)) (10000 + next_ping_jitter st1))
    as [Hge|Hlt].
  - split; [lia|]. intros _.
    rewrite transmit_with_retry_spec. fold probe_frame. unfold first_success.
    destruct (is_HAL_OK (tx 0%nat)); [cbn; eauto|].
    destruct (is_HAL_OK (tx 1%nat)); [cbn; eauto|].
    destruct (is_HAL_OK (tx 2%nat)) eqn:E2; [cbn; eauto|].
    rewrite E2. cbn. eauto.
  - split; [reflexivity | lia].
Qed.

(** X7. When the probe goes out. In every state that the task loop reaches
    from the initial statics, and for every tick count read at the top of
    the next turn: if fewer than 10000 ticks have passed since the last
    probe that was sent, the ping block transmits nothing and logs
    nothing; if 12000 or more have passed, it transmits the probe
    [STM32_PING]. (In between, the jitter drawn decides.) The count is
    modulo 2^32, and before the first probe it is from tick 0. *)
Theorem X7_probe_schedule :
  forall (wd_id : Z) (envs : list iteration_env)
         (tx : nat -> HAL_StatusTypeDef) (tick : Z),
    let st := fst (comm_task_run wd_id envs initial_state) in
    let elapsed := u32 (tick - last_ping_sent st) in
    (elapsed < 10000 -> snd (ping_block tx tick st) = []) /\
    (12000 <= elapsed ->
       exists rest,
         snd (ping_block tx tick st) = Transmit huart2 probe_frame 12 100 :: rest).
Proof.
  intros wd_id envs tx tick st elapsed.
  assert (Hj : jitter_ok st).
  { apply jitter_ok_comm_task_run. unfold jitter_ok. cbn. lia. }
  destruct (ping_block_schedule tx tick st Hj) as [H1 H2].
  split; [|exact H2].
  intros Hlt. now rewrite (H1 Hlt).
Qed.

Lemma X7_probe_schedule_witness :
  snd (ping_block (fun _ => HAL_OK) 9999 initial_state) = [] /\
  exists rest,
    snd (ping_block (fun _ => HAL_OK) 12000 initial_state) =
      Transmit huart2 probe_frame 12 100 :: rest.
Proof.
  assert (H1 : u32 (9999 - last_ping_sent initial_state) < 10000)
    by (vm_compute; reflexivity).
  assert (H2 : 12000 <= u32 (12000 - last_ping_sent initial_state))
    by (vm_compute; discriminate).
  split.
  - exact (proj1 (X7_probe_schedule 0 [] (fun _ => HAL_OK) 9999) H1).
  - exact (proj2 (X7_probe_schedule 0 [] (fun _ => HAL_OK) 12000) H2).
Defined.



End Probe.

(** ** The dispatcher: how a line is recognised, and what it leaves alone *)

Section DispatcherMore.

Import Esp8266Comm.

Lemma code_inj c1 c2 : code c1 = code c2 -> c1 = c2.
Proof.
  unfold code. intros H. apply N2Z.inj in H.
  rewrite <- (ascii_N_embedding c1), <- (ascii_N_embedding c2). now rewrite H.
Qed.

Lemma code_NUL c : code c = 0 -> c = NUL.
Proof. intros H. apply code_inj. exact H. Qed.

(** [strncmp(s, p, strlen(p)) == 0] says that [p] is a prefix of [s]. *)
Lemma strncmp_prefix (p : string) :
  Forall (fun c => c <> NUL) (list_ascii_of_string p) ->
  forall s, (strncmp s p (String.length p) =? 0) = String.prefix p s.
Proof.
  induction p as [|c2 p IH]; intros Hp s.
  - now destruct s.
  - apply Forall_cons in Hp as [Hc Hp].
    destruct s as [|c1 s]; cbn [strncmp String.length String.prefix].
    + apply Z.eqb_neq. intros H. apply Hc, code_NUL. lia.
    + destruct (ascii_dec c2 c1) as [->|Hne].
      * rewrite Ascii.eqb_refl. now apply IH.
      * destruct (Ascii.eqb_spec c1 c2) as [->|Hne']; [contradiction|].
        apply Z.eqb_neq. intros H. apply Hne'. apply code_inj. lia.
Qed.

Lemma is_PING line : (strncmp line "PING" 4 =? 0) = String.prefix "PING" line.
Proof. apply (strncmp_prefix "PING"). repeat constructor; discriminate. Qed.

Lemma is_STM32_PONG line :
  (strncmp line "STM32_PONG" 10 =? 0) = String.prefix "STM32_PONG" line.
Proof. apply (strncmp_prefix "STM32_PONG"). repeat constructor; discriminate. Qed.

Lemma is_LED_CMD line :
  (strncmp line "LED_CMD:" 8 =? 0) = String.prefix "LED_CMD:" line.
Proof. apply (strncmp_prefix "LED_CMD:"). repeat constructor; discriminate. Qed.

(** X9. The dispatcher recognises a line by its prefix, compared character
    by character (so in the same case): a line that starts with none of
    [PING], [STM32_PONG] and [LED_CMD:] is logged and nothing else, and the
    statics stay as they are; a line that starts with one of them always
    causes more than the debug log. *)
Theorem X9_lines_recognised_by_prefix :
  forall (env : dispatch_env) (line : string) (st : state),
    let known := String.prefix "PING" line || String.prefix "STM32_PONG" line ||
                 String.prefix "LED_CMD:" line in
    (known = false ->
       process_led_command env line st = (st, [PrintMessage (debug_msg line)])) /\
    (known = true ->
       exists more,
         more <> [] /\
         snd (process_led_command env line st) = PrintMessage (debug_msg line) :: more).
Proof.
  intros env line st known. subst known.
  unfold process_led_command. fold (debug_msg line).
  rewrite is_PING, is_STM32_PONG, is_LED_CMD.
  destruct (String.prefix "PING" line).
  { split; [discriminate|]. intros _.
    destruct (transmit_with_retry (tx_status env) ("PONG" +:+ CRLF) 6) as [s t].
    cbn [fst snd app]. eexists. split; [|reflexivity].
    now destruct t. }
  destruct (String.prefix "STM32_PONG" line).
  { split; [discriminate|]. intros _.
    cbn [fst snd app]. eexists. split; [|reflexivity].
    now destruct (negb (uart_connection_ok st)). }
  destruct (String.prefix "LED_CMD:" line); [|split; [reflexivity|discriminate]].
  split; [discriminate|]. intros _.
  destruct (led_command_switch (char_at line 8)) as [[pattern ack_msg] log_msg].
  destruct (transmit_with_retry (tx_status env) ack_msg (strlen ack_msg)) as [s t].
  destruct pattern; cbn [fst snd app]; (eexists; split; [|reflexivity]).
  - discriminate.
  - destruct t; [|discriminate]. now destruct (is_HAL_OK s).
Qed.

Lemma X9_lines_recognised_by_prefix_witness :
  process_led_command {| tx_status := fun _ => HAL_OK; tick_count := 0 |}
                      "ping" initial_state =
    (initial_state, [PrintMessage (debug_msg "ping")]).
Proof.
  refine (proj1 (X9_lines_recognised_by_prefix
                   {| tx_status := fun _ => HAL_OK; tick_count := 0 |}
                   "ping" initial_state) _).
  vm_compute. reflexivity.
Defined.

(** X10. What the dispatcher leaves alone, whatever the line and the
    answers of the HAL: the line buffer and its index, the probe schedule
    (time of the last probe, seed, jitter) and the warning flag, always;
    the LED pattern, unless the line starts with [LED_CMD:]; the link
    state (time of the last response, awaiting flag, health flag), unless
    the line starts with [STM32_PONG]. *)
Theorem X10_dispatcher_frame :
  forall (env : dispatch_env) (line : string) (st : state),
    let st' := fst (process_led_command env line st) in
    same_rx st st' /\ same_ping st st' /\
    buffer_warning_shown st' = buffer_warning_shown st /\
    (String.prefix "LED_CMD:" line = false ->
       current_pattern st' = current_pattern st) /\
    (String.prefix "STM32_PONG" line = false ->
       last_pong_received st' = last_pong_received st /\
       waiting_for_pong st' = waiting_for_pong st /\
       uart_connection_ok st' = uart_connection_ok st).
Proof.
  intros env line st st'. subst st'.
  unfold process_led_command, same_rx, same_ping.
  rewrite is_PING, is_STM32_PONG, is_LED_CMD.
  destruct (String.prefix "PING" line).
  { destruct (transmit_with_retry (tx_status env) ("PONG" +:+ CRLF) 6) as [s t].
    now repeat split. }
  destruct (String.prefix "STM32_PONG" line).
  { cbn [fst]. repeat split; discriminate. }
  destruct (String.prefix "LED_CMD:" line); [|now repeat split].
  destruct (led_command_switch (char_at line 8)) as [[pattern ack_msg] log_msg].
  destruct (transmit_with_retry (tx_status env) ack_msg (strlen ack_msg)) as [s t].
  destruct pattern; cbn [fst]; repeat split; discriminate.
Qed.

Lemma X10_dispatcher_frame_witness :
  current_pattern
    (fst (process_led_command {| tx_status := fun _ => HAL_OK; tick_count := 7 |}
            "STM32_PONG" initial_state)) = LED_PATTERN_NONE.
Proof.
  pose proof (X10_dispatcher_frame
                {| tx_status := fun _ => HAL_OK; tick_count := 7 |}
                "STM32_PONG" initial_state) as (_ & _ & _ & H & _).
  assert (Hp : String.prefix "LED_CMD:" "STM32_PONG" = false) by reflexivity.
  exact (H Hp).
Defined.

End DispatcherMore.

(** ** The log queue between its producers and the print task *)

Section LogQueue.

Import PrintTask.

Lemma printed_app t1 t2 : printed (t1 ++ t2) = printed t1 ++ printed t2.
Proof.
  induction t1 as [|e t1 IH]; [reflexivity|].
  destruct e as [[]| | | | | | | | | |]; cbn [app printed]; now rewrite IH.
Qed.

Lemma receives_app t1 t2 : receives (t1 ++ t2) = receives t1 ++ receives t2.
Proof.
  induction t1 as [|e t1 IH]; [reflexivity|].
  destruct e; cbn [app receives]; now rewrite IH.
Qed.

Lemma c_str_char_item c beyond :
  c_str (take PRINT_MESSAGE_MAX_SIZE ([c; NUL] ++ beyond)) = c_str [c].
Proof. cbn. now destruct (Ascii.eqb c NUL). Qed.

(** One post: the queue grows by the item when it has a free slot and
    stays as it is otherwise; the text of the item is the text posted. *)
Lemma post_step (e : logging_event) (q : list item) :
  (length q <= PRINT_QUEUE_DEPTH)%nat ->
  let r := match e with
           | Message_posted message => print_message (Some message) false (Some q)
           | Char_posted c beyond => print_char c beyond false (Some q)
           | Print_turn => (pdFAIL, Some q, [])
           end in
  e <> Print_turn ->
  let q1 := default q (snd (fst r)) in
  map c_str q1 =
    map c_str q ++ (if fst (fst r) =? pdPASS then [posted_text e] else []) /\
  (length q1 <= PRINT_QUEUE_DEPTH)%nat /\
  (fst (fst r) =? pdPASS) = (length q <? PRINT_QUEUE_DEPTH)%nat.
Proof.
  intros Hlen r He q1. subst q1 r.
  unfold PRINT_QUEUE_DEPTH in *.
  destruct e as [message|c beyond|]; [| |contradiction].
  - unfold print_message, xQueueSend, PRINT_QUEUE_DEPTH.
    destruct (Nat.ltb_spec (length q) 5) as [Hlt|Hge]; cbn [fst snd default from_option id].
    + rewrite map_app, length_app. cbn [map length posted_text].
      change (PRINT_MESSAGE_MAX_SIZE - 1)%nat with 255%nat.
      rewrite c_str_strncpy.
      repeat split; [lia].
    + change (errQUEUE_FULL =? pdPASS) with false.
      rewrite app_nil_r. now repeat split.
  - unfold print_char, xQueueSend, PRINT_QUEUE_DEPTH.
    destruct (Nat.ltb_spec (length q) 5) as [Hlt|Hge]; cbn [fst snd default from_option id].
    + rewrite map_app, length_app. cbn [map length posted_text].
      rewrite c_str_char_item.
      repeat split; [lia].
    + change (errQUEUE_FULL =? pdPASS) with false.
      rewrite app_nil_r. now repeat split.
Qed.

Lemma print_task_iteration_spec wd_id (q : list item) :
  let r := print_task_iteration wd_id q in
  printed (snd r) = map (fun it => (c_str it, strlen (c_str it))) (take 1 q) /\
  fst r = drop 1 q /\
  receives (snd r) = [2000] /\
  feeds (snd r) = if wd_id =? Watchdog.WATCHDOG_INVALID_ID then [] else [wd_id].
Proof.
  unfold print_task_iteration.
  destruct q as [|it rest]; cbn [fst snd];
    destruct (wd_id =? Watchdog.WATCHDOG_INVALID_ID); now cbn.
Qed.

Lemma logging_run_fifo wd_id (events : list logging_event) :
  forall q : list item,
    (length q <= PRINT_QUEUE_DEPTH)%nat ->
    let r := logging_run wd_id events q in
    map fst (printed (snd r)) ++ map c_str (snd (fst r)) =
      map c_str q ++ accepted events (fst (fst r)) /\
    (length (snd (fst r)) <= PRINT_QUEUE_DEPTH)%nat /\
    Forall (fun p => snd p = strlen (fst p)) (printed (snd r)).
Proof.
  induction events as [|e rest IH]; intros q Hlen.
  - cbn. rewrite app_nil_r. repeat split; [exact Hlen | constructor].
  - destruct e as [message|c beyond|].
    + pose proof (post_step (Message_posted message) q Hlen) as Hstep.
      cbn [logging_run].
      destruct (print_message (Some message) false (Some q)) as [[result pq] tr].
      cbn [fst snd] in Hstep.
      destruct (Hstep ltac:(discriminate)) as (Hq & Hl & _).
      specialize (IH (default q pq) Hl).
      destruct (logging_run wd_id rest (default q pq)) as [[results q2] t].
      cbn [fst snd accepted] in *. destruct IH as (IH1 & IH2 & IH3).
      rewrite IH1, Hq, <- app_assoc. now repeat split.
    + pose proof (post_step (Char_posted c beyond) q Hlen) as Hstep.
      cbn [logging_run].
      destruct (print_char c beyond false (Some q)) as [[result pq] tr].
      cbn [fst snd] in Hstep.
      destruct (Hstep ltac:(discriminate)) as (Hq & Hl & _).
      specialize (IH (default q pq) Hl).
      destruct (logging_run wd_id rest (default q pq)) as [[results q2] t].
      cbn [fst snd accepted] in *. destruct IH as (IH1 & IH2 & IH3).
      rewrite IH1, Hq, <- app_assoc. now repeat split.
    + cbn [logging_run].
      pose proof (print_task_iteration_spec wd_id q) as (Hp & Hq & _).
      destruct (print_task_iteration wd_id q) as [q1 t1].
      cbn [fst snd] in Hp, Hq. subst q1.
      assert (Hl : (length (drop 1 q) <= PRINT_QUEUE_DEPTH)%nat)
        by (rewrite length_drop; lia).
      specialize (IH (drop 1 q) Hl).
      destruct (logging_run wd_id rest (drop 1 q)) as [[results q2] t2].
      cbn [fst snd accepted] in *. destruct IH as (IH1 & IH2 & IH3).
      rewrite printed_app, map_app, <- app_assoc, IH1, app_assoc, Hp.
      split; [|split; [exact IH2|]].
      * f_equal. rewrite map_map. cbn [fst].
        rewrite <- map_app. now rewrite take_drop.
      * apply Forall_app. split; [|exact IH3].
        destruct q as [|it q']; repeat constructor.
Qed.

(** X11. The log queue is first in, first out, and loses nothing it has
    accepted. Whatever the interleaving of the posts ([print_message],
    [print_char]) and of the turns of the print task, starting from the
    empty queue that [print_task_init] creates: the texts handed to UART3,
    followed by the texts still queued, are the texts of the accepted
    posts (those that returned [pdPASS]), in the order of the posts, a
    message being cut to its first 255 characters and a character being
    logged alone; every text goes out with its own length as size; a post
    that was refused is never printed; and the queue never holds more than
    5 items. *)
Theorem X11_log_queue_fifo :
  forall (wd_id : Z) (events : list logging_event),
    let r := logging_run wd_id events (default [] print_task_init) in
    map fst (printed (snd r)) ++ map c_str (snd (fst r)) =
      accepted events (fst (fst r)) /\
    (length (snd (fst r)) <= PRINT_QUEUE_DEPTH)%nat /\
    Forall (fun p => snd p = strlen (fst p)) (printed (snd r)).
Proof.
  intros wd_id events.
  exact (logging_run_fifo wd_id events [] ltac:(cbn; lia)).
Qed.

Lemma logging_run_turns wd_id (events : list logging_event) :
  forall q : list item,
    let r := logging_run wd_id events q in
    receives (snd r) = replicate (print_turns events) 2000 /\
    feeds (snd r) =
      (if wd_id =? Watchdog.WATCHDOG_INVALID_ID then []
       else replicate (print_turns events) wd_id) /\
    (length (printed (snd r)) <= print_turns events)%nat.
Proof.
  induction events as [|e rest IH]; intros q.
  - cbn. destruct (wd_id =? Watchdog.WATCHDOG_INVALID_ID); repeat split; lia.
  - destruct e as [message|c beyond|]; cbn [logging_run print_turns].
    + destruct (print_message (Some message) false (Some q)) as [[result pq] tr].
      specialize (IH (default q pq)).
      destruct (logging_run wd_id rest (default q pq)) as [[results q2] t].
      exact IH.
    + destruct (print_char c beyond false (Some q)) as [[result pq] tr].
      specialize (IH (default q pq)).
      destruct (logging_run wd_id rest (default q pq)) as [[results q2] t].
      exact IH.
    + pose proof (print_task_iteration_spec wd_id q) as (Hp & _ & Hr & Hf).
      destruct (print_task_iteration wd_id q) as [q1 t1].
      specialize (IH q1).
      destruct (logging_run wd_id rest q1) as [[results q2] t2].
      cbn [fst snd] in *. destruct IH as (IH1 & IH2 & IH3).
      rewrite receives_app, feeds_app, printed_app, length_app,
        IH1, IH2, Hr, Hf, Hp, length_map, length_take.
      destruct (wd_id =? Watchdog.WATCHDOG_INVALID_ID);
        cbn [app replicate]; repeat split; lia.
Qed.

(** X12. The print task, at every turn and whether a message came or
    not, waits for a message once, for 2000 ticks at most, feeds the
    watchdog once under the id it registered with (never, with the invalid
    id), and hands at most one text to UART3. *)
Theorem X12_print_task_turn :
  forall (wd_id : Z) (events : list logging_event) (q : list item),
    let r := logging_run wd_id events q in
    receives (snd r) = replicate (print_turns events) 2000 /\
    feeds (snd r) =
      (if wd_id =? Watchdog.WATCHDOG_INVALID_ID then []
       else replicate (print_turns events) wd_id) /\
    (length (printed (snd r)) <= print_turns events)%nat.
Proof. exact logging_run_turns. Qed.

End LogQueue.

(** ** More on the watchdog *)

Section WatchdogMore.

Import Watchdog.

Lemma in_order_cells st :
  handed_out_in_order st ->
  exists e0 e1 e2,
    watchdog_tasks st = [e0; e1; e2] /\
    registered e0 = (0 <? num_registered st) /\
    registered e1 = (1 <? num_registered st) /\
    registered e2 = (2 <? num_registered st).
Proof.
  intros [Hm _].
  destruct (watchdog_tasks st) as [|e0 [|e1 [|e2 [|]]]]; try discriminate.
  exists e0, e1, e2. cbn in Hm. now inversion Hm.
Qed.

Lemma cells_in_order st e0 e1 e2 :
  watchdog_tasks st = [e0; e1; e2] ->
  registered e0 = (0 <? num_registered st) ->
  registered e1 = (1 <? num_registered st) ->
  registered e2 = (2 <? num_registered st) ->
  0 <= num_registered st <= 3 ->
  handed_out_in_order st.
Proof.
  intros Ht H0 H1 H2 Hn. split; [|exact Hn].
  rewrite Ht. cbn. now rewrite H0, H1, H2.
Qed.

(** [watchdog_register] on a table whose slots were handed out in
    order. *)
Lemma watchdog_register_in_order name timeout now st :
  handed_out_in_order st ->
  let n := num_registered st in
  let e := {| task_name := strncpy name 15 ++ [NUL]; timeout_ms := timeout;
              last_feed_tick := now; registered := true |} in
  fst (watchdog_register name timeout now st) =
    if n <? 3
    then (n, {| watchdog_tasks := <[Z.to_nat n := e]> (watchdog_tasks st);
                num_registered := n + 1;
                timeout_callback := timeout_callback st |})
    else (WATCHDOG_INVALID_ID, st).
Proof.
  intros Hio n e. subst n.
  destruct (in_order_cells st Hio) as (e0 & e1 & e2 & Ht & H0 & H1 & H2).
  destruct Hio as [_ Hn].
  assert (Hc : num_registered st = 0 \/ num_registered st = 1 \/
               num_registered st = 2 \/ num_registered st = 3) by lia.
  unfold watchdog_register. rewrite Ht.
  destruct Hc as [E|[E|[E|E]]]; rewrite E in *;
    cbn in H0, H1, H2; cbn [find_free_slot]; rewrite ?H0, ?H1, ?H2;
    reflexivity.
Qed.

Lemma watchdog_feed_cells id now st e0 e1 e2 :
  watchdog_tasks st = [e0; e1; e2] ->
  exists e0' e1' e2',
    watchdog_tasks (watchdog_feed id now st) = [e0'; e1'; e2'] /\
    registered e0' = registered e0 /\ registered e1' = registered e1 /\
    registered e2' = registered e2 /\
    num_registered (watchdog_feed id now st) = num_registered st.
Proof.
  intros Ht. unfold watchdog_feed.
  destruct (id >=? WATCHDOG_MAX_TASKS); [rewrite Ht; now eauto 10|].
  rewrite Ht.
  destruct (Z.to_nat id) as [|[|[|k]]]; cbn [lookup list_lookup].
  4: { destruct k; cbn [lookup list_lookup]; rewrite Ht; now eauto 10. }
  - destruct (registered e0) eqn:E; cbn [negb]; [|rewrite Ht; now eauto 10].
    cbn. eexists _, _, _. split; [reflexivity|]. now repeat split.
  - destruct (registered e1) eqn:E; cbn [negb]; [|rewrite Ht; now eauto 10].
    cbn. eexists _, _, _. split; [reflexivity|]. now repeat split.
  - destruct (registered e2) eqn:E; cbn [negb]; [|rewrite Ht; now eauto 10].
    cbn. eexists _, _, _. split; [reflexivity|]. now repeat split.
Qed.

Lemma reachable_in_order st : reachable st -> handed_out_in_order st.
Proof.
  induction 1 as [|name timeout now st _ IH|id now st _ IH|cb st _ IH|now st _ IH].
  - split; [reflexivity | cbn; lia].
  - pose proof (watchdog_register_in_order name timeout now st IH) as Hreg.
    destruct (in_order_cells st IH) as (e0 & e1 & e2 & Ht & H0 & H1 & H2).
    destruct IH as [Hm Hn].
    assert (Hc : num_registered st = 0 \/ num_registered st = 1 \/
                 num_registered st = 2 \/ num_registered st = 3) by lia.
    cbv zeta in Hreg.
    destruct (watchdog_register name timeout now st) as [[rid st'] t].
    cbn [fst snd] in *. rewrite Ht in Hreg.
    destruct Hc as [E|[E|[E|E]]]; rewrite E in *; cbn in H0, H1, H2, Hreg;
      inversion Hreg; subst;
      try (eapply cells_in_order; cbn; try reflexivity; try assumption; lia).
    split; rewrite E; [exact Hm | lia].
  - destruct (in_order_cells st IH) as (e0 & e1 & e2 & Ht & H0 & H1 & H2).
    destruct (watchdog_feed_cells id now st e0 e1 e2 Ht)
      as (e0' & e1' & e2' & Ht' & R0 & R1 & R2 & Rn).
    destruct IH as [_ Hn].
    eapply cells_in_order; [exact Ht'| | | |]; rewrite Rn; congruence || lia.
  - exact IH.
  - destruct (in_order_cells st IH) as (e0 & e1 & e2 & Ht & H0 & H1 & H2).
    destruct IH as [_ Hn].
    rewrite (watchdog_task_iteration_slots now st e0 e1 e2 Ht).
    eapply cells_in_order; [reflexivity| | | |];
      cbn [fst set_tasks num_registered watchdog_tasks];
      rewrite ?check_entry_registered; assumption.
Qed.

(** X13. The slots of the watchdog are handed out in order. In every
    state the module can reach, the registered slots are those below the
    counter [num_registered], which is between 0 and 3; so
    [watchdog_register] returns the counter itself as the new id and adds
    one to it, as long as it is below 3, and from then on returns the
    invalid id, always with the error logged: the second exit with the
    invalid id, after the search for a free slot, is never taken. *)
Theorem X13_ids_handed_out_in_order :
  forall (st : state) (name : string) (timeout now : Z),
    reachable st ->
    let r := watchdog_register name timeout now st in
    handed_out_in_order st /\
    fst (fst r) =
      (if num_registered st <? 3 then num_registered st else WATCHDOG_INVALID_ID) /\
    num_registered (snd (fst r)) = Z.min 3 (num_registered st + 1) /\
    (fst (fst r) = WATCHDOG_INVALID_ID ->
     snd r = [PrintMessage ("[WATCHDOG] ERROR: Max tasks reached!" +:+ CRLF)]).
Proof.
  intros st name timeout now Hreach r.
  pose proof (reachable_in_order st Hreach) as Hio.
  pose proof (watchdog_register_in_order name timeout now st Hio) as Hreg.
  cbv zeta in Hreg. fold r in Hreg.
  split; [exact Hio|].
  destruct Hio as [_ Hn].
  destruct (Z.ltb_spec (num_registered st) 3) as [Hlt|Hge].
  - rewrite Hreg. cbn [fst snd num_registered].
    split; [reflexivity|]. split; [lia|].
    intros Hbad. unfold WATCHDOG_INVALID_ID in Hbad. lia.
  - rewrite Hreg. cbn [fst snd]. split; [reflexivity|]. split; [lia|].
    intros _. subst r. unfold watchdog_register.
    destruct (Z.geb_spec (num_registered st) WATCHDOG_MAX_TASKS) as [_|Hlt];
      [reflexivity|]. unfold WATCHDOG_MAX_TASKS in Hlt. lia.
Qed.

Lemma X13_ids_handed_out_in_order_witness :
  fst (fst (watchdog_register "Print_Task" 5000 17 (fst watchdog_init))) = 0.
Proof.
  exact (proj1 (proj2 (X13_ids_handed_out_in_order (fst watchdog_init)
                         "Print_Task" 5000 17 reach_init))).
Defined.


Lemma elapsed_since (tick d : Z) :
  0 <= d < 2 ^ 32 -> pdTICKS_TO_MS (u32 (u32 (tick + d) - tick)) = d.
Proof. intros Hd. now apply elapsed_after. Qed.

Lemma stats_not_registered id want_last_feed want_timeout now st :
  is_registered id st = false ->
  watchdog_get_stats id want_last_feed want_timeout now st = (pdFALSE, None, None) /\
  watchdog_feed id now st = st.
Proof.
  unfold is_registered, watchdog_get_stats, watchdog_feed, WATCHDOG_MAX_TASKS.
  intros H.
  destruct (Z.ltb_spec id 3) as [Hlt|Hge], (Z.geb_spec id 3) as [Hge'|Hlt'];
    try lia; [|now split].
  cbn [andb] in H.
  destruct (watchdog_tasks st !! Z.to_nat id) as [e|]; [|now split].
  cbn [from_option] in H. rewrite H. now split.
Qed.

(** X14. [watchdog_get_stats] reads back what [watchdog_feed] wrote. For
    a registered slot fed at tick [tick] and asked [d] ticks later, the
    tick counter having wrapped round or not: the result is [pdTRUE], the
    time since the last feed is [d] ms and the timeout is the one the slot
    was registered with, each stored only through a pointer that is not
    NULL. On an id beyond the table or on a free slot both functions give
    up: [watchdog_get_stats] returns [pdFALSE] and stores nothing, and
    [watchdog_feed] changes nothing. *)
Theorem X14_stats_after_feed :
  forall (st : state) (id : Z) (e : watchdog_entry_t) (tick d : Z)
         (want_last_feed want_timeout : bool),
    0 <= id < WATCHDOG_MAX_TASKS ->
    watchdog_tasks st !! Z.to_nat id = Some e ->
    registered e = true ->
    0 <= d < 2 ^ 32 ->
    watchdog_get_stats id want_last_feed want_timeout (u32 (tick + d))
        (watchdog_feed id tick st) =
      (pdTRUE, if want_last_feed then Some d else None,
       if want_timeout then Some (timeout_ms e) else None) /\
    (forall id' now,
       is_registered id' st = false ->
       watchdog_get_stats id' want_last_feed want_timeout now st =
         (pdFALSE, None, None) /\
       watchdog_feed id' now st = st).
Proof.
  intros st id e tick d wl wt Hid He Hr Hd.
  split; [|intros id' now; apply stats_not_registered].
  unfold watchdog_feed, watchdog_get_stats, WATCHDOG_MAX_TASKS in *.
  destruct (Z.geb_spec id 3) as [Hge|_]; [lia|].
  rewrite He, Hr. cbn [negb watchdog_tasks set_tasks].
  rewrite list_lookup_insert_eq by (eapply lookup_lt_Some; exact He).
  cbn [registered set_last_feed_tick negb last_feed_tick timeout_ms].
  rewrite Hr. cbn [negb]. now rewrite elapsed_since.
Qed.

Lemma X14_stats_after_feed_witness :
  let st := snd (fst (watchdog_register "Print_Task" 5000 17 (fst watchdog_init))) in
  watchdog_get_stats 0 true true (u32 (4294967290 + 100))
      (watchdog_feed 0 4294967290 st) =
    (pdTRUE, Some 100, Some 5000).
Proof.
  intros st.
  assert (Hid : 0 <= 0 < WATCHDOG_MAX_TASKS) by (unfold WATCHDOG_MAX_TASKS; lia).
  assert (Hd : 0 <= 100 < 2 ^ 32) by lia.
  assert (He : watchdog_tasks st !! Z.to_nat 0 =
               Some {| task_name := strncpy "Print_Task" 15 ++ [NUL];
                       timeout_ms := 5000; last_feed_tick := 17;
                       registered := true |}) by reflexivity.
  assert (Hr : registered {| task_name := strncpy "Print_Task" 15 ++ [NUL];
                             timeout_ms := 5000; last_feed_tick := 17;
                             registered := true |} = true) by reflexivity.
  exact (proj1 (X14_stats_after_feed st 0 _ 4294967290 100 true true Hid He Hr Hd)).
Defined.

(** X15. A task is watched from the moment it registers. In every state
    the module can reach, when [watchdog_register] returns a valid id:
    [watchdog_get_stats] on that id, [d] ticks later, returns [pdTRUE] with
    [d] ms since the last feed and the timeout given at registration, and
    the check of the watchdog task on that slot, [d] ticks later, alerts
    exactly when [d] is above the timeout. *)
Theorem X15_watched_from_registration :
  forall (st : state) (name : string) (timeout tick d : Z) (cb : option Z),
    reachable st ->
    0 <= d < 2 ^ 32 ->
    let r := watchdog_register name timeout tick st in
    let rid := fst (fst r) in
    rid <> WATCHDOG_INVALID_ID ->
    watchdog_get_stats rid true true (u32 (tick + d)) (snd (fst r)) =
      (pdTRUE, Some d, Some timeout) /\
    is_registered rid st = false /\
    exists e,
      watchdog_tasks (snd (fst r)) !! Z.to_nat rid = Some e /\
      length (snd (check_entry cb (u32 (tick + d)) rid e)) =
        if d >? timeout then 1%nat else 0%nat.
Proof.
  intros st name timeout tick d cb Hreach Hd r rid Hvalid.
  pose proof (reachable_in_order st Hreach) as Hio.
  pose proof (watchdog_register_in_order name timeout tick st Hio) as Hreg.
  cbv zeta in Hreg. fold r in Hreg.
  destruct (in_order_cells st Hio) as (e0 & e1 & e2 & Ht & H0 & H1 & H2).
  destruct Hio as [_ Hn].
  subst rid.
  destruct (Z.ltb_spec (num_registered st) 3) as [Hlt|Hge];
    [|rewrite Hreg in Hvalid; now contradiction Hvalid].
  rewrite Hreg. cbn [fst snd].
  assert (Hlen : (Z.to_nat (num_registered st) < length (watchdog_tasks st))%nat)
    by (rewrite Ht; cbn [length]; lia).
  split; [|split].
  - unfold watchdog_get_stats, WATCHDOG_MAX_TASKS.
    destruct (Z.geb_spec (num_registered st) 3) as [Hge|_]; [lia|].
    cbn [watchdog_tasks]. rewrite list_lookup_insert_eq by exact Hlen.
    cbn [registered negb last_feed_tick timeout_ms].
    now rewrite elapsed_since.
  - unfold is_registered. rewrite Ht.
    assert (Hc : num_registered st = 0 \/ num_registered st = 1 \/
                 num_registered st = 2) by lia.
    destruct Hc as [E|[E|E]]; rewrite E in *; cbn in H0, H1, H2 |- *;
      [change (Z.to_nat 0) with 0%nat | change (Z.to_nat 1) with 1%nat
      | change (Z.to_nat 2) with 2%nat];
      cbn [lookup list_lookup from_option]; assumption.
  - eexists. split; [cbn [watchdog_tasks]; apply list_lookup_insert_eq, Hlen|].
    rewrite check_entry_after; [|reflexivity|reflexivity|exact Hd].
    cbn [timeout_ms]. now destruct (d >? timeout).
Qed.

Lemma X15_watched_from_registration_witness :
  watchdog_get_stats 0 true true (u32 (17 + 6000))
      (snd (fst (watchdog_register "Print_Task" 5000 17 (fst watchdog_init)))) =
    (pdTRUE, Some 6000, Some 5000).
Proof.
  assert (Hd : 0 <= 6000 < 2 ^ 32) by lia.
  assert (Hv : fst (fst (watchdog_register "Print_Task" 5000 17 (fst watchdog_init)))
               <> WATCHDOG_INVALID_ID) by (vm_compute; discriminate).
  exact (proj1 (X15_watched_from_registration (fst watchdog_init) "Print_Task"
                  5000 17 6000 None reach_init Hd Hv)).
Defined.

(** *** The watchdog task and the callback *)







End WatchdogMore.

(** ** The LED patterns *)

Section Leds.

Import LedEffects.

Lemma led_effects_set_pattern_spec accepted pattern st :
  match led_effects_set_pattern accepted pattern st with
  | Some st' =>
      current_pattern st' = pattern /\
      LED_GREEN_PIN st' = steady_level pattern /\
      LED_ORANGE_PIN st' = steady_level pattern /\
      (led_timer1 st' = None <-> led_timer1 st = None) /\
      (led_timer2 st' = None <-> led_timer2 st = None) /\
      ((forall k, accepted k = true) ->
       led_timer1 st <> None -> led_timer2 st <> None ->
       timer_as (fst <$> blink_periods pattern) (led_timer1 st') /\
       timer_as (snd <$> blink_periods pattern) (led_timer2 st'))
  | None =>
      blink_periods pattern <> None /\
      (led_timer1 st = None \/ led_timer2 st = None)
  end.
Proof.
  unfold led_effects_set_pattern, start_blinking.
  destruct pattern, (led_timer1 st) as [t1|], (led_timer2 st) as [t2|];
    cbn [current_pattern LED_GREEN_PIN LED_ORANGE_PIN led_timer1 led_timer2
           steady_level blink_periods fmap option_fmap option_map fst snd];
    repeat match goal with
           | |- _ /\ _ => split
           | |- _ <-> _ => split
           | |- Some _ = None -> _ => discriminate
           | |- None = None -> _ => reflexivity
           | |- _ = _ => reflexivity
           | |- _ \/ _ => first [left; reflexivity | right; reflexivity]
           | |- Some _ <> None => discriminate
           end;
    try (intros Hall H1 H2; try (now contradiction H1); try (now contradiction H2);
         rewrite ?Hall; unfold xTimerStop, xTimerChangePeriod, xTimerStart;
         rewrite ?Hall; split; reflexivity).
Qed.

(** X18. [led_effects_set_pattern], whatever the state before and whether
    the timer service takes the commands or not: with pattern 1 or none it
    always returns, and with a blinking pattern (2 or 3) it returns unless
    a timer was never created; when it returns, the pattern is recorded,
    both LEDs are at the level of the pattern (on for pattern 1, off for
    the others, the blinking ones starting from off), and a timer that was
    not created stays so. When both timers exist and all the commands are
    taken, the timers are stopped for pattern 1 and none, and run with
    periods of 100 and 1000 ticks for pattern 2, of 100 and 100 for
    pattern 3: nothing of the previous pattern is left but the periods of
    stopped timers. *)
Theorem X18_pattern_applied :
  forall (accepted : nat -> bool) (pattern : LED_Pattern_t) (st : state),
    match led_effects_set_pattern accepted pattern st with
    | Some st' =>
        current_pattern st' = pattern /\
        LED_GREEN_PIN st' = steady_level pattern /\
        LED_ORANGE_PIN st' = steady_level pattern /\
        (led_timer1 st' = None <-> led_timer1 st = None) /\
        (led_timer2 st' = None <-> led_timer2 st = None) /\
        ((forall k, accepted k = true) ->
         led_timer1 st <> None -> led_timer2 st <> None ->
         timer_as (fst <$> blink_periods pattern) (led_timer1 st') /\
         timer_as (snd <$> blink_periods pattern) (led_timer2 st'))
    | None =>
        blink_periods pattern <> None /\
        (led_timer1 st = None \/ led_timer2 st = None)
    end.
Proof. exact led_effects_set_pattern_spec. Qed.

Lemma X18_pattern_applied_witness :
  let st := led_effects_init true true
              {| led_timer1 := None; led_timer2 := None;
                 LED_GREEN_PIN := GPIO_PIN_SET; LED_ORANGE_PIN := GPIO_PIN_SET;
                 current_pattern := LED_PATTERN_NONE |} in
  exists st',
    led_effects_set_pattern (fun _ => true) LED_PATTERN_2 st = Some st' /\
    led_timer2 st' = Some {| period := 1000; active := true |}.
Proof.
  intros st.
  pose proof (X18_pattern_applied (fun _ => true) LED_PATTERN_2 st) as H.
  destruct (led_effects_set_pattern (fun _ => true) LED_PATTERN_2 st)
    as [st'|] eqn:E; [|exfalso; vm_compute in E; discriminate].
  exists st'. split; [reflexivity|].
  destruct H as (_ & _ & _ & _ & _ & H).
  assert (H1 : led_timer1 st <> None) by (vm_compute; discriminate).
  assert (H2 : led_timer2 st <> None) by (vm_compute; discriminate).
  destruct (H (fun _ => eq_refl) H1 H2) as [_ Ht].
  destruct (led_timer2 st') as [t|]; [|contradiction].
  cbn in Ht. now rewrite Ht.
Defined.



Lemma toggled_S k level : toggled (S k) level = toggle (toggled k level).
Proof.
  unfold toggled. rewrite Nat.odd_succ, <- Nat.negb_odd.
  destruct (Nat.odd k), level; reflexivity.
Qed.

(** The timer service on timers that run, or on timers that are
    stopped. *)
Lemma timer_service_spec (expired : list bool) :
  forall st t1 t2,
    led_timer1 st = Some t1 -> led_timer2 st = Some t2 ->
    let st' := timer_service expired st in
    led_timer1 st' = Some t1 /\ led_timer2 st' = Some t2 /\
    current_pattern st' = current_pattern st /\
    LED_GREEN_PIN st' =
      (if active t1 then toggled (expiries true expired) (LED_GREEN_PIN st)
       else LED_GREEN_PIN st) /\
    LED_ORANGE_PIN st' =
      (if active t2 then toggled (expiries false expired) (LED_ORANGE_PIN st)
       else LED_ORANGE_PIN st).
Proof.
  induction expired as [|which rest IH] using rev_ind; intros st t1 t2 H1 H2.
  - cbn. unfold toggled. cbn. destruct (active t1), (active t2); now repeat split.
  - unfold timer_service in *. rewrite fold_left_app. cbn [fold_left].
    destruct (IH st t1 t2 H1 H2) as (A & B & C & D & E).
    set (s := fold_left _ rest st) in *.
    assert (Hexp : forall first,
              expiries first (rest ++ [which]) =
              ((if Bool.eqb which first then 1 else 0) + expiries first rest)%nat).
    { intros first. clear. induction rest as [|x rest IHr]; cbn [app expiries].
      - lia.
      - rewrite IHr. lia. }
    rewrite !Hexp. unfold timer_expires.
    destruct which; cbn [Bool.eqb Nat.add]; [rewrite A | rewrite B].
    + destruct (active t1) eqn:Ea; [|now repeat split].
      cbn [led_timer1_callback led_timer1 led_timer2 current_pattern
             LED_GREEN_PIN LED_ORANGE_PIN].
      rewrite toggled_S, D. now repeat split.
    + destruct (active t2) eqn:Ea; [|now repeat split].
      cbn [led_timer2_callback led_timer1 led_timer2 current_pattern
             LED_GREEN_PIN LED_ORANGE_PIN].
      rewrite toggled_S, E. now repeat split.
Qed.

(** X26. The LEDs follow the pattern. After [led_effects_set_pattern]
    with both timers created and all its timer commands taken, and
    whatever timers expire afterwards and in whatever order: with pattern
    1 both LEDs stay on and with no pattern both stay off, for no timer
    runs; with pattern 2 or 3 each LED, starting from off, is on exactly
    after an odd number of expiries of its own timer, whatever the other
    timer does. The pattern recorded does not change. *)
Theorem X26_leds_follow_pattern :
  forall (pattern : LED_Pattern_t) (st st' : state) (expired : list bool),
    led_timer1 st <> None -> led_timer2 st <> None ->
    led_effects_set_pattern (fun _ => true) pattern st = Some st' ->
    let after := timer_service expired st' in
    current_pattern after = pattern /\
    match blink_periods pattern with
    | None =>
        LED_GREEN_PIN after = steady_level pattern /\
        LED_ORANGE_PIN after = steady_level pattern
    | Some _ =>
        LED_GREEN_PIN after = toggled (expiries true expired) GPIO_PIN_RESET /\
        LED_ORANGE_PIN after = toggled (expiries false expired) GPIO_PIN_RESET
    end.
Proof.
  intros pattern st st' expired H1 H2 Hset after.
  pose proof (led_effects_set_pattern_spec (fun _ => true) pattern st) as Hs.
  rewrite Hset in Hs. destruct Hs as (Hp & Hg & Ho & _ & _ & Ht).
  destruct (Ht (fun _ => eq_refl) H1 H2) as [T1 T2].
  destruct (led_timer1 st') as [t1|] eqn:E1; [|contradiction].
  destruct (led_timer2 st') as [t2|] eqn:E2; [|contradiction].
  destruct (timer_service_spec expired st' t1 t2 E1 E2) as (_ & _ & C & D & E).
  fold after in C, D, E. rewrite C, D, E, Hp, Hg, Ho.
  split; [reflexivity|].
  destruct pattern; cbn in T1, T2 |- *; rewrite ?T1, ?T2; cbn [active];
    now split.
Qed.

Lemma X26_leds_follow_pattern_witness :
  let st := led_effects_init true true
              {| led_timer1 := None; led_timer2 := None;
                 LED_GREEN_PIN := GPIO_PIN_SET; LED_ORANGE_PIN := GPIO_PIN_SET;
                 current_pattern := LED_PATTERN_NONE |} in
  match led_effects_set_pattern (fun _ => true) LED_PATTERN_2 st with
  | Some st' =>
      LED_GREEN_PIN (timer_service [true; false; true; true] st') = GPIO_PIN_SET
  | None => False
  end.
Proof.
  intros st.
  assert (H1 : led_timer1 st <> None) by (vm_compute; discriminate).
  assert (H2 : led_timer2 st <> None) by (vm_compute; discriminate).
  destruct (led_effects_set_pattern (fun _ => true) LED_PATTERN_2 st)
    as [st'|] eqn:Hset; [|vm_compute in Hset; discriminate].
  exact (proj1 (proj2 (X26_leds_follow_pattern LED_PATTERN_2 st st'
                         [true; false; true; true] H1 H2 Hset))).
Defined.

End Leds.

(** ** The communication task and the LED module *)

Section PatternLink.













End PatternLink.

(** ** From the interrupt to the line: the stream buffer *)

Section StreamBuffer.

Import Esp8266Comm.






End StreamBuffer.

(** ** What goes out on UART2 *)

Section Wire.

Import Esp8266Comm.

Lemma sent_app t1 t2 : sent (t1 ++ t2) = sent t1 ++ sent t2.
Proof.
  induction t1 as [|e t1 IH]; [reflexivity|].
  destruct e as [[]| | | | | | | | | |]; cbn [app sent]; now rewrite IH.
Qed.

Lemma sent_transmit_with_retry tx pData Size :
  whole_frame (pData, Size) ->
  Forall whole_frame (sent (snd (transmit_with_retry tx pData Size))).
Proof.
  intros H. rewrite transmit_with_retry_spec. unfold first_success.
  destruct (is_HAL_OK (tx 0%nat));
    [cbn; repeat (constructor; [exact H|]); constructor|].
  destruct (is_HAL_OK (tx 1%nat));
    [cbn; repeat (constructor; [exact H|]); constructor|].
  destruct (is_HAL_OK (tx 2%nat));
    cbn; repeat (constructor; [exact H|]); constructor.
Qed.

Lemma whole_frame_ack cmd :
  whole_frame (snd (fst (led_command_switch cmd)),
               strlen (snd (fst (led_command_switch cmd)))).
Proof.
  unfold led_command_switch, whole_frame, protocol_frames.
  repeat match goal with
         | |- context [if Ascii.eqb cmd ?c then _ else _] =>
             destruct (Ascii.eqb cmd c)
         end; cbn [fst snd map In]; split; try reflexivity; tauto.
Qed.

Lemma sent_process_led_command env line st :
  Forall whole_frame (sent (snd (process_led_command env line st))).
Proof.
  unfold process_led_command.
  destruct (strncmp line "PING" 4 =? 0).
  { pose proof (sent_transmit_with_retry (tx_status env) ("PONG" +:+ CRLF) 6) as H.
    destruct (transmit_with_retry (tx_status env) ("PONG" +:+ CRLF) 6) as [s t].
    cbn [fst snd] in *. rewrite !sent_app. cbn [sent app]. rewrite app_nil_r.
    apply H. split; [cbn; tauto | reflexivity]. }
  destruct (strncmp line "STM32_PONG" 10 =? 0).
  { destruct (negb (uart_connection_ok st)); constructor. }
  destruct (strncmp line "LED_CMD:" 8 =? 0); [|constructor].
  pose proof (whole_frame_ack (char_at line 8)) as Hack.
  destruct (led_command_switch (char_at line 8)) as [[pattern ack_msg] log_msg].
  cbn [fst snd] in Hack.
  pose proof (sent_transmit_with_retry (tx_status env) ack_msg (strlen ack_msg) Hack)
    as H.
  destruct (transmit_with_retry (tx_status env) ack_msg (strlen ack_msg)) as [s t].
  cbn [fst snd] in H.
  destruct pattern; cbn [fst snd]; rewrite !sent_app; cbn [sent app];
    destruct (is_HAL_OK s); cbn [sent app]; rewrite app_nil_r; exact H.
Qed.

Lemma sent_process_received_char env c st :
  Forall whole_frame (sent (snd (process_received_char env c st))).
Proof.
  unfold process_received_char.
  destruct (Ascii.eqb c LF || Ascii.eqb c CR).
  - destruct (rx_index st >? 0); [|constructor].
    set (buf := <[Z.to_nat (rx_index st) := NUL]> (rx_buffer st)).
    pose proof (sent_process_led_command env (c_str buf)
                  (set_rx buf (rx_index st) st)) as H.
    destruct (process_led_command env (c_str buf) (set_rx buf (rx_index st) st))
      as [st1 t].
    exact H.
  - destruct (rx_index st >=? UART_RX_BUFFER_SIZE - 1); [|constructor].
    cbn [fst snd sent]. constructor; [|constructor].
    split; [cbn; tauto | reflexivity].
Qed.

Lemma sent_ping_block tx now st :
  Forall whole_frame (sent (snd (ping_block tx now st))).
Proof.
  unfold ping_block.
  set (st1 := if last_ping_sent st =? 0 then _ else st). clearbody st1.
  destruct (u32 (now - last_ping_sent st1) >=? _); [|constructor].
  pose proof (sent_transmit_with_retry tx ("STM32_PING" +:+ CRLF) 12) as H.
  destruct (transmit_with_retry tx ("STM32_PING" +:+ CRLF) 12) as [status t].
  cbn [fst snd] in H.
  destruct (is_HAL_OK status); [destruct (get_random_jitter _ _)|];
    cbn [fst snd]; rewrite sent_app; cbn [sent]; rewrite app_nil_r;
    apply H; (split; [cbn; tauto | reflexivity]).
Qed.

Lemma sent_ping_timeout_block now st :
  sent (snd (ping_timeout_block now st)) = [].
Proof.
  rewrite ping_timeout_block_spec.
  destruct (waiting_for_pong st && _); [|reflexivity].
  now destruct (uart_connection_ok st).
Qed.

Lemma sent_high_water_block bytes_available st :
  sent (snd (high_water_block bytes_available st)) = [].
Proof.
  unfold high_water_block.
  destruct (bytes_available >? 64); [|reflexivity].
  now destruct (negb (buffer_warning_shown st)).
Qed.

Lemma sent_comm_task_iteration wd_id env st :
  Forall whole_frame (sent (snd (comm_task_iteration wd_id env st))).
Proof.
  unfold comm_task_iteration.
  pose proof (sent_ping_block (ping_status env) (now env) st) as H1.
  destruct (ping_block (ping_status env) (now env) st) as [st1 t1].
  pose proof (sent_ping_timeout_block (now env) st1) as H2.
  destruct (ping_timeout_block (now env) st1) as [st2 t2].
  cbn [fst snd] in *.
  destruct (received env) as [[c avail]|].
  - pose proof (sent_high_water_block avail st2) as H3.
    destruct (high_water_block avail st2) as [st3 t3].
    pose proof (sent_process_received_char (dispatch env) c st3) as H4.
    destruct (process_received_char (dispatch env) c st3) as [st4 t4].
    cbn [fst snd] in *.
    rewrite !sent_app, H2, H3.
    destruct (wd_id =? Watchdog.WATCHDOG_INVALID_ID); cbn [sent app];
      now apply Forall_app.
  - cbn [fst snd]. rewrite !sent_app, H2.
    destruct (wd_id =? Watchdog.WATCHDOG_INVALID_ID); cbn [sent app];
      now rewrite app_nil_r.
Qed.

(** X21. Nothing but whole protocol frames goes out on UART2. In every
    run of the task loop, from any state, every write to UART2 is one of
    the eight frames [PONG], [STM32_PING], [OK:Pattern1], [OK:Pattern2],
    [OK:Pattern3], [OK:AllOFF], [ERROR:InvalidPattern] and
    [ERROR:BufferOverflow], each with CR LF at its end and with its own
    length as the size passed: a line received is never echoed, and no
    frame is sent in part. *)
Theorem X21_only_whole_frames_sent :
  forall (wd_id : Z) (envs : list iteration_env) (st : state),
    Forall whole_frame (sent (snd (comm_task_run wd_id envs st))).
Proof.
  intros wd_id envs. induction envs as [|env rest IH]; intros st; [constructor|].
  rewrite comm_task_run_step. cbn [fst snd]. rewrite sent_app.
  apply Forall_app. split; [apply sent_comm_task_iteration | apply IH].
Qed.

End Wire.

(** ** A whole line, from the wire to the dispatcher *)

Section LineDelivery.

Import Esp8266Comm.

Lemma state_set_rx st : st = set_rx (rx_buffer st) (rx_index st) (forget_rx st).
Proof. now destruct st. Qed.

(** The dispatcher neither reads nor writes the line buffer. *)
Lemma process_led_command_set_rx env line buf idx st :
  process_led_command env line (set_rx buf idx st) =
  (set_rx buf idx (fst (process_led_command env line st)),
   snd (process_led_command env line st)).
Proof.
  unfold process_led_command.
  destruct (strncmp line "PING" 4 =? 0).
  { now destruct (transmit_with_retry (tx_status env) ("PONG" +:+ CRLF) 6). }
  destruct (strncmp line "STM32_PONG" 10 =? 0); [reflexivity|].
  destruct (strncmp line "LED_CMD:" 8 =? 0); [|reflexivity].
  destruct (led_command_switch (char_at line 8)) as [[pattern ack_msg] log_msg].
  destruct (transmit_with_retry (tx_status env) ack_msg (strlen ack_msg)) as [s t].
  now destruct pattern.
Qed.

Lemma process_led_command_forget_rx env line st st' :
  forget_rx st = forget_rx st' ->
  snd (process_led_command env line st) = snd (process_led_command env line st') /\
  forget_rx (fst (process_led_command env line st)) =
    forget_rx (fst (process_led_command env line st')).
Proof.
  intros H. rewrite (state_set_rx st), (state_set_rx st'), H.
  rewrite !process_led_command_set_rx. now split.
Qed.

Lemma feed_chars_app l1 l2 st :
  feed_chars (l1 ++ l2) st =
  (fst (feed_chars l2 (fst (feed_chars l1 st))),
   snd (feed_chars l1 st) ++ snd (feed_chars l2 (fst (feed_chars l1 st)))).
Proof.
  revert st. induction l1 as [|[c env] l1 IH]; intros st.
  - cbn [app feed_chars fst snd]. now destruct (feed_chars l2 st).
  - cbn [app]. rewrite !feed_chars_step, IH. cbn [fst snd].
    now rewrite app_assoc.
Qed.

Lemma forget_rx_store env c st :
  is_terminator c = false ->
  forget_rx (fst (process_received_char env c st)) = forget_rx st.
Proof.
  intros Hc. unfold process_received_char. fold (is_terminator c). rewrite Hc.
  now destruct (rx_index st >=? UART_RX_BUFFER_SIZE - 1).
Qed.

(** The characters of a line go into the buffer without a trace. *)
Lemma feed_body env (body : list ascii) :
  forall pre st,
    assembling pre st ->
    (length pre + length body <= 63)%nat ->
    Forall (fun c => is_terminator c = false) body ->
    let r := feed_chars (map (fun c => (c, env)) body) st in
    snd r = [] /\ assembling (pre ++ body) (fst r) /\
    forget_rx (fst r) = forget_rx st.
Proof.
  induction body as [|c body IH]; intros pre st Hst Hlen Hbody.
  - cbn [map feed_chars fst snd]. rewrite app_nil_r.
    split; [reflexivity|]. split; [exact Hst | reflexivity].
  - apply Forall_cons in Hbody as [Hc Hbody]. cbn [length] in Hlen.
    cbn [map]. cbv zeta. rewrite feed_chars_step. cbn [fst snd].
    assert (Hlt : (length pre mod 64 < 63)%nat)
      by (rewrite Nat.mod_small by lia; lia).
    destruct (assembling_store pre c st env Hst Hc Hlt) as [Ht Hst'].
    destruct (IH (pre ++ [c]) _ Hst'
                ltac:(rewrite length_app; cbn [length]; lia) Hbody)
      as (IHt & IHst & IHf).
    rewrite Ht, IHt. rewrite <- app_assoc in IHst. cbn [app] in IHst.
    split; [reflexivity|]. split; [exact IHst|].
    rewrite IHf. now apply forget_rx_store.
Qed.

(** A whole line, followed by CR LF, through the assembler. *)
Lemma feed_line :
  forall (env : dispatch_env) (body : list ascii) (st : state),
    assembling [] st ->
    (0 < length body <= 63)%nat ->
    Forall line_char body ->
    let line := string_of_list_ascii body in
    let r := feed_chars (map (fun c => (c, env)) (body ++ [CR; LF])) st in
    snd r = Dispatch line :: snd (process_led_command env line st) /\
    forget_rx (fst r) = forget_rx (fst (process_led_command env line st)) /\
    assembling [] (fst r).
Proof.
  intros env body st Hst Hlen Hbody line r. subst r.
  assert (Hterm : Forall (fun c => is_terminator c = false) body)
    by (eapply Forall_impl; [exact Hbody | now intros c [_ H]]).
  assert (Hnul : Forall (fun c => c <> NUL) body)
    by (eapply Forall_impl; [exact Hbody | now intros c [H _]]).
  rewrite map_app, feed_chars_app.
  destruct (feed_body env body [] st Hst ltac:(cbn; lia) Hterm)
    as (Ht & Hb & Hf).
  cbn [app] in Hb. cbn [fst snd]. rewrite Ht. cbn [app map].
  set (stb := fst (feed_chars (map (fun c => (c, env)) body) st)) in *.
  rewrite !feed_chars_step. cbn [feed_chars fst snd].
  destruct Hb as (Hl & Hi & Htake).
  rewrite Nat.mod_small in Hi, Htake by lia.
  unfold last_chars in Htake. rewrite Nat.sub_diag, drop_0 in Htake.
  (* CR closes the line *)
  assert (HCR : process_received_char env CR stb =
                (set_rx (<[length body := NUL]> (rx_buffer stb)) 0
                   (fst (process_led_command env line stb)),
                 Dispatch line :: snd (process_led_command env line stb))).
  { unfold process_received_char.
    change (Ascii.eqb CR LF || Ascii.eqb CR CR) with true. cbv iota.
    destruct (Z.gtb_spec (rx_index stb) 0) as [_|Hle]; [|lia].
    rewrite Hi, Nat2Z.id.
    assert (Hline : c_str (<[length body := NUL]> (rx_buffer stb)) = line).
    { rewrite insert_take_drop by lia. rewrite c_str_app_NUL, Htake.
      now apply c_str_no_NUL. }
    rewrite Hline, process_led_command_set_rx. reflexivity. }
  rewrite HCR. cbn [fst snd].
  (* LF finds the buffer empty *)
  assert (HLF : forall st0, process_received_char env LF (set_rx
                  (<[length body := NUL]> (rx_buffer stb)) 0 st0) =
                (set_rx (<[length body := NUL]> (rx_buffer stb)) 0 st0, [])).
  { intros st0. unfold process_received_char.
    change (Ascii.eqb LF LF || Ascii.eqb LF CR) with true. reflexivity. }
  rewrite HLF. cbn [fst snd app].
  destruct (process_led_command_forget_rx env line stb st Hf) as [Hs Hfs].
  rewrite Hs, app_nil_r. split; [reflexivity|]. split.
  - unfold forget_rx in *. cbn [set_rx] in *. exact Hfs.
  - apply assembling_nil; cbn [rx_buffer rx_index set_rx]; [|reflexivity].
    now rewrite length_insert.
Qed.

(** X22. A whole line is dispatched once, as it is. When the line buffer
    is empty and a line of 1 to 63 characters, none of them NUL, CR or LF,
    arrives followed by CR LF, then, whatever the rest of the statics: the
    characters are stored without any call, CR hands exactly that line to
    the dispatcher, LF does nothing, and what the task does and the statics
    it is left with, the line buffer apart, are those of the dispatcher on
    that line; the line buffer is empty again. *)
Theorem X22_line_delivered :
  forall (env : dispatch_env) (body : list ascii) (st : state),
    assembling [] st ->
    (0 < length body <= 63)%nat ->
    Forall line_char body ->
    let line := string_of_list_ascii body in
    let r := feed_chars (map (fun c => (c, env)) (body ++ [CR; LF])) st in
    snd r = Dispatch line :: snd (process_led_command env line st) /\
    forget_rx (fst r) = forget_rx (fst (process_led_command env line st)) /\
    assembling [] (fst r).
Proof. exact feed_line. Qed.

Lemma X22_line_delivered_witness :
  snd (feed_chars (map (fun c => (c, {| tx_status := fun _ => HAL_OK;
                                         tick_count := 0 |}))
                       (list_ascii_of_string "PING" ++ [CR; LF]))
                  initial_state) =
  Dispatch "PING" ::
    snd (process_led_command {| tx_status := fun _ => HAL_OK; tick_count := 0 |}
           "PING" initial_state).
Proof.
  assert (Hlen : (0 < length (list_ascii_of_string "PING") <= 63)%nat)
    by (cbn; lia).
  assert (Hbody : Forall line_char (list_ascii_of_string "PING"))
    by (repeat constructor; discriminate).
  exact (proj1 (X22_line_delivered {| tx_status := fun _ => HAL_OK; tick_count := 0 |}
                  (list_ascii_of_string "PING") initial_state
                  assembling_initial Hlen Hbody)).
Defined.

End LineDelivery.

(** ** The node and the bridge, end to end *)

Section EndToEnd.

Import Esp8266Comm.

Lemma current_pattern_forget_rx st st' :
  forget_rx st = forget_rx st' -> current_pattern st = current_pattern st'.
Proof. intros H. now apply (f_equal current_pattern) in H. Qed.

(** The node on a command line with one of the four tokens. *)
Lemma command_line_outcome env (token : ascii) st p reply :
  canonical_reply token = (Some p, reply) ->
  let line := ("LED_CMD:" +:+ String token "")%string in
  let r := process_led_command env line st in
  patterns (snd r) = [p] /\ current_pattern (fst r) = p /\
  exists n, (1 <= n <= 3)%nat /\ frames (snd r) = replicate n (reply +:+ CRLF).
Proof.
  intros Hc line r. subst r line. rewrite process_LED_CMD.
  change (char_at (String token "") 0) with token.
  destruct (led_command_switch_canonical token) as [log_msg ->].
  rewrite Hc. cbn [fst snd apply_pattern].
  destruct (transmit_with_retry_frames (tx_status env) (reply +:+ CRLF)
              (strlen (reply +:+ CRLF))) as (n & Hn & Hf & Hp).
  change (PrintMessage ?m :: ?t) with ([PrintMessage m] ++ t).
  rewrite !patterns_app, !frames_app, Hp, Hf.
  split; [now destruct (first_success (tx_status env))|].
  split; [reflexivity|].
  exists n. split; [exact Hn|].
  destruct (first_success (tx_status env)); cbn; now rewrite app_nil_r.
Qed.

Lemma bridge_empty b :
  Esp8266Bridge.rxBuffer b = ""%string -> b = Esp8266Bridge.set_rxBuffer "" b.
Proof. destruct b. cbn. now intros ->. Qed.

Ltac command_case token p reply :=
  cbv zeta; split; [reflexivity|];
  match goal with
  | |- context [feed_chars (map ?f (wire ?w)) ?st] =>
      change (wire w)
        with (list_ascii_of_string ("LED_CMD:" +:+ String token "") ++ [CR; LF])
  end;
  match goal with
  | Hst : assembling [] ?st |- context [feed_chars (map (fun c => (c, ?env)) _) ?st] =>
      let Hd := fresh "Hd" in
      destruct (feed_line env (list_ascii_of_string ("LED_CMD:" +:+ String token ""))
                  st Hst ltac:(cbv; lia)
                  ltac:(repeat constructor; discriminate)) as (Hd & Hf & _);
      destruct (command_line_outcome env token st p reply eq_refl)
        as (Hp & Hc & n & Hn & Hfr);
      rewrite Hd; cbn [patterns frames];
      split; [exact Hp|];
      split; [rewrite (current_pattern_forget_rx _ _ Hf); exact Hc|];
      split; [exists n; split; [exact Hn | exact Hfr]|]
  end.

(** X23. A pattern request, from the bridge to the LEDs and back. With
    the receive buffers of both sides empty: the bridge turns down a
    request whose parameter is not 1, 2, 3 or 4 with status 400 and sends
    nothing to the node; for one of the four it answers 200 and sends one
    command line, which the node's task assembles and dispatches, applying
    exactly the pattern asked for and handing to UART2, one to three
    times, the acknowledgement of that pattern and nothing else; and the
    bridge, on reading that acknowledgement during its wait, records it as
    the last acknowledgement and sends nothing more. *)
Theorem X23_pattern_request_round_trip :
  forall (arg : string) (b : Esp8266Bridge.state) (st : state) (env : dispatch_env),
    Esp8266Bridge.rxBuffer b = ""%string ->
    assembling [] st ->
    match request_reply arg with
    | None =>
        forall polls, Esp8266Bridge.handlePattern (Some arg) polls b = (400, b, [])
    | Some (p, reply) =>
        let request := Esp8266Bridge.handlePattern (Some arg) [] b in
        fst (fst request) = 200 /\
        let r := feed_chars (map (fun c => (c, env)) (wire (snd request))) st in
        patterns (snd r) = [p] /\
        current_pattern (fst r) = p /\
        (exists n, (1 <= n <= 3)%nat /\ frames (snd r) = replicate n (reply +:+ CRLF)) /\
        let answered :=
          Esp8266Bridge.handlePattern (Some arg)
            [list_ascii_of_string (reply +:+ CRLF)] b in
        fst (fst answered) = 200 /\
        Esp8266Bridge.lastAckReceived (snd (fst answered)) = reply /\
        Esp8266Bridge.rxBuffer (snd (fst answered)) = ""%string /\
        snd answered = snd request
    end.
Proof.
  intros arg b st env Hb Hst. unfold request_reply.
  rewrite (bridge_empty b Hb).
  destruct (String.eqb_spec arg "1") as [->|H1]; [command_case "1"%char LED_PATTERN_1 "OK:Pattern1"%string; now repeat split|].
  destruct (String.eqb_spec arg "2") as [->|H2]; [command_case "2"%char LED_PATTERN_2 "OK:Pattern2"%string; now repeat split|].
  destruct (String.eqb_spec arg "3") as [->|H3]; [command_case "3"%char LED_PATTERN_3 "OK:Pattern3"%string; now repeat split|].
  destruct (String.eqb_spec arg "4") as [->|H4]; [command_case "4"%char LED_PATTERN_NONE "OK:AllOFF"%string; now repeat split|].
  intros polls. unfold Esp8266Bridge.handlePattern.
  apply String.eqb_neq in H1, H2, H3, H4. rewrite H1, H2, H3, H4.
  cbn [negb andb]. now rewrite <- (bridge_empty b Hb).
Qed.


Lemma X23_pattern_request_round_trip_witness :
  Esp8266Bridge.lastAckReceived
    (snd (fst (Esp8266Bridge.handlePattern (Some "2"%string)
                 [list_ascii_of_string ("OK:Pattern2" +:+ CRLF)]
                 Esp8266Bridge.initial_state))) = "OK:Pattern2"%string.
Proof.
  assert (Hb : Esp8266Bridge.rxBuffer Esp8266Bridge.initial_state = ""%string)
    by reflexivity.
  pose proof (X23_pattern_request_round_trip "2" Esp8266Bridge.initial_state
                initial_state {| tx_status := fun _ => HAL_OK; tick_count := 0 |}
                Hb assembling_initial) as H.
  change (request_reply "2") with (Some (LED_PATTERN_2, "OK:Pattern2"%string)) in H.
  cbv beta iota zeta in H.
  exact (proj1 (proj2 (proj2 (proj2 (proj2 (proj2 H)))))).
Defined.

(** X24. The node's probe is answered, and the answer ends the exchange.
    With the receive buffers of both sides empty: the bridge, on reading the
    probe [STM32_PING] that the node sends, writes [STM32_PONG] and changes
    nothing of its own state; the node's task, on reading that answer,
    stops waiting, marks the link healthy, notes the tick count as the time
    of the answer, keeps the time of its probe, and hands nothing to UART2:
    an answer is never answered. *)
Theorem X24_node_probe_answered :
  forall (b : Esp8266Bridge.state) (st : state) (env : dispatch_env),
    Esp8266Bridge.rxBuffer b = ""%string ->
    assembling [] st ->
    let rb := Esp8266Bridge.processSTM32Response (list_ascii_of_string probe_frame) b in
    rb = (b, [Esp8266Bridge.println "STM32_PONG"]) /\
    let rs := feed_chars (map (fun c => (c, env)) (wire (snd rb))) st in
    waiting_for_pong (fst rs) = false /\
    uart_connection_ok (fst rs) = true /\
    last_pong_received (fst rs) = tick_count env /\
    last_ping_sent (fst rs) = last_ping_sent st /\
    sent (snd rs) = [].
Proof.
  intros b st env Hb Hst rb.
  assert (Hrb : rb = (b, [Esp8266Bridge.println "STM32_PONG"])).
  { subst rb. rewrite (bridge_empty b Hb) at 1 2. reflexivity. }
  split; [exact Hrb|]. rewrite Hrb. cbv zeta. cbn [snd].
  change (wire [Esp8266Bridge.println "STM32_PONG"])
    with (list_ascii_of_string "STM32_PONG" ++ [CR; LF]).
  destruct (feed_line env (list_ascii_of_string "STM32_PONG") st Hst
              ltac:(cbv; lia) ltac:(repeat constructor; discriminate))
    as (Hd & Hf & _).
  change (string_of_list_ascii (list_ascii_of_string "STM32_PONG"))
    with ("STM32_PONG" +:+ "")%string in Hd, Hf.
  rewrite process_STM32_PONG in Hd, Hf. cbn [fst snd] in Hd, Hf.
  rewrite Hd.
  pose proof (f_equal waiting_for_pong Hf) as H1.
  pose proof (f_equal uart_connection_ok Hf) as H2.
  pose proof (f_equal last_pong_received Hf) as H3.
  pose proof (f_equal last_ping_sent Hf) as H4.
  cbn in H1, H2, H3, H4.
  split; [exact H1|]. split; [exact H2|]. split; [exact H3|]. split; [exact H4|].
  now destruct (uart_connection_ok st).
Qed.

Lemma X24_node_probe_answered_witness :
  Esp8266Bridge.processSTM32Response (list_ascii_of_string probe_frame)
    Esp8266Bridge.initial_state =
  (Esp8266Bridge.initial_state, [Esp8266Bridge.println "STM32_PONG"]).
Proof.
  assert (Hb : Esp8266Bridge.rxBuffer Esp8266Bridge.initial_state = ""%string)
    by reflexivity.
  exact (proj1 (X24_node_probe_answered Esp8266Bridge.initial_state initial_state
                  {| tx_status := fun _ => HAL_OK; tick_count := 0 |}
                  Hb assembling_initial)).
Defined.

(** X25. The bridge's probe is answered. With the receive buffers of both
    sides empty: when [checkUARTConnection] writes anything, it is the
    probe [PING], and the bridge then waits for the answer; the node's task,
    on reading the probe, hands [PONG] to UART2, one to three times, and
    nothing else, and changes nothing of its statics; the bridge, on reading
    [PONG], marks the link healthy, stops waiting and writes nothing. *)
Theorem X25_bridge_probe_answered :
  forall (b : Esp8266Bridge.state) (st : state) (env : dispatch_env)
         (tick : Z) (random : nat -> Z),
    Esp8266Bridge.rxBuffer b = ""%string ->
    assembling [] st ->
    let rc := Esp8266Bridge.checkUARTConnection tick random b in
    snd rc <> [] ->
    snd rc = [Esp8266Bridge.println "PING"] /\
    Esp8266Bridge.waitingForEcho (fst rc) = true /\
    Esp8266Bridge.uartConnectionOK (fst rc) = Esp8266Bridge.uartConnectionOK b /\
    let rs := feed_chars (map (fun c => (c, env)) (wire (snd rc))) st in
    forget_rx (fst rs) = forget_rx st /\
    (exists n, (1 <= n <= 3)%nat /\
               sent (snd rs) = replicate n ("PONG" +:+ CRLF, 6)) /\
    let rb := Esp8266Bridge.processSTM32Response
                (list_ascii_of_string ("PONG" +:+ CRLF)) (fst rc) in
    Esp8266Bridge.uartConnectionOK (fst rb) = true /\
    Esp8266Bridge.waitingForEcho (fst rb) = false /\
    Esp8266Bridge.rxBuffer (fst rb) = ""%string /\
    snd rb = [].
Proof.
  intros b st env tick random Hb Hst rc Hw.
  assert (Hrc : exists jitter,
            rc = ({| Esp8266Bridge.rxBuffer := "";
                     Esp8266Bridge.uartConnectionOK := Esp8266Bridge.uartConnectionOK b;
                     Esp8266Bridge.lastEchoPing := tick;
                     Esp8266Bridge.lastEchoReceived := tick;
                     Esp8266Bridge.waitingForEcho := true;
                     Esp8266Bridge.lastAckReceived := Esp8266Bridge.lastAckReceived b;
                     Esp8266Bridge.nextPingJitter := jitter |},
                  [Esp8266Bridge.println "PING"])).
  { subst rc. revert Hw. unfold Esp8266Bridge.checkUARTConnection.
    destruct (Esp8266Bridge.lastEchoPing b =? 0);
      (destruct (u32 (tick - Esp8266Bridge.lastEchoPing b) >=? _);
       cbn [Esp8266Bridge.waitingForEcho Esp8266Bridge.lastEchoReceived
              Esp8266Bridge.uartConnectionOK];
       [rewrite Z.sub_diag, Hb; cbn; intros _; eexists; reflexivity|]);
      destruct (Esp8266Bridge.waitingForEcho b && _);
      cbn [snd]; intros H; now contradiction H. }
  destruct Hrc as [jitter ->].
  cbv zeta. cbn [fst snd Esp8266Bridge.waitingForEcho Esp8266Bridge.uartConnectionOK].
  split; [reflexivity|]. split; [reflexivity|]. split; [reflexivity|].
  change (wire [Esp8266Bridge.println "PING"])
    with (list_ascii_of_string "PING" ++ [CR; LF]).
  destruct (feed_line env (list_ascii_of_string "PING") st Hst
              ltac:(cbv; lia) ltac:(repeat constructor; discriminate))
    as (Hd & Hf & _).
  change (string_of_list_ascii (list_ascii_of_string "PING"))
    with ("PING" +:+ "")%string in Hd, Hf.
  rewrite process_PING in Hd, Hf. cbn [fst snd] in Hd, Hf.
  split; [exact Hf|]. split.
  - rewrite Hd. cbn [sent]. rewrite sent_app. cbn [sent]. rewrite app_nil_r.
    rewrite transmit_with_retry_spec. unfold first_success.
    destruct (is_HAL_OK (tx_status env 0%nat)); [exists 1%nat; split; [lia|reflexivity]|].
    destruct (is_HAL_OK (tx_status env 1%nat)); [exists 2%nat; split; [lia|reflexivity]|].
    destruct (is_HAL_OK (tx_status env 2%nat)); exists 3%nat; split; (lia || reflexivity).
  - now repeat split.
Qed.

Lemma X25_bridge_probe_answered_witness :
  snd (Esp8266Bridge.checkUARTConnection 12000 (fun _ => 0)
         Esp8266Bridge.initial_state) = [Esp8266Bridge.println "PING"].
Proof.
  assert (Hb : Esp8266Bridge.rxBuffer Esp8266Bridge.initial_state = ""%string)
    by reflexivity.
  assert (Hw : snd (Esp8266Bridge.checkUARTConnection 12000 (fun _ => 0)
                      Esp8266Bridge.initial_state) <> [])
    by (vm_compute; discriminate).
  exact (proj1 (X25_bridge_probe_answered Esp8266Bridge.initial_state initial_state
                  {| tx_status := fun _ => HAL_OK; tick_count := 0 |}
                  12000 (fun _ => 0) Hb assembling_initial Hw)).
Defined.

End EndToEnd.
